(** * ix-feature-discovery: labeler composition, aggregation and refresh loop

    A shallow embedding of the Go packages [pkg/resource], [pkg/label],
    [pkg/config] and [cmd/ix-feature-discovery], followed by the properties
    of the specification proved (or refuted) on that embedding.

    Conventions of the embedding.
    - A Go [string] is a Rocq [string] (a sequence of bytes).
    - A Go [map[string]T] is a [gmap string T]; a nil map and an empty map
      are both [∅] (the code only ranges over, measures and compares maps
      semantically, which does not tell them apart).
    - A Go function returning [(T, error)] returns [Result T]; the value
      returned next to a non-nil error is always nil or zero in this code.
    - [fmt.Errorf] and [klog.Warningf] calls are kept as the call itself
      (format, arguments, wrapped error) instead of a rendered message.
    - [klog.Info] lines are left out; [klog.Warning] lines are kept in the
      order they are written. *)

From Stdlib Require Import ZArith Ascii String DecimalString DecimalPos DecimalZ.
From stdpp Require Import base gmap strings list fin_maps.

Set Warnings "-register-all".

Abbreviation Labels := (gmap string string).

(** ** Go runtime and standard library *)

Module Go.

(** [error]: an error value made outside the embedded code (known by its
    message only), or the result of [fmt.Errorf(format, args...)]; when the
    last argument of the call is an error it is kept as [err]. *)
Inductive error : Type :=
| ErrNew (msg : string)
| Errorf (format : string) (args : list string)
| ErrorfErr (format : string) (args : list string) (err : error).

Inductive Result (A : Type) : Type :=
| Ok (a : A)
| Err (e : error).
Global Arguments Ok {A} a.
Global Arguments Err {A} e.

(** A line written through [klog.Warning] or [klog.Warningf]. *)
Inductive LogLine : Type :=
| Warning (msg : string)
| Warningf (format : string) (args : list string)
| WarningfErr (format : string) (args : list string) (err : error).

(** The double quote character, for format strings that contain it. *)
Definition dquote : string := String (ascii_of_nat 34) EmptyString.

(** [strconv.Itoa], also [fmt.Sprintf("%d", _)]. *)
Definition Itoa (z : Z) : string := NilZero.string_of_int (Z.to_int z).

(** The conversion [int(u)] of a [uint64] on a 64-bit platform. *)
Definition int_of_uint64 (u : Z) : Z :=
  ((u + 2 ^ 63) mod 2 ^ 64 - 2 ^ 63)%Z.

(** [strings.Split(s, sep)] for a separator of one byte. *)
Fixpoint Split (s : string) (sep : ascii) : list string :=
  match s with
  | EmptyString => [EmptyString]
  | String c s' =>
      if Ascii.eqb c sep then EmptyString :: Split s' sep
      else match Split s' sep with
           | [] => [String c EmptyString]
           | x :: xs => String c x :: xs
           end
  end.

(** [strings.Join]. *)
Fixpoint Join (elems : list string) (sep : string) : string :=
  match elems with
  | [] => EmptyString
  | [x] => x
  | x :: xs => x +:+ sep +:+ Join xs sep
  end.

(** The table [asciiSpace] of package [strings]: tab, line feed, vertical
    tab, form feed, carriage return and space. *)
Definition asciiSpace (c : ascii) : bool :=
  let n := nat_of_ascii c in
  (Nat.leb 9 n && Nat.leb n 13) || Nat.eqb n 32.

(** [strings.Fields] on a string of ASCII bytes: the maximal runs of
    non-space bytes, in order. *)
Fixpoint Fields (s : string) : list string :=
  match s with
  | EmptyString => []
  | String c s' =>
      if asciiSpace c then Fields s'
      else match s' with
           | EmptyString => [String c EmptyString]
           | String c' _ =>
               if asciiSpace c' then String c EmptyString :: Fields s'
               else match Fields s' with
                    | [] => [String c EmptyString]
                    | x :: xs => String c x :: xs
                    end
           end
  end.

(** The string of the bytes with the given codes. *)
Definition bytes (codes : list nat) : string :=
  foldr (fun n s => String (ascii_of_nat n) s) EmptyString codes.

(** The white space runes of [unicode.IsSpace], each by its UTF-8 encoding:
    the six of [asciiSpace], then U+0085, U+00A0, U+1680, U+2000 to U+200A,
    U+2028, U+2029, U+202F, U+205F and U+3000. *)
Definition whiteSpace : list string :=
  bytes <$> [ [9]; [10]; [11]; [12]; [13]; [32];
              [194; 133]; [194; 160]; [225; 154; 128];
              [226; 128; 128]; [226; 128; 129]; [226; 128; 130];
              [226; 128; 131]; [226; 128; 132]; [226; 128; 133];
              [226; 128; 134]; [226; 128; 135]; [226; 128; 136];
              [226; 128; 137]; [226; 128; 138];
              [226; 128; 168]; [226; 128; 169]; [226; 128; 175];
              [226; 129; 159]; [227; 128; 128] ].

(** [s] without its prefix [pre], when it has that prefix. *)
Fixpoint strip_prefix (pre s : string) : option string :=
  match pre with
  | EmptyString => Some s
  | String c pre' =>
      match s with
      | EmptyString => None
      | String c' s' => if Ascii.eqb c c' then strip_prefix pre' s' else None
      end
  end.

(** [s] without its suffix [suf], when it has that suffix. *)
Fixpoint strip_suffix (suf s : string) : option string :=
  if String.eqb s suf then Some EmptyString
  else match s with
       | EmptyString => None
       | String c s' => String c <$> strip_suffix suf s'
       end.

(** [s] without the white space rune it starts with, or ends with. *)
Definition skip_first_space (s : string) : option string :=
  list_find is_Some ((fun e => strip_prefix e s) <$> whiteSpace) ≫= snd.
Definition skip_last_space (s : string) : option string :=
  list_find is_Some ((fun e => strip_suffix e s) <$> whiteSpace) ≫= snd.

(** [strings.TrimLeftFunc(s, unicode.IsSpace)] and
    [strings.TrimRightFunc(s, unicode.IsSpace)]; [n] bounds the number of
    runes removed. *)
Fixpoint TrimLeftSpace (n : nat) (s : string) : string :=
  match n with
  | O => s
  | S n =>
      match skip_first_space s with
      | Some s' => TrimLeftSpace n s'
      | None => s
      end
  end.

Fixpoint TrimRightSpace (n : nat) (s : string) : string :=
  match n with
  | O => s
  | S n =>
      match skip_last_space s with
      | Some s' => TrimRightSpace n s'
      | None => s
      end
  end.

(** [strings.TrimSpace]: the white space runes at both ends are removed;
    an invalid byte is no white space. *)
Definition TrimSpace (s : string) : string :=
  let s := TrimLeftSpace (String.length s) s in
  TrimRightSpace (String.length s) s.

(** [re.ReplaceAllString] with the empty replacement, for a regular
    expression that is a single negated character class: the bytes [keep]
    accepts are kept.  Every byte
    of a rune outside ASCII, and every invalid byte, lies outside the class
    and is dropped with it. *)
Fixpoint RemoveOutside (keep : ascii -> bool) (s : string) : string :=
  match s with
  | EmptyString => EmptyString
  | String c s' =>
      if keep c then String c (RemoveOutside keep s') else RemoveOutside keep s'
  end.

(** The idiom [if err != nil { return nil, fmt.Errorf(format, err) }]. *)
Definition wrap {A : Type} (format : string) (r : Result A) : Result A :=
  match r with
  | Ok a => Ok a
  | Err err => Err (ErrorfErr format [] err)
  end.

Global Instance Result_ret : MRet Result := fun _ a => Ok a.
Global Instance Result_bind : MBind Result := fun _ _ f r =>
  match r with
  | Ok a => f a
  | Err e => Err e
  end.

(** A computation that writes warnings and then returns or fails. *)
Definition Logged (A : Type) : Type := list LogLine * Result A.

Global Instance Logged_ret : MRet Logged := fun _ a => ([], Ok a).
Global Instance Logged_bind : MBind Logged := fun _ _ f m =>
  match m with
  | (log, Ok a) => let '(log', r) := f a in (log ++ log', r)
  | (log, Err e) => (log, Err e)
  end.

Definition klog (line : LogLine) : Logged unit := ([line], Ok tt).
Definition quiet {A : Type} (r : Result A) : Logged A := ([], r).
Definition wrapL {A : Type} (format : string) (m : Logged A) : Logged A :=
  (m.1, wrap format m.2).

(** The order in which one [for k, v := range m] statement visits a map:
    the language leaves it unspecified, every entry is visited once. *)
Record MapOrder (A : Type) : Type := {
  range_of :> gmap string A -> list (string * A);
  range_perm : forall m, range_of m ≡ₚ map_to_list m
}.
Global Arguments range_of {A} _ _.
Global Arguments range_perm {A} _ _.

(** The outcome of an operation that may stop with a run-time panic. *)
Inductive Outcome (A : Type) : Type :=
| Returns (a : A)
| PanicIndexOutOfRange (index len : nat).
Global Arguments Returns {A} a.
Global Arguments PanicIndexOutOfRange {A} index len.

(** [strconv.Atoi] on a 64-bit platform: an optional sign, then one or more
    decimal digits, the value within the range of [int]; the errors are
    the two [*NumError] values, kept by what their messages say.
    [ParseUint] reads the bytes in order and stops at the first one that is
    no digit, or at the first digit with which the value leaves the range
    of [uint64], whichever comes first: a string with a byte that is no
    digit is out of range when the digits before that byte already are. *)
Definition NumError (s reason : string) : error :=
  Errorf ("strconv.Atoi: parsing %q: " +:+ reason) [s].

Definition is_digit (c : ascii) : bool :=
  let n := nat_of_ascii c in Nat.leb 48 n && Nat.leb n 57.

(** The digits a string starts with. *)
Fixpoint leading_digits (s : string) : string :=
  match s with
  | EmptyString => EmptyString
  | String c rest =>
      if is_digit c then String c (leading_digits rest) else EmptyString
  end.

(** The value of a string of decimal digits. *)
Definition decimal_value (digits : string) : Z :=
  match NilEmpty.uint_of_string digits with
  | Some u => Z.of_uint u
  | None => 0%Z
  end.

Definition Atoi (s : string) : Result Z :=
  let '(neg, digits) :=
    match s with
    | String c rest =>
        if Ascii.eqb c "+" then (false, rest)
        else if Ascii.eqb c "-" then (true, rest)
        else (false, s)
    | EmptyString => (false, s)
    end in
  match digits with
  | EmptyString => Err (NumError s "invalid syntax")
  | _ =>
      match NilEmpty.uint_of_string digits with
      | None =>
          Err (NumError s
                 (if Z.leb (2 ^ 64) (decimal_value (leading_digits digits))
                  then "value out of range" else "invalid syntax"))
      | Some u =>
          let un := Z.of_uint u in
          if neg then
            if Z.ltb (2 ^ 63) un then Err (NumError s "value out of range")
            else Ok (- un)%Z
          else
            if Z.leb (2 ^ 63) un then Err (NumError s "value out of range")
            else Ok un
      end
  end.

(** The conversion [uint(i)] of an [int] on a 64-bit platform. *)
Definition uint_of_int (i : Z) : Z := (i mod 2 ^ 64)%Z.

End Go.
Export Go.


(** ** Package [config] *)

Module config.

(** [Flags]: [NewConfig] fills every field, since [main] registers the four
    flags and [updateFromCLIFlag] assigns a pointer that is still nil; the
    fields are therefore the pointed-to values. *)
Record Flags : Type := {
  NoTimestamp : bool;
  SleepInterval : Z;
  OutputFile : string;
  MachineTypeFile : string
}.

Record Config : Type := { Flags_of : Flags }.

(** [NodeConfig], as [NewOutputer] and [Output] read it. *)
Record NodeConfig : Type := {
  Name : string;
  Namespace : string
}.

(** The struct [Flags] itself, each field a pointer that may be nil. *)
Record FlagPointers : Type := {
  pNoTimestamp : option bool;
  pSleepInterval : option Z;
  pOutputFile : option string;
  pMachineTypeFile : option string
}.

(** A [cli.Context], by what it answers for a flag name. *)
Record Context : Type := {
  IsSet : string -> bool;
  String_of : string -> string;
  Bool_of : string -> bool;
  Duration_of : string -> Z
}.

(** [updateFromCLIFlag], for a pointer whose type selects the reader
    [value] of the context; the four fields have supported types, so the
    panic of the default case is out of reach. *)
Definition updateFromCLIFlag {T : Type} (value : Context -> string -> T)
    (pflag : option T) (c : Context) (flagName : string) : option T :=
  if IsSet c flagName || match pflag with None => true | Some _ => false end
  then Some (value c flagName)
  else pflag.

(** The [switch] of [UpdateFromCLIFlags] on one name of one flag. *)
Definition update_for_name (c : Context) (f : FlagPointers) (n : string)
  : FlagPointers :=
  if bool_decide (n = "output-file") then
    {| pNoTimestamp := pNoTimestamp f; pSleepInterval := pSleepInterval f;
       pOutputFile := updateFromCLIFlag String_of (pOutputFile f) c n;
       pMachineTypeFile := pMachineTypeFile f |}
  else if bool_decide (n = "sleep-interval") then
    {| pNoTimestamp := pNoTimestamp f;
       pSleepInterval := updateFromCLIFlag Duration_of (pSleepInterval f) c n;
       pOutputFile := pOutputFile f; pMachineTypeFile := pMachineTypeFile f |}
  else if bool_decide (n = "no-timestamp") then
    {| pNoTimestamp := updateFromCLIFlag Bool_of (pNoTimestamp f) c n;
       pSleepInterval := pSleepInterval f;
       pOutputFile := pOutputFile f; pMachineTypeFile := pMachineTypeFile f |}
  else if bool_decide (n = "machine-type-file") then
    {| pNoTimestamp := pNoTimestamp f; pSleepInterval := pSleepInterval f;
       pOutputFile := pOutputFile f;
       pMachineTypeFile := updateFromCLIFlag String_of (pMachineTypeFile f) c n |}
  else f.

(** [Flags.UpdateFromCLIFlags]; a flag is given by its [Names()]. *)
Definition UpdateFromCLIFlags (f : FlagPointers) (c : Context)
    (flags : list (list string)) : FlagPointers :=
  foldl (fun f flag => foldl (update_for_name c) f flag) f flags.

(** [NewConfig]: the flags of the configuration it returns; its error is
    always nil. *)
Definition NewConfig (c : Context) (flags : list (list string)) : FlagPointers :=
  UpdateFromCLIFlags {| pNoTimestamp := None; pSleepInterval := None;
                        pOutputFile := None; pMachineTypeFile := None |} c flags.

(** The configuration read through its pointers, when none of them is
    nil. *)
Definition dereference (f : FlagPointers) : option Config :=
  noTimestamp ← pNoTimestamp f;
  sleepInterval ← pSleepInterval f;
  outputFile ← pOutputFile f;
  machineTypeFile ← pMachineTypeFile f;
  Some {| Flags_of := {| NoTimestamp := noTimestamp;
                         SleepInterval := sleepInterval;
                         OutputFile := outputFile;
                         MachineTypeFile := machineTypeFile |} |}.

End config.

(** ** Package [resource] *)

Module ixml.

(** A return code of the vendor library: [SUCCESS] or an error code, known
    here by the text [%v] prints for it. *)
Inductive Return : Type :=
| SUCCESS
| ERROR (text : string).

Definition Return_text (ret : Return) : string :=
  match ret with
  | SUCCESS => "SUCCESS"
  | ERROR text => text
  end.

Definition is_SUCCESS (ret : Return) : bool :=
  match ret with
  | SUCCESS => true
  | ERROR _ => false
  end.

(** A device handle of the vendor library, by what its reads answer. *)
Record Device : Type := {
  GetName : string * Return;
  GetMemoryInfo_Total : Z * Return
}.

(** The vendor library as the manager uses it, by what each call answers;
    [DeviceGetHandleByIndex] fills the handle it is given and returns the
    code. *)
Record Library : Type := {
  Init : Return;
  Shutdown : Return;
  DeviceGetCount : nat * Return;
  DeviceGetHandleByIndex : nat -> Device * Return;
  SystemGetDriverVersion : string * Return;
  SystemGetCudaDriverVersion : string * Return
}.

End ixml.

Module resource.

(** Interface [Device]: an implementation is given by what its two methods
    return when the labeler calls them. *)
Record Device : Type := {
  GetName : Result string;
  GetTotalMemoryMB : Result Z
}.

(** Interface [Manager], by what its methods return during one cycle.
    [NewIXDeviceLabeler] and [newIXResourceLabeler] each call [GetDevices];
    the two calls of a cycle are taken to answer alike. *)
Record Manager : Type := {
  Init : option error;
  Shutdown : option error;
  GetDevices : Result (list Device);
  GetIXDriverVersion : Result string;
  GetCudaRuntimeVersion : Result (Z * Z)
}.

(** [ixmlDevice.GetName]: the second token of the raw name; indexing the
    split at 1 panics when there is no such token. *)
Definition ixmlDevice_GetName (d : ixml.Device) : Outcome (Result string) :=
  let '(name, ret) := ixml.GetName d in
  if negb (ixml.is_SUCCESS ret) then
    Returns (Err (Errorf "failed to get device name: %v" [ixml.Return_text ret]))
  else
    let parts := Split name " " in
    match parts !! 1%nat with
    | Some productName => Returns (Ok productName)
    | None => PanicIndexOutOfRange 1 (length parts)
    end.

(** [ixmlDevice.GetTotalMemoryMB]. *)
Definition ixmlDevice_GetTotalMemoryMB (d : ixml.Device) : Result Z :=
  let '(total, ret) := ixml.GetMemoryInfo_Total d in
  if negb (ixml.is_SUCCESS ret) then
    Err (Errorf "failed to get device memory info: %v" [ixml.Return_text ret])
  else Ok total.

(** [ixmlLib.Init] and [ixmlLib.Shutdown]. *)
Definition ixmlLib_Init (lib : ixml.Library) : option error :=
  let ret := ixml.Init lib in
  if negb (ixml.is_SUCCESS ret)
  then Some (Errorf "failed to init: %v" [ixml.Return_text ret])
  else None.

Definition ixmlLib_Shutdown (lib : ixml.Library) : option error :=
  let ret := ixml.Shutdown lib in
  if negb (ixml.is_SUCCESS ret)
  then Some (Errorf "failed to shutdown: %v" [ixml.Return_text ret])
  else None.

(** [ixmlLib.GetIXDriverVersion]. *)
Definition ixmlLib_GetIXDriverVersion (lib : ixml.Library) : Result string :=
  let '(v, ret) := ixml.SystemGetDriverVersion lib in
  if negb (ixml.is_SUCCESS ret)
  then Err (Errorf "failed to get ix driver version: %v" [ixml.Return_text ret])
  else Ok v.

(** [ixmlLib.GetCudaRuntimeVersion]: the two numbers behind the pointers it
    returns. *)
Definition ixmlLib_GetCudaRuntimeVersion (lib : ixml.Library) : Result (Z * Z) :=
  let '(v, ret) := ixml.SystemGetCudaDriverVersion lib in
  if negb (ixml.is_SUCCESS ret)
  then Err (Errorf "failed to get cuda runtime version: %v" [ixml.Return_text ret])
  else
    vi ← wrap "failed to convert cuda runtime version: %v" (Atoi v);
    let major := (uint_of_int vi / 1000)%Z in
    let minor := (uint_of_int vi mod 1000 / 10)%Z in
    Ok (major, minor).

(** The loop of [ixmlLib.GetDevices], from index [idx], with [n] indices
    left before [count] is reached. *)
Fixpoint GetDevices_from (lib : ixml.Library) (idx n : nat)
    (devices : list ixml.Device) : Result (list ixml.Device) :=
  match n with
  | O => Ok devices
  | S n =>
      let '(devRef, ret) := ixml.DeviceGetHandleByIndex lib idx in
      if negb (ixml.is_SUCCESS ret)
      then Err (Errorf "failed to get device by index %d: %v"
                  [Itoa (Z.of_nat idx); ixml.Return_text ret])
      else GetDevices_from lib (S idx) n (devices ++ [devRef])
  end.

(** [ixmlLib.GetDevices]: the handles, each to be wrapped in an
    [ixmlDevice]. *)
Definition ixmlLib_GetDevices (lib : ixml.Library) : Result (list ixml.Device) :=
  let '(count, ret) := ixml.DeviceGetCount lib in
  if negb (ixml.is_SUCCESS ret)
  then Err (Errorf "failed to get device count: %v" [ixml.Return_text ret])
  else GetDevices_from lib 0 count [].

End resource.

(** ** Package [label]: label sources and their composition *)

Module label.

(** Interface [Labeler] with its three implementations of the package,
    [Labels], [empty] and [labelerList], and any further implementation,
    given by an identifier and by what its [Labels()] returns when it is
    invoked. *)
Inductive Labeler : Type :=
| Labels_labeler (labels : Labels)
| empty_labeler
| labelerList (labelers : list Labeler)
| foreign_labeler (id : nat) (answer : Result Labels).

(** [Merge]. *)
Definition Merge (labelers : list Labeler) : Labeler := labelerList labelers.

(** The loop [for k, v := range labels { allLabels[k] = v }]. *)
Definition copy_into (labels allLabels : Labels) : Labels :=
  map_fold (fun k v acc => <[k:=v]> acc) allLabels labels.

(** The method [Labels()] of a [Labeler]: the foreign sources it invokes, in
    order, and what it returns.  The case [labelerList] is the loop of
    [labelerList.Labels]. *)
Fixpoint Labeler_call (l : Labeler) : list nat * Result Labels :=
  match l with
  | Labels_labeler labels => ([], Ok labels)
  | empty_labeler => ([], Ok ∅)
  | labelerList labelers =>
      (fix range (labelers : list Labeler) (allLabels : Labels)
         : list nat * Result Labels :=
         match labelers with
         | [] => ([], Ok allLabels)
         | labeler :: rest =>
             match Labeler_call labeler with
             | (t, Err err) =>
                 (t, Err (ErrorfErr "error generating labels: %v" [] err))
             | (t, Ok labels) =>
                 let '(t', r) := range rest (copy_into labels allLabels) in
                 (t ++ t', r)
             end
         end) labelers ∅
  | foreign_labeler id answer => ([id], answer)
  end.

(** What [l.Labels()] returns. *)
Definition Labeler_Labels (l : Labeler) : Result Labels := (Labeler_call l).2.

(** The foreign sources [l.Labels()] invokes, in order. *)
Definition Labeler_invoked (l : Labeler) : list nat := (Labeler_call l).1.


Section sources.

(** The constant [nodeLabelPrefix] of the package. *)
Variable nodeLabelPrefix : string.

(** [os.ReadFile] at the time of the call. *)
Variable ReadFile : string -> Result string.

(** Modelled from the spec: the constant [machineTypeUnknown], the sentinel
    the machine-type source substitutes, is declared in a file of the
    package that is not part of the sources; the specification gives its
    value. *)
Definition machineTypeUnknown : string := "unknown".

(** [NewTimestampLabeler]; [now] is [time.Now().Unix()]. *)
Definition NewTimestampLabeler (cfg : config.Config) (now : Z) : Labeler :=
  if config.NoTimestamp (config.Flags_of cfg) then empty_labeler
  else Labels_labeler {[ nodeLabelPrefix +:+ "/ix.timestamp" := Itoa now ]}.

(** [getMachineType]. *)
Definition getMachineType (path : string) : Result string :=
  if bool_decide (path = "") then Ok machineTypeUnknown
  else
    data ← wrap "could not open machine type file: %v" (ReadFile path);
    Ok (TrimSpace data).

(** The character class of the expression [[^A-Za-z0-9-_. ]], without the
    negation: letters, digits, hyphen, underscore, full stop and space. *)
Definition sanitise_class (c : ascii) : bool :=
  let n := nat_of_ascii c in
  (Nat.leb 65 n && Nat.leb n 90) || (Nat.leb 97 n && Nat.leb n 122)
  || (Nat.leb 48 n && Nat.leb n 57)
  || Nat.eqb n 45 || Nat.eqb n 95 || Nat.eqb n 46 || Nat.eqb n 32.

(** [sanitise]. *)
Definition sanitise (input : string) : string :=
  let input := RemoveOutside sanitise_class input in
  Join (Fields input) "-".

(** [newMachineTypeLabeler]. *)
Definition newMachineTypeLabeler (machineTypePath : string) : Logged Labeler :=
  let '(log, machineType) :=
    match getMachineType machineTypePath with
    | Err err =>
        ([WarningfErr "Error getting machine type from %v: %v"
            [machineTypePath] err], machineTypeUnknown)
    | Ok machineType => ([], machineType)
    end in
  let machineType := sanitise machineType in
  (log, Ok (Labels_labeler {[ nodeLabelPrefix +:+ "/gpu.machine" := machineType ]})).

(** [ixmlVersionLabeler].  The two indexings follow the length check, which
    puts them in range. *)
Definition ixmlVersionLabeler (manager : resource.Manager) : Result Labeler :=
  driverVersion ← wrap "error getting ix driver version: %v"
                    (resource.GetIXDriverVersion manager);
  let driverVersionSplit := Split driverVersion "." in
  if (Nat.ltb 3 (length driverVersionSplit))
     || (Nat.ltb (length driverVersionSplit) 2) then
    Err (Errorf ("error getting driver version: Version " +:+ dquote +:+ "%s"
                 +:+ dquote +:+ " does not match format " +:+ dquote
                 +:+ "X.Y[.Z]" +:+ dquote) [driverVersion])
  else
    let driverMajor := default "" (driverVersionSplit !! 0%nat) in
    let driverMinor := default "" (driverVersionSplit !! 1%nat) in
    let driverRev :=
      if Nat.ltb 2 (length driverVersionSplit)
      then default "" (driverVersionSplit !! 2%nat) else "" in
    '(cudaMajor, cudaMinor) ← wrap "error getting cuda driver version: %v"
                                (resource.GetCudaRuntimeVersion manager);
    Ok (Labels_labeler
          (<[ nodeLabelPrefix +:+ "/ix.driver-version.full" := driverVersion ]>
          (<[ nodeLabelPrefix +:+ "/ix.driver-version.major" := driverMajor ]>
          (<[ nodeLabelPrefix +:+ "/ix.driver-version.minor" := driverMinor ]>
          (<[ nodeLabelPrefix +:+ "/ix.driver-version.revision" := driverRev ]>
          (<[ nodeLabelPrefix +:+ "/cuda.runtime-version.full" :=
                Itoa cudaMajor +:+ "." +:+ Itoa cudaMinor ]>
          (<[ nodeLabelPrefix +:+ "/cuda.runtime-version.major" := Itoa cudaMajor ]>
          (<[ nodeLabelPrefix +:+ "/cuda.runtime-version.minor" := Itoa cudaMinor ]>
             ∅)))))))).

(** The first loop of [newIXResourceLabeler]: per name, the number of
    devices and the memory of the device read last. *)
Fixpoint countDevices (devices : list resource.Device)
    (counts : gmap string Z) (memorys : gmap string string)
  : Result (gmap string Z * gmap string string) :=
  match devices with
  | [] => Ok (counts, memorys)
  | dev :: rest =>
      name ← wrap "error getting device name: %v" (resource.GetName dev);
      memory ← wrap "error getting device memory: %v"
                 (resource.GetTotalMemoryMB dev);
      countDevices rest
        (<[ name := (default 0 (counts !! name) + 1)%Z ]> counts)
        (<[ name := Itoa (int_of_uint64 memory) ]> memorys)
  end.

(** The three labels built for one name in the last loop of
    [newIXResourceLabeler]. *)
Definition resourceLabels (memorys : gmap string string)
    (name : string) (count : Z) : Labels :=
  <[ nodeLabelPrefix +:+ "/gpu.product" := name ]>
  (<[ nodeLabelPrefix +:+ "/gpu.count" := Itoa count ]>
  (<[ nodeLabelPrefix +:+ "/gpu.memory" := default "" (memorys !! name) ]> ∅)).

(** The list [labelers] that loop builds, visiting [counts] in [order]. *)
Definition resourceLabelers (order : MapOrder Z)
    (counts : gmap string Z) (memorys : gmap string string) : list Labeler :=
  (fun '(name, count) => Labels_labeler (resourceLabels memorys name count))
    <$> order counts.

(** [newIXResourceLabeler]; [names_order] and [labels_order] are the orders
    in which its two [range counts] loops visit the map. *)
Definition newIXResourceLabeler (names_order labels_order : MapOrder Z)
    (manager : resource.Manager) : Logged Labeler :=
  devices ← quiet (wrap "error getting devices: %v" (resource.GetDevices manager));
  if Nat.eqb (length devices) 0 then mret empty_labeler
  else
    '(counts, memorys) ← quiet (countDevices devices ∅ ∅);
    _ ← (if Nat.ltb 1 (size counts)
         then klog (Warningf "Multiple device types detected: %v"
                      ((names_order counts).*1))
         else mret tt);
    let labelers := resourceLabelers labels_order counts memorys in
    labels ← quiet (Labeler_Labels (labelerList labelers));
    mret (Merge [Labels_labeler labels]).

(** [NewIXDeviceLabeler].  The deferred [manager.Shutdown()] has its result
    dropped and changes nothing of what is returned. *)
Definition NewIXDeviceLabeler (names_order labels_order : MapOrder Z)
    (manager : resource.Manager) (cfg : config.Config) : Logged Labeler :=
  match resource.Init manager with
  | Some err =>
      quiet (Err (ErrorfErr "failed to initialize resource manager: %v" [] err))
  | None =>
      devices ← quiet (wrap "error getting devices: %v"
                         (resource.GetDevices manager));
      if Nat.eqb (length devices) 0 then mret empty_labeler
      else
        machineTypeLabeler ←
          wrapL "failed to construct machine type labeler: %v"
            (newMachineTypeLabeler (config.MachineTypeFile (config.Flags_of cfg)));
        versionLabeler ←
          quiet (wrap "failed to construct version labeler: %v"
                   (ixmlVersionLabeler manager));
        ixResourceLabeler ←
          wrapL "error creating resource labeler: %v"
            (newIXResourceLabeler names_order labels_order manager);
        mret (Merge [machineTypeLabeler; versionLabeler; ixResourceLabeler])
  end.

(** [NewLabelers]. *)
Definition NewLabelers (names_order labels_order : MapOrder Z)
    (manager : resource.Manager) (cfg : config.Config) : Logged Labeler :=
  wrapL "error creating labeler: %v"
    (NewIXDeviceLabeler names_order labels_order manager cfg).

End sources.

(** *** The publication sink of [output.go] *)

(** The API types the sink builds and compares: [metav1.ObjectMeta] by the
    fields the code sets plus two it only copies, [nfdv1alpha1.Features]
    with its three maps, [NodeFeatureSpec] and [NodeFeature]. *)
Record ObjectMeta : Type := {
  Name : string;
  Namespace : string;
  ResourceVersion : string;
  Annotations : gmap string string;
  ObjectLabels : gmap string string
}.

Record Features : Type := {
  Flags : gmap string (gset string);
  Attributes : gmap string (gmap string string);
  Instances : gmap string (list (gmap string string))
}.

Record NodeFeatureSpec : Type := {
  SpecFeatures : Features;
  SpecLabels : gmap string string
}.

Record NodeFeature : Type := {
  Meta : ObjectMeta;
  Spec : NodeFeatureSpec
}.

Global Instance ObjectMeta_eq_dec : EqDecision ObjectMeta.
Proof. solve_decision. Defined.
Global Instance Features_eq_dec : EqDecision Features.
Proof. solve_decision. Defined.
Global Instance NodeFeatureSpec_eq_dec : EqDecision NodeFeatureSpec.
Proof. solve_decision. Defined.
Global Instance NodeFeature_eq_dec : EqDecision NodeFeature.
Proof. solve_decision. Defined.

(** [nfdv1alpha1.NewFeatures()]: three empty maps. *)
Definition NewFeatures : Features :=
  {| Flags := ∅; Attributes := ∅; Instances := ∅ |}.

(** [equality.Semantic.DeepEqual] on two [NodeFeature] objects: field by
    field, a nil map equal to an empty one, which is equality here. *)
Definition Semantic_DeepEqual (a b : NodeFeature) : bool := bool_decide (a = b).

(** An error of the API client; [errors.IsNotFound] reads [IsNotFound]. *)
Record StatusError : Type := {
  IsNotFound : bool;
  StatusMessage : string
}.

Definition StatusError_error (e : StatusError) : error := ErrNew (StatusMessage e).

(** The client [nfdClientSet.NfdV1alpha1().NodeFeatures(namespace)] over a
    cluster state [Σ]. *)
Record NodeFeatureInterface (Σ : Type) : Type := {
  Get : string -> string -> Σ -> (NodeFeature + StatusError) * Σ;
  Create : string -> NodeFeature -> Σ -> (NodeFeature + StatusError) * Σ;
  Update : string -> NodeFeature -> Σ -> (NodeFeature + StatusError) * Σ
}.
Global Arguments Get {Σ} _ _ _ _.
Global Arguments Create {Σ} _ _ _ _.
Global Arguments Update {Σ} _ _ _ _.

(** A call issued to the client, with the namespace it is issued in. *)
Inductive Call : Type :=
| GetCall (namespace name : string)
| CreateCall (namespace : string) (obj : NodeFeature)
| UpdateCall (namespace : string) (obj : NodeFeature).

Definition is_CreateCall (c : Call) : bool :=
  match c with CreateCall _ _ => true | _ => false end.
Definition is_UpdateCall (c : Call) : bool :=
  match c with UpdateCall _ _ => true | _ => false end.

Record NodeFeatureOutputer (Σ : Type) : Type := {
  nodeConfig : config.NodeConfig;
  nfdClientSet : NodeFeatureInterface Σ
}.
Global Arguments nodeConfig {Σ} _.
Global Arguments nfdClientSet {Σ} _.

Section sink.

(** The constant [nodeFeaturePrefix] of the package and the constant
    [nfdv1alpha1.NodeFeatureObjNodeNameLabel]. *)
Variable nodeFeaturePrefix : string.
Variable NodeFeatureObjNodeNameLabel : string.

Context {Σ : Type}.

(** [NewOutputer]; its [config] argument is not used, and of the client
    sets only the NFD client is. *)
Definition NewOutputer (nodeConfig : config.NodeConfig)
    (clientSets_NFD : NodeFeatureInterface Σ) : Result (NodeFeatureOutputer Σ) :=
  if bool_decide (config.Name nodeConfig = "") then
    Err (Errorf "required flag node-name not set" [])
  else if bool_decide (config.Namespace nodeConfig = "") then
    Err (Errorf "required flag namespace not set" [])
  else Ok {| nodeConfig := nodeConfig; nfdClientSet := clientSets_NFD |}.

(** The object [Output] creates when none is stored. *)
Definition newNodeFeature (nodeFeatureName nodename : string) (labels : Labels)
  : NodeFeature :=
  {| Meta := {| Name := nodeFeatureName; Namespace := ""; ResourceVersion := "";
                Annotations := ∅;
                ObjectLabels := {[ NodeFeatureObjNodeNameLabel := nodename ]} |};
     Spec := {| SpecFeatures := NewFeatures; SpecLabels := labels |} |}.

(** The object [nfrUpdated] that [Output] computes from the stored [nfr]:
    a deep copy with the object labels and the spec replaced. *)
Definition updatedNodeFeature (nfr : NodeFeature) (nodename : string)
    (labels : Labels) : NodeFeature :=
  {| Meta := {| Name := Name (Meta nfr); Namespace := Namespace (Meta nfr);
                ResourceVersion := ResourceVersion (Meta nfr);
                Annotations := Annotations (Meta nfr);
                ObjectLabels := {[ NodeFeatureObjNodeNameLabel := nodename ]} |};
     Spec := {| SpecFeatures := NewFeatures; SpecLabels := labels |} |}.

(** [NodeFeatureOutputer.Output].  The state is the calls issued so far and
    the cluster; the result is the error returned, if any. *)
Definition NodeFeatureOutputer_Output (n : NodeFeatureOutputer Σ)
    (labels : Labels) (st : list Call * Σ) : option error * (list Call * Σ) :=
  let '(calls, σ) := st in
  let nodename := config.Name (nodeConfig n) in
  if bool_decide (nodename = "") then
    (Some (Errorf "required flag %q not set" ["node-name"]), (calls, σ))
  else
    let namespace := config.Namespace (nodeConfig n) in
    let nodeFeatureName := Join [nodeFeaturePrefix; nodename] "-" in
    let calls := calls ++ [GetCall namespace nodeFeatureName] in
    match Get (nfdClientSet n) namespace nodeFeatureName σ with
    | (inr err, σ) =>
        if IsNotFound err then
          let nfr := newNodeFeature nodeFeatureName nodename labels in
          let calls := calls ++ [CreateCall namespace nfr] in
          match Create (nfdClientSet n) namespace nfr σ with
          | (inr err, σ) =>
              (Some (ErrorfErr "failed to create NodeFeature object %q: %w"
                       [Name (Meta nfr)] (StatusError_error err)), (calls, σ))
          | (inl nfrCreated, σ) => (None, (calls, σ))
          end
        else
          (Some (ErrorfErr "failed to get NodeFeature object %s: %w"
                   [nodeFeatureName] (StatusError_error err)), (calls, σ))
    | (inl nfr, σ) =>
        let nfrUpdated := updatedNodeFeature nfr nodename labels in
        if negb (Semantic_DeepEqual nfr nfrUpdated) then
          let calls := calls ++ [UpdateCall namespace nfrUpdated] in
          match Update (nfdClientSet n) namespace nfrUpdated σ with
          | (inr err, σ) =>
              (Some (ErrorfErr "failed to update NodeFeature object %q: %w"
                       [Name (Meta nfr)] (StatusError_error err)), (calls, σ))
          | (inl nfrUpdated, σ) => (None, (calls, σ))
          end
        else (None, (calls, σ))
    end.

End sink.

(** A cluster that keeps the objects it is given, by namespace and name:
    the behaviour of an API server as far as [Output] relies on it. *)
Definition Store : Type := gmap (string * string) NodeFeature.

Definition in_namespace (namespace : string) (obj : NodeFeature) : NodeFeature :=
  {| Meta := {| Name := Name (Meta obj); Namespace := namespace;
                ResourceVersion := ResourceVersion (Meta obj);
                Annotations := Annotations (Meta obj);
                ObjectLabels := ObjectLabels (Meta obj) |};
     Spec := Spec obj |}.

Definition store_client : NodeFeatureInterface Store :=
  {| Get := fun namespace name σ =>
       match σ !! (namespace, name) with
       | Some obj => (inl obj, σ)
       | None => (inr {| IsNotFound := true; StatusMessage := "not found" |}, σ)
       end;
     Create := fun namespace obj σ =>
       match σ !! (namespace, Name (Meta obj)) with
       | Some _ =>
           (inr {| IsNotFound := false; StatusMessage := "already exists" |}, σ)
       | None =>
           let obj := in_namespace namespace obj in
           (inl obj, <[ (namespace, Name (Meta obj)) := obj ]> σ)
       end;
     Update := fun namespace obj σ =>
       match σ !! (namespace, Name (Meta obj)) with
       | Some _ =>
           let obj := in_namespace namespace obj in
           (inl obj, <[ (namespace, Name (Meta obj)) := obj ]> σ)
       | None => (inr {| IsNotFound := true; StatusMessage := "not found" |}, σ)
       end |}.

End label.

(** ** Command [ix-feature-discovery]: the refresh loop *)

Module main.

(** [syscall.Signal] numbers. *)
Definition Signal : Type := Z.
Definition SIGHUP : Signal := 1%Z.
Definition SIGINT : Signal := 2%Z.
Definition SIGQUIT : Signal := 3%Z.
Definition SIGTERM : Signal := 15%Z.

(** How one idle wait of [run] ends: the case the [select] statement takes. *)
Inductive Idle : Type :=
| rerunTimeout
| received (s : Signal).

(** The operating system as [run] uses it, over a file system state [FS]:
    [os.ReadFile], [filepath.Abs] and [os.Remove]. *)
Record OS (FS : Type) : Type := {
  ReadFile : FS -> string -> Result string;
  Abs : FS -> string -> Result string;
  Remove : string -> FS -> option error * FS
}.
Global Arguments ReadFile {FS} _ _ _.
Global Arguments Abs {FS} _ _ _.
Global Arguments Remove {FS} _ _ _.

(** The state [run] acts on: the file system, the state behind the
    [Outputer], and the warnings logged so far. *)
Record World (FS Σ : Type) : Type := {
  fs : FS;
  sink : Σ;
  log : list LogLine
}.
Global Arguments fs {FS Σ} _.
Global Arguments sink {FS Σ} _.
Global Arguments log {FS Σ} _.

(** One pass of the loop, as the environment determines it: what the
    manager answers in that pass, the orders of the two map traversals of
    the resource labeler, and how the idle wait after publishing ends. *)
Record Poll : Type := {
  manager : resource.Manager;
  names_order : MapOrder Z;
  labels_order : MapOrder Z;
  idle : Idle
}.

(** [ixfd], without its [manager] field, whose answers are in each [Poll].
    [labelOutputer] is the method [Output] of the interface [Outputer]. *)
Record ixfd (Σ : Type) : Type := {
  config_of : config.Config;
  labelOutputer : Labels -> Σ -> option error * Σ
}.
Global Arguments config_of {Σ} _.
Global Arguments labelOutputer {Σ} _ _ _.

(** What [run] returns: [(restart, err)]. *)
Definition Decision : Type := bool * option error.

Section loop.

Variable nodeLabelPrefix : string.
Context {FS Σ : Type}.
Variable os : OS FS.

Definition write_log (lines : list LogLine) (w : World FS Σ) : World FS Σ :=
  {| fs := fs w; sink := sink w; log := log w ++ lines |}.

(** [removeOutputFile]. *)
Definition removeOutputFile (path : string) (files : FS) : option error * FS :=
  match Abs os files path with
  | Err err =>
      (Some (ErrorfErr "failed to retrieve absolute path of output file: %v"
               [] err), files)
  | Ok absPath =>
      match Remove os absPath files with
      | (Some err, files) =>
          (Some (ErrorfErr "failed to remove output file: %v" [] err), files)
      | (None, files) => (None, files)
      end
  end.

(** The deferred function of [run]. *)
Definition run_deferred (d : ixfd Σ) (w : World FS Σ) : World FS Σ :=
  let OutputFile := config.OutputFile (config.Flags_of (config_of d)) in
  if bool_decide (OutputFile = "") then w
  else
    match removeOutputFile OutputFile (fs w) with
    | (Some err, files) =>
        {| fs := files; sink := sink w;
           log := log w ++ [WarningfErr "Error removing output file: %v" [] err] |}
    | (None, files) => {| fs := files; sink := sink w; log := log w |}
    end.

(** The statements of [run] from the label [rerun] to the call of
    [Output]: build the labels and publish them. *)
Definition publish (d : ixfd Σ) (timestampLabeler : label.Labeler) (p : Poll)
    (w : World FS Σ) : Result unit * World FS Σ :=
  let '(lines, r) :=
    label.NewLabelers nodeLabelPrefix (ReadFile os (fs w))
      (names_order p) (labels_order p) (manager p) (config_of d) in
  let w := write_log lines w in
  match r with
  | Err err => (Err err, w)
  | Ok loopLabelers =>
      let labelers := label.Merge [timestampLabeler; loopLabelers] in
      match label.Labeler_Labels labelers with
      | Err err => (Err (ErrorfErr "error generating labels: %v" [] err), w)
      | Ok labels =>
          let w :=
            if Nat.leb (size labels) 1
            then write_log [Warning "No labels generated from any source"] w
            else w in
          match labelOutputer d labels (sink w) with
          | (Some err, σ) => (Err err, {| fs := fs w; sink := σ; log := log w |})
          | (None, σ) => (Ok tt, {| fs := fs w; sink := σ; log := log w |})
          end
      end
  end.

(** The body of [run] from the label [rerun] on, along a script of passes.
    [None] stands for a loop that is still waiting when the script ends. *)
Fixpoint run_from_rerun (d : ixfd Σ) (timestampLabeler : label.Labeler)
    (script : list Poll) (w : World FS Σ) : option Decision * World FS Σ :=
  match script with
  | [] => (None, w)
  | p :: script =>
      match publish d timestampLabeler p w with
      | (Err err, w) => (Some (false, Some err), w)
      | (Ok _, w) =>
          match idle p with
          | rerunTimeout => run_from_rerun d timestampLabeler script w
          | received s =>
              if bool_decide (s = SIGHUP) then (Some (true, None), w)
              else (Some (false, None), w)
          end
      end
  end.

(** [ixfd.run]; [now] is the clock read by [NewTimestampLabeler].  The
    deferred function runs when the body returns. *)
Definition run (d : ixfd Σ) (now : Z) (script : list Poll) (w : World FS Σ)
  : option Decision * World FS Σ :=
  let timestampLabeler := label.NewTimestampLabeler nodeLabelPrefix (config_of d) now in
  match run_from_rerun d timestampLabeler script w with
  | (Some decision, w) => (Some decision, run_deferred d w)
  | (None, w) => (None, w)
  end.

End loop.

(** A file system that is a map from absolute paths to contents, in which
    every path handed to it is already absolute. *)
Definition Files : Type := gmap string string.

Definition files_os : OS Files :=
  {| ReadFile := fun files path =>
       match files !! path with
       | Some data => Ok data
       | None => Err (ErrNew "no such file or directory")
       end;
     Abs := fun _ path => Ok path;
     Remove := fun path files =>
       match files !! path with
       | Some _ => (None, delete path files)
       | None => (Some (ErrNew "no such file or directory"), files)
       end |}.

(** The names of the four flags [main] declares itself; the flags of the
    client and node configurations follow them in [config.flags]. *)
Definition declared_flags : list (list string) :=
  [ ["no-timestamp"]; ["sleep-interval"]; ["output-file"; "output"; "o"];
    ["machine-type-file"] ].

(** One turn of the loop of [start], as the environment determines it: the
    configuration loaded, the outcome of printing it, the client sets, the
    clock read by [run] and the passes of that [run]. *)
Record Epoch (Σ : Type) : Type := {
  loadConfig : Result config.Config;
  MarshalIndent : option error;
  NewClientSets : Result (label.NodeFeatureInterface Σ);
  clock : Z;
  passes : list Poll
}.
Global Arguments loadConfig {Σ} _.
Global Arguments MarshalIndent {Σ} _.
Global Arguments NewClientSets {Σ} _.
Global Arguments clock {Σ} _.
Global Arguments passes {Σ} _.

Section outer_loop.

Variable nodeLabelPrefix : string.
Variable nodeFeaturePrefix : string.
Variable NodeFeatureObjNodeNameLabel : string.
Context {FS Σ : Type}.
Variable os : OS FS.

(** [start], for the node configuration of the command line.  The result is
    the error returned, [None] inside standing for nil; [None] outside
    stands for a loop that is still running when the epochs end. *)
Fixpoint start (nodeConfig : config.NodeConfig) (epochs : list (Epoch Σ))
    (w : World FS (list label.Call * Σ))
  : option (option error) * World FS (list label.Call * Σ) :=
  match epochs with
  | [] => (None, w)
  | e :: epochs =>
      match loadConfig e with
      | Err err => (Some (Some (ErrorfErr "unable to load config: %v" [] err)), w)
      | Ok cfg =>
          match MarshalIndent e with
          | Some err =>
              (Some (Some (ErrorfErr "failed to marshal config to JSON: %v"
                             [] err)), w)
          | None =>
              match NewClientSets e with
              | Err err =>
                  (Some (Some (ErrorfErr "failed to create clientsets: %w"
                                 [] err)), w)
              | Ok clientSets =>
                  match label.NewOutputer nodeConfig clientSets with
                  | Err err =>
                      (Some (Some (ErrorfErr
                                     "failed to create label outputer: %w"
                                     [] err)), w)
                  | Ok labelOutputer =>
                      let d :=
                        {| config_of := cfg;
                           labelOutputer :=
                             label.NodeFeatureOutputer_Output nodeFeaturePrefix
                               NodeFeatureObjNodeNameLabel labelOutputer |} in
                      match run nodeLabelPrefix os d (clock e) (passes e) w with
                      | (None, w) => (None, w)
                      | (Some (_, Some err), w) => (Some (Some err), w)
                      | (Some (restart, None), w) =>
                          if restart then start nodeConfig epochs w
                          else (Some None, w)
                      end
                  end
              end
          end
      end
  end.

End outer_loop.

End main.

(** ** Definitions used to state the properties *)

Module spec.
Import label.

(** The loop of [labelerList.Labels], from an accumulator. *)
Fixpoint merge_from (labelers : list Labeler) (allLabels : Labels)
  : list nat * Result Labels :=
  match labelers with
  | [] => ([], Ok allLabels)
  | labeler :: rest =>
      match Labeler_call labeler with
      | (t, Err err) => (t, Err (ErrorfErr "error generating labels: %v" [] err))
      | (t, Ok labels) =>
          let '(t', r) := merge_from rest (copy_into labels allLabels) in
          (t ++ t', r)
      end
  end.

(** What the merge of sources that all succeed computes: each result laid
    over the ones before it. *)
Definition overlay (results : list Labels) (allLabels : Labels) : Labels :=
  foldl (fun acc labels => labels ∪ acc) allLabels results.

(** The number of bytes of [s] equal to [c]. *)
Fixpoint count_byte (c : ascii) (s : string) : nat :=
  match s with
  | EmptyString => 0
  | String c' s' => (if Ascii.eqb c' c then 1 else 0) + count_byte c s'
  end.

(** The major, minor and revision labels of the driver version, read from
    what the version source returns. *)
Definition driver_labels (nodeLabelPrefix : string) (r : Result Labeler)
  : option (string * string * string) :=
  match r with
  | Ok (Labels_labeler labels) =>
      major ← labels !! (nodeLabelPrefix +:+ "/ix.driver-version.major");
      minor ← labels !! (nodeLabelPrefix +:+ "/ix.driver-version.minor");
      revision ← labels !! (nodeLabelPrefix +:+ "/ix.driver-version.revision");
      Some (major, minor, revision)
  | _ => None
  end.

(** The devices of a cycle all answer their two reads: [readings] is the
    list of the names and memories they report, in order. *)
Definition devices_read (devices : list resource.Device)
    (readings : list (string * Z)) : Prop :=
  Forall2 (fun d r => resource.GetName d = Ok r.1
                      /\ resource.GetTotalMemoryMB d = Ok r.2)
    devices readings.

(** The number of devices that report [name]. *)
Fixpoint occurrences (name : string) (readings : list (string * Z)) : Z :=
  match readings with
  | [] => 0
  | r :: rest =>
      ((if bool_decide (r.1 = name) then 1 else 0) + occurrences name rest)%Z
  end.

(** The memory of the last device that reports [name]. *)
Fixpoint last_memory (name : string) (readings : list (string * Z)) : option Z :=
  match readings with
  | [] => None
  | r :: rest =>
      match last_memory name rest with
      | Some memory => Some memory
      | None => if bool_decide (r.1 = name) then Some r.2 else None
      end
  end.

(** The sum of the counts of a list of groups. *)
Definition sum_counts (groups : list (string * Z)) : Z :=
  foldr (fun g acc => (g.2 + acc)%Z) 0%Z groups.

(** A label set holds the three labels of the group of [name]. *)
Definition emits_group (nodeLabelPrefix : string) (labels : Labels)
    (name : string) (count memory : Z) : Prop :=
  labels !! (nodeLabelPrefix +:+ "/gpu.product") = Some name /\
  labels !! (nodeLabelPrefix +:+ "/gpu.count") = Some (Itoa count) /\
  labels !! (nodeLabelPrefix +:+ "/gpu.memory") = Some (Itoa memory).

(** White space removed at the start and at the end of a string of ASCII
    bytes. *)
Fixpoint trim_left_spaces (s : string) : string :=
  match s with
  | EmptyString => EmptyString
  | String c s' => if asciiSpace c then trim_left_spaces s' else s
  end.

Fixpoint trim_right_spaces (s : string) : string :=
  match s with
  | EmptyString => EmptyString
  | String c s' =>
      match trim_right_spaces s' with
      | EmptyString => if asciiSpace c then EmptyString else String c EmptyString
      | r => String c r
      end
  end.

Definition trim_spaces (s : string) : string :=
  trim_right_spaces (trim_left_spaces s).

(** Replace each maximal run of white space by one hyphen. *)
Fixpoint hyphenate_runs (s : string) : string :=
  match s with
  | EmptyString => EmptyString
  | String c s' =>
      if asciiSpace c then
        match s' with
        | EmptyString => "-"
        | String c' _ =>
            if asciiSpace c' then hyphenate_runs s'
            else String "-" (hyphenate_runs s')
        end
      else String c (hyphenate_runs s')
  end.

(** Sanitization in the words of the specification: strip the characters
    outside the class, then replace each run of white space by a hyphen. *)
Definition sanitise_as_stated (input : string) : string :=
  hyphenate_runs (RemoveOutside sanitise_class input).

(** Sanitization as amended: the white space at both ends is dropped before
    the runs are replaced. *)
Definition sanitise_as_amended (input : string) : string :=
  hyphenate_runs (trim_spaces (RemoveOutside sanitise_class input)).

(** A string of white space only. *)
Fixpoint all_spaces (s : string) : bool :=
  match s with
  | EmptyString => true
  | String c s' => asciiSpace c && all_spaces s'
  end.

(** The passes of a script all build and publish their labels: the state
    after the last of them, or the first failure. *)
Fixpoint publish_all {FS Σ : Type} (nodeLabelPrefix : string) (os : main.OS FS)
    (d : main.ixfd Σ) (timestampLabeler : Labeler) (passes : list main.Poll)
    (w : main.World FS Σ) : Result unit * main.World FS Σ :=
  match passes with
  | [] => (Ok tt, w)
  | p :: rest =>
      match main.publish nodeLabelPrefix os d timestampLabeler p w with
      | (Err err, w) => (Err err, w)
      | (Ok _, w) => publish_all nodeLabelPrefix os d timestampLabeler rest w
      end
  end.

(** On an operating system that records the paths handed to [os.Remove],
    a removal was attempted between two states. *)
Definition removal_attempted (before after : list string) : Prop :=
  exists path, after = before ++ [path].

End spec.


(** ** Definitions used to state further properties *)

Module props.
Import label.

(** Every byte of a string satisfies a test. *)
Fixpoint all_bytes (P : ascii -> bool) (s : string) : bool :=
  match s with
  | EmptyString => true
  | String c s' => P c && all_bytes P s'
  end.

(** The bytes a sanitised machine type is made of: those of the character
    class of [sanitise], the space apart. *)
Definition label_byte (c : ascii) : bool :=
  sanitise_class c && negb (asciiSpace c).

(** The object a call hands to the cluster, when it writes one, and the
    namespace a call is issued in. *)
Definition written (c : Call) : option NodeFeature :=
  match c with
  | GetCall _ _ => None
  | CreateCall _ obj => Some obj
  | UpdateCall _ obj => Some obj
  end.

Definition call_namespace (c : Call) : string :=
  match c with
  | GetCall namespace _ => namespace
  | CreateCall namespace _ => namespace
  | UpdateCall namespace _ => namespace
  end.

(** An object carries the label set and names the node. *)
Definition publishes (NodeFeatureObjNodeNameLabel nodename : string)
    (labels : Labels) (obj : NodeFeature) : Prop :=
  SpecLabels (Spec obj) = labels /\
  SpecFeatures (Spec obj) = NewFeatures /\
  ObjectLabels (Meta obj) = {[ NodeFeatureObjNodeNameLabel := nodename ]}.

(** The idle waits of a script end by timeout up to a pass in which the
    signal [s] arrives. *)
Definition ends_with_signal (script : list main.Poll) (s : main.Signal) : Prop :=
  exists pre p post,
    script = pre ++ p :: post /\
    Forall (fun q => main.idle q = main.rerunTimeout) pre /\
    main.idle p = main.received s.

(** The names, after the prefix, of the labels the device labeler can
    emit. *)
Definition device_label_names : list string :=
  [ "/gpu.machine";
    "/ix.driver-version.full"; "/ix.driver-version.major";
    "/ix.driver-version.minor"; "/ix.driver-version.revision";
    "/cuda.runtime-version.full"; "/cuda.runtime-version.major";
    "/cuda.runtime-version.minor";
    "/gpu.product"; "/gpu.count"; "/gpu.memory" ].

(** The reads of the version source all answer, and the driver version has
    two or three components: one or two full stops. *)
Definition version_reads (manager : resource.Manager) : Prop :=
  exists (v : string) (cudaMajor cudaMinor : Z),
    resource.GetIXDriverVersion manager = Ok v /\
    1 <= spec.count_byte "." v <= 2 /\
    resource.GetCudaRuntimeVersion manager = Ok (cudaMajor, cudaMinor).

(** A read of the version source does not answer, or the driver version
    has not two or three components; [e] is the error the version source
    makes of it. *)
Definition version_read_failure (manager : resource.Manager) (e : error) : Prop :=
  (exists err,
     resource.GetIXDriverVersion manager = Err err /\
     e = ErrorfErr "error getting ix driver version: %v" [] err) \/
  (exists v,
     resource.GetIXDriverVersion manager = Ok v /\
     ~ (1 <= spec.count_byte "." v <= 2) /\
     e = Errorf ("error getting driver version: Version " +:+ dquote +:+ "%s"
                 +:+ dquote +:+ " does not match format " +:+ dquote
                 +:+ "X.Y[.Z]" +:+ dquote) [v]) \/
  (exists v err,
     resource.GetIXDriverVersion manager = Ok v /\
     1 <= spec.count_byte "." v <= 2 /\
     resource.GetCudaRuntimeVersion manager = Err err /\
     e = ErrorfErr "error getting cuda driver version: %v" [] err).

(** Some device does not answer one of its two reads, every device before
    it in the list answering both; [e] is the error the aggregator makes
    of the first read that fails, the name being read before the memory. *)
Definition first_read_failure (devices : list resource.Device) (e : error)
  : Prop :=
  exists pre d post readings,
    devices = pre ++ d :: post /\
    spec.devices_read pre readings /\
    ((exists err,
        resource.GetName d = Err err /\
        e = ErrorfErr "error getting device name: %v" [] err) \/
     (exists name err,
        resource.GetName d = Ok name /\
        resource.GetTotalMemoryMB d = Err err /\
        e = ErrorfErr "error getting device memory: %v" [] err)).

End props.
(** ** Concrete inputs used in the examples *)

Module examples.
Import label.

Definition prefix : string := "iluvatar.com".

Definition static_source : Labeler :=
  Labels_labeler (<[ "a" := "1" ]> (<[ "b" := "2" ]> ∅)).
Definition overriding_source : Labeler :=
  foreign_labeler 1 (Ok (<[ "b" := "3" ]> (<[ "c" := "4" ]> ∅))).
Definition failing_source : Labeler :=
  foreign_labeler 2 (Err (ErrNew "device lost")).
Definition later_failing_source : Labeler :=
  foreign_labeler 3 (Err (ErrNew "never reported")).

Definition raw_device (name : string) : ixml.Device :=
  {| ixml.GetName := (name, ixml.SUCCESS);
     ixml.GetMemoryInfo_Total := (32768%Z, ixml.SUCCESS) |}.

Definition device (name : string) (memory : Z) : resource.Device :=
  {| resource.GetName := Ok name; resource.GetTotalMemoryMB := Ok memory |}.

(** A manager with the given devices and driver version, and runtime
    version 10.2. *)
Definition manager_of (devices : list resource.Device) (driver : string)
  : resource.Manager :=
  {| resource.Init := None; resource.Shutdown := None;
     resource.GetDevices := Ok devices;
     resource.GetIXDriverVersion := Ok driver;
     resource.GetCudaRuntimeVersion := Ok (10, 2)%Z |}.

(** The same, with a runtime version read that fails. *)
Definition manager_without_runtime (devices : list resource.Device)
    (driver : string) : resource.Manager :=
  {| resource.Init := None; resource.Shutdown := None;
     resource.GetDevices := Ok devices;
     resource.GetIXDriverVersion := Ok driver;
     resource.GetCudaRuntimeVersion := Err (ErrNew "runtime not loaded") |}.

(** Two traversal orders of a map: the one of [map_to_list] and its
    reverse. *)
Definition forward_order : MapOrder Z :=
  {| range_of := map_to_list;
     range_perm := fun m => reflexivity (map_to_list m) |}.
Definition backward_order : MapOrder Z :=
  {| range_of := fun m => reverse (map_to_list m);
     range_perm := fun m => reverse_Permutation (map_to_list m) |}.

(** A node with one BI-V150 of 32768 MB and one MR-V100 of 16384 MB. *)
Definition mixed_devices : list resource.Device :=
  [device "BI-V150" 32768; device "MR-V100" 16384].

Definition feature_prefix : string := "ix-features-for".
Definition node_name_label : string := "nfd.node.kubernetes.io/node-name".

Definition node : config.NodeConfig :=
  {| config.Name := "node-1"; config.Namespace := "node-feature-discovery" |}.

(** An outputer on the in-memory cluster, for the node above. *)
Definition store_outputer : NodeFeatureOutputer Store :=
  {| nodeConfig := node; nfdClientSet := store_client |}.

Definition one_gpu : Labels := {[ "iluvatar.com/gpu.count" := "1" ]}.
Definition two_gpus : Labels := {[ "iluvatar.com/gpu.count" := "2" ]}.

(** An operating system that only records the paths [os.Remove] is called
    with. *)
Definition recording_os : main.OS (list string) :=
  {| main.ReadFile := fun _ _ => Err (ErrNew "no such file or directory");
     main.Abs := fun _ path => Ok path;
     main.Remove := fun path removed => (None, removed ++ [path]) |}.

Definition config_with_output (path : string) : config.Config :=
  {| config.Flags_of :=
       {| config.NoTimestamp := false; config.SleepInterval := 60;
          config.OutputFile := path; config.MachineTypeFile := "" |} |}.

(** A daemon whose outputer accepts every label set and keeps the last. *)
Definition daemon (path : string) : main.ixfd Labels :=
  {| main.config_of := config_with_output path;
     main.labelOutputer := fun labels _ => (None, labels) |}.

(** One pass on a node without devices, ended by the given event. *)
Definition pass (event : main.Idle) : main.Poll :=
  {| main.manager := manager_of [] "3.5";
     main.names_order := forward_order; main.labels_order := forward_order;
     main.idle := event |}.

(** A world on the map file system in which the output file exists. *)
Definition world_with_output : main.World main.Files Labels :=
  {| main.fs := {[ "/out" := "iluvatar.com/gpu.count=1" ]};
     main.sink := ∅; main.log := [] |}.

Definition fresh_world : main.World (list string) Labels :=
  {| main.fs := []; main.sink := ∅; main.log := [] |}.

End examples.


(** ** Further concrete inputs *)

Module samples.
Import label examples.

(** A vendor library with two devices, driver version 4.2.0 and the
    runtime version string 10020. *)
Definition library : ixml.Library :=
  {| ixml.Init := ixml.SUCCESS; ixml.Shutdown := ixml.SUCCESS;
     ixml.DeviceGetCount := (2, ixml.SUCCESS);
     ixml.DeviceGetHandleByIndex := fun idx =>
       (raw_device (if Nat.eqb idx 0 then "Iluvatar BI-V150"
                    else "Iluvatar MR-V100"), ixml.SUCCESS);
     ixml.SystemGetDriverVersion := ("4.2.0", ixml.SUCCESS);
     ixml.SystemGetCudaDriverVersion := ("10020", ixml.SUCCESS) |}.

(** A node with two BI-V150 of 32768 MB. *)
Definition twin_devices : list resource.Device :=
  [device "BI-V150" 32768; device "BI-V150" 32768].

(** A device whose name cannot be read. *)
Definition lost_device : resource.Device :=
  {| resource.GetName := Err (ErrNew "device lost");
     resource.GetTotalMemoryMB := Ok 0%Z |}.

(** The seven labels of driver version 4.2.0 and runtime version 10.2. *)
Definition version_labels : Labels :=
  <[ "iluvatar.com/ix.driver-version.full" := "4.2.0" ]>
  (<[ "iluvatar.com/ix.driver-version.major" := "4" ]>
  (<[ "iluvatar.com/ix.driver-version.minor" := "2" ]>
  (<[ "iluvatar.com/ix.driver-version.revision" := "0" ]>
  (<[ "iluvatar.com/cuda.runtime-version.full" := "10.2" ]>
  (<[ "iluvatar.com/cuda.runtime-version.major" := "10" ]>
  (<[ "iluvatar.com/cuda.runtime-version.minor" := "2" ]> ∅)))))).


(** One turn of the outer loop on the in-memory cluster, on a node without
    devices: one pass, ended by the given event. *)
Definition epoch (event : main.Idle) : main.Epoch Store :=
  {| main.loadConfig := Ok (config_with_output "/out");
     main.MarshalIndent := None;
     main.NewClientSets := Ok store_client;
     main.clock := 1700000000%Z;
     main.passes := [pass event] |}.

(** A world on the map file system and the in-memory cluster, in which
    the output file exists and no call has been issued. *)
Definition first_world : main.World main.Files (list Call * Store) :=
  {| main.fs := {[ "/out" := "iluvatar.com/gpu.count=1" ]};
     main.sink := ([], ∅); main.log := [] |}.

(** One pass in which the manager does not initialise. *)
Definition failing_pass : main.Poll :=
  {| main.manager :=
       {| resource.Init := Some (ErrNew "driver not loaded");
          resource.Shutdown := None;
          resource.GetDevices := Ok [];
          resource.GetIXDriverVersion := Ok "4.2.0";
          resource.GetCudaRuntimeVersion := Ok (10, 2)%Z |};
     main.names_order := forward_order; main.labels_order := forward_order;
     main.idle := main.rerunTimeout |}.

End samples.
(** * Properties *)

Example Itoa_examples :
  Itoa 0 = "0" /\ Itoa 32768 = "32768" /\ Itoa (-7) = "-7".
Proof. repeat split; reflexivity. Qed.

Example Split_examples :
  Split "3.5.2" "." = ["3"; "5"; "2"] /\ Split "" "." = [""] /\
  Split "a..b." "." = ["a"; ""; "b"; ""].
Proof. repeat split; reflexivity. Qed.

Example Fields_examples :
  Fields "My Test   Machine" = ["My"; "Test"; "Machine"] /\
  Fields "  a b " = ["a"; "b"] /\ Fields "   " = [].
Proof. repeat split; reflexivity. Qed.

Example TrimSpace_examples :
  TrimSpace "  a b  " = "a b" /\ TrimSpace "   " = "" /\ TrimSpace "x" = "x"
  /\ TrimSpace (bytes [194; 160; 32] +:+ "R740" +:+ bytes [10; 226; 128; 168])
     = "R740"
  /\ TrimSpace (bytes [160] +:+ "R740") = bytes [160] +:+ "R740".
Proof. repeat split; vm_compute; reflexivity. Qed.

(** ** Strings *)

Section strings.
Import spec.

Lemma append_nil (t : string) : "" +:+ t = t.
Proof. reflexivity. Qed.

Lemma append_cons c (s t : string) : String c s +:+ t = String c (s +:+ t).
Proof. reflexivity. Qed.

Lemma append_inj_l (p a b : string) : p +:+ a = p +:+ b -> a = b.
Proof.
  induction p as [|c p IH]; [done|].
  rewrite !append_cons. intros [=]. auto.
Qed.

Lemma append_empty_r (s : string) : s +:+ "" = s.
Proof. induction s as [|c s IH]; [done|]. by rewrite append_cons, IH. Qed.

Lemma Split_length s sep : length (Split s sep) = S (count_byte sep s).
Proof.
  induction s as [|c s IH]; simpl; [done|].
  destruct (Ascii.eqb c sep); simpl; [by rewrite IH|].
  destruct (Split s sep) as [|x xs] eqn:E; simpl in *; [done|lia].
Qed.

Lemma Split_no_sep s sep : count_byte sep s = 0 -> Split s sep = [s].
Proof.
  induction s as [|c s IH]; simpl; [done|].
  destruct (Ascii.eqb c sep); simpl; [done|].
  intros H. by rewrite IH.
Qed.

Lemma Split_first s sep rest :
  count_byte sep s = 0 ->
  Split (s +:+ String sep rest) sep = s :: Split rest sep.
Proof.
  induction s as [|c s IH]; [rewrite append_nil|rewrite append_cons]; simpl.
  - intros _. by rewrite Ascii.eqb_refl.
  - destruct (Ascii.eqb c sep); simpl; [done|].
    intros H. by rewrite IH.
Qed.

(** *** Fields, joined by hyphens, against trimming and hyphenating *)

Lemma Fields_cons_space c s : asciiSpace c = true -> Fields (String c s) = Fields s.
Proof. intros H. simpl. by rewrite H. Qed.

Lemma Fields_cons_word c s :
  asciiSpace c = false ->
  Fields (String c s) =
  match s with
  | EmptyString => [String c EmptyString]
  | String c' _ =>
      if asciiSpace c' then String c EmptyString :: Fields s
      else match Fields s with
           | [] => [String c EmptyString]
           | x :: xs => String c x :: xs
           end
  end.
Proof. intros H. simpl. by rewrite H. Qed.

Lemma Fields_word_not_nil c s : asciiSpace c = false -> Fields (String c s) <> [].
Proof.
  intros H. rewrite Fields_cons_word by done.
  destruct s as [|c' s]; [done|].
  destruct (asciiSpace c'); [done|]. by destruct (Fields (String c' s)).
Qed.

Lemma Join_cons_char c x xs sep :
  Join (String c x :: xs) sep = String c (Join (x :: xs) sep).
Proof. simpl. destruct xs; [done|]. by rewrite append_cons. Qed.

Lemma trim_right_cons_word c s :
  asciiSpace c = false -> trim_right_spaces (String c s) = String c (trim_right_spaces s).
Proof. intros H. simpl. rewrite H. by destruct (trim_right_spaces s). Qed.

Lemma trim_right_cons_space c s :
  asciiSpace c = true ->
  trim_right_spaces (String c s) =
  match trim_right_spaces s with
  | EmptyString => EmptyString
  | r => String c r
  end.
Proof. intros H. simpl. by rewrite H. Qed.

Lemma trim_right_head s c r :
  trim_right_spaces s = String c r -> exists s', s = String c s'.
Proof.
  destruct s as [|c' s]; simpl; [done|].
  destruct (trim_right_spaces s); [destruct (asciiSpace c')|];
    intros [=]; subst; by eexists.
Qed.

Lemma trim_nil_Fields s : trim_right_spaces s = "" -> Fields s = [].
Proof.
  induction s as [|c s IH]; [done|].
  destruct (asciiSpace c) eqn:Hc.
  - rewrite Fields_cons_space, trim_right_cons_space by done.
    destruct (trim_right_spaces s); [auto|done].
  - by rewrite trim_right_cons_word.
Qed.

Lemma hyphenate_trim_word c s :
  asciiSpace c = false ->
  hyphenate_runs (trim_right_spaces (String c s))
  = String c (hyphenate_runs (trim_right_spaces s)).
Proof. intros H. rewrite trim_right_cons_word by done. simpl. by rewrite H. Qed.

Lemma hyphenate_trim_space c s :
  asciiSpace c = true ->
  hyphenate_runs (trim_right_spaces (String c s)) =
  match trim_right_spaces s with
  | EmptyString => EmptyString
  | String c' _ =>
      if asciiSpace c' then hyphenate_runs (trim_right_spaces s)
      else String "-" (hyphenate_runs (trim_right_spaces s))
  end.
Proof.
  intros H. rewrite trim_right_cons_space by done.
  destruct (trim_right_spaces s) as [|c' r]; [done|].
  cbn [hyphenate_runs]. by rewrite H.
Qed.

Lemma Join_Fields_word s :
  (forall c, asciiSpace c = false ->
     Join (Fields (String c s)) "-"
     = String c (hyphenate_runs (trim_right_spaces s))) /\
  (forall c s', s = String c s' -> asciiSpace c = false ->
     Join (Fields s) "-" = hyphenate_runs (trim_right_spaces s)).
Proof.
  induction s as [|c' s [IH1 IH2]].
  - split; [by intros c Hc; simpl; rewrite Hc|done].
  - assert (Hword : asciiSpace c' = false ->
              Join (Fields (String c' s)) "-"
              = hyphenate_runs (trim_right_spaces (String c' s))).
    { intros Hc'. by rewrite hyphenate_trim_word, IH1. }
    split; [|by intros ? ? [= <- <-]].
    intros c Hc. rewrite Fields_cons_word by done.
    destruct (asciiSpace c') eqn:Hc'.
    + rewrite Fields_cons_space, hyphenate_trim_space by done.
      destruct (trim_right_spaces s) as [|c'' r] eqn:Hr.
      * by rewrite (trim_nil_Fields s Hr).
      * destruct (trim_right_head _ _ _ Hr) as [s'' ->].
        destruct (asciiSpace c'') eqn:Hc''.
        -- rewrite <- IH1 by done.
           rewrite (Fields_cons_word c) by done. by rewrite Hc''.
        -- rewrite <- (IH2 c'' s'') by done.
           pose proof (Fields_word_not_nil c'' s'' Hc'') as Hne.
           destruct (Fields (String c'' s'')) as [|x xs]; [done|].
           cbn [Join]. by rewrite append_cons, append_nil, append_cons, append_nil.
    + rewrite <- Hword by done.
      pose proof (Fields_word_not_nil c' s Hc') as Hne.
      destruct (Fields (String c' s)) as [|x xs]; [done|].
      apply Join_cons_char.
Qed.

Lemma Join_Fields_trim s :
  Join (Fields s) "-" = hyphenate_runs (trim_spaces s).
Proof.
  unfold trim_spaces. induction s as [|c s IH]; [done|].
  destruct (asciiSpace c) eqn:Hc.
  - rewrite Fields_cons_space by done. simpl. by rewrite Hc.
  - cbn [trim_left_spaces]. rewrite Hc.
    by rewrite (proj2 (Join_Fields_word (String c s)) c s).
Qed.

(** *** Trimming before sanitising changes nothing *)

Lemma Fields_all_spaces w : all_spaces w = true -> Fields w = [].
Proof.
  induction w as [|c w IH]; simpl; [done|].
  intros [Hc Hw]%andb_prop. rewrite Hc. auto.
Qed.

Lemma Fields_app_spaces a w :
  all_spaces w = true -> Fields (a +:+ w) = Fields a.
Proof.
  intros Hw. induction a as [|c a IH].
  - rewrite append_nil. by apply Fields_all_spaces.
  - rewrite append_cons. destruct (asciiSpace c) eqn:Hc.
    + by rewrite !Fields_cons_space.
    + rewrite !Fields_cons_word by done. rewrite IH.
      destruct a as [|c' a].
      * rewrite append_nil. destruct w as [|c' w]; [done|].
        simpl in Hw. apply andb_prop in Hw as [Hc' Hw]. by rewrite Hc'.
      * by rewrite append_cons.
Qed.

Lemma RemoveOutside_app keep a b :
  RemoveOutside keep (a +:+ b) = RemoveOutside keep a +:+ RemoveOutside keep b.
Proof.
  induction a as [|c a IH]; [done|].
  rewrite append_cons. simpl. destruct (keep c); [|done].
  by rewrite append_cons, IH.
Qed.

Lemma Fields_spaces_app w a :
  all_spaces w = true -> Fields (w +:+ a) = Fields a.
Proof.
  induction w as [|c w IH]; [done|].
  cbn [all_spaces]. intros [Hc Hw]%andb_prop.
  rewrite append_cons, Fields_cons_space by done. auto.
Qed.

Lemma strip_prefix_Some e s r : strip_prefix e s = Some r -> s = e +:+ r.
Proof.
  revert s. induction e as [|c e IH]; intros s; simpl.
  - by intros [= ->].
  - destruct s as [|c' s]; [done|].
    destruct (Ascii.eqb_spec c c') as [->|]; [|done].
    intros ->%IH. by rewrite append_cons.
Qed.

Lemma strip_suffix_Some e s r : strip_suffix e s = Some r -> s = r +:+ e.
Proof.
  revert r. induction s as [|c s IH]; intros r; cbn [strip_suffix].
  - destruct (String.eqb_spec "" e) as [<-|]; [by intros [= <-]|done].
  - destruct (String.eqb_spec (String c s) e) as [<-|]; [by intros [= <-]|].
    destruct (strip_suffix e s) as [r'|]; [|done].
    cbn [fmap option_fmap option_map]. intros [= <-].
    by rewrite append_cons, <- IH.
Qed.

Lemma whiteSpace_stripped :
  Forall (fun e => all_spaces (RemoveOutside label.sanitise_class e) = true)
    whiteSpace.
Proof. unfold whiteSpace. simpl. repeat constructor. Qed.

Lemma skip_space_Some (strip : string -> string -> option string) s r :
  list_find is_Some ((fun e => strip e s) <$> whiteSpace) ≫= snd = Some r ->
  exists e,
    all_spaces (RemoveOutside label.sanitise_class e) = true /\
    strip e s = Some r.
Proof.
  destruct (list_find _ _) as [[i o]|] eqn:Hfind; [|done].
  simpl. intros ->. apply list_find_Some in Hfind as (Hi & _ & _).
  rewrite list_lookup_fmap in Hi.
  destruct (whiteSpace !! i) as [e|] eqn:He; [|done].
  simpl in Hi. injection Hi as Hi. exists e. split; [|done].
  pose proof whiteSpace_stripped as H. rewrite Forall_forall in H.
  apply H. by eapply list_elem_of_lookup_2.
Qed.

Lemma Fields_stripped_TrimLeft n s :
  Fields (RemoveOutside label.sanitise_class (TrimLeftSpace n s))
  = Fields (RemoveOutside label.sanitise_class s).
Proof.
  revert s. induction n as [|n IH]; intros s; simpl; [done|].
  destruct (skip_first_space s) as [r|] eqn:Hskip; [|done].
  apply skip_space_Some in Hskip as (e & He & ->%strip_prefix_Some).
  by rewrite IH, RemoveOutside_app, Fields_spaces_app.
Qed.

Lemma Fields_stripped_TrimRight n s :
  Fields (RemoveOutside label.sanitise_class (TrimRightSpace n s))
  = Fields (RemoveOutside label.sanitise_class s).
Proof.
  revert s. induction n as [|n IH]; intros s; simpl; [done|].
  destruct (skip_last_space s) as [r|] eqn:Hskip; [|done].
  apply skip_space_Some in Hskip as (e & He & ->%strip_suffix_Some).
  by rewrite IH, RemoveOutside_app, Fields_app_spaces.
Qed.

Lemma sanitise_TrimSpace s : label.sanitise (TrimSpace s) = label.sanitise s.
Proof.
  unfold label.sanitise, TrimSpace.
  by rewrite Fields_stripped_TrimRight, Fields_stripped_TrimLeft.
Qed.

End strings.

(** ** The device query adapter *)

Section adapter.
Import spec.

(** C10. When the vendor library hands out a raw name, the device-name read
    returns exactly when that name contains a space, and then returns its
    second space-separated token; on a raw name without a space the index
    is out of range and the read panics. *)
Theorem GetName_total_iff_space (d : ixml.Device) (name : string) :
  ixml.GetName d = (name, ixml.SUCCESS) ->
  ((exists r, resource.ixmlDevice_GetName d = Returns r)
     <-> 1 <= count_byte " " name) /\
  (forall first second rest,
     name = first +:+ " " +:+ second +:+ rest ->
     count_byte " " first = 0 -> count_byte " " second = 0 ->
     (rest = "" \/ exists rest', rest = " " +:+ rest') ->
     resource.ixmlDevice_GetName d = Returns (Ok second)) /\
  (count_byte " " name = 0 ->
   Split name " " = [name] /\
   resource.ixmlDevice_GetName d = PanicIndexOutOfRange 1 1).
Proof.
  intros Hd. unfold resource.ixmlDevice_GetName. rewrite Hd. simpl.
  split; [|split].
  - pose proof (Split_length name " ") as Hlen.
    destruct (Split name " ") as [|a [|b l]] eqn:E; simpl in *.
    + lia.
    + split; [by intros [? ?]|lia].
    + split; [lia|by eexists].
  - intros first second rest -> Hfirst Hsecond Hrest.
    change (first +:+ " " +:+ second +:+ rest)
      with (first +:+ String " " (second +:+ rest)).
    rewrite Split_first by done. simpl.
    destruct Hrest as [->|[rest' ->]].
    + rewrite append_empty_r. by rewrite Split_no_sep.
    + change (second +:+ " " +:+ rest') with (second +:+ String " " rest').
      by rewrite Split_first.
  - intros H. rewrite Split_no_sep by done. done.
Qed.

End adapter.

(** ** The compositor *)

Section compositor.
Import label spec.

Lemma Labeler_call_list labelers :
  Labeler_call (labelerList labelers) = merge_from labelers ∅.
Proof. reflexivity. Qed.

Lemma copy_into_union (labels allLabels : Labels) :
  copy_into labels allLabels = labels ∪ allLabels.
Proof.
  unfold copy_into.
  apply (map_fold_weak_ind (fun r (m : Labels) => r = m ∪ allLabels)).
  - by rewrite (left_id_L ∅ (∪)).
  - intros k v m r _ ->. by rewrite insert_union_l.
Qed.

Lemma merge_from_ok sources results allLabels :
  Forall2 (fun s m => Labeler_Labels s = Ok m) sources results ->
  (merge_from sources allLabels).2 = Ok (overlay results allLabels).
Proof.
  intros H. revert allLabels.
  induction H as [|s m sources results Hs _ IH]; intros allLabels; [done|].
  unfold Labeler_Labels in Hs. simpl.
  destruct (Labeler_call s) as [t r]. simpl in Hs. subst r.
  specialize (IH (copy_into m allLabels)).
  destruct (merge_from sources (copy_into m allLabels)) as [t' r'].
  simpl in *. by rewrite IH, copy_into_union.
Qed.

Lemma overlay_app results1 results2 allLabels :
  overlay (results1 ++ results2) allLabels
  = overlay results2 (overlay results1 allLabels).
Proof. apply foldl_app. Qed.

Lemma overlay_absent results allLabels (k : string) :
  Forall (fun m : Labels => m !! k = None) results ->
  overlay results allLabels !! k = allLabels !! k.
Proof.
  intros H. revert allLabels.
  induction H as [|m results Hm _ IH]; intros allLabels; [done|].
  simpl. rewrite IH. by rewrite lookup_union_r.
Qed.

Lemma overlay_origin results allLabels (k v : string) :
  overlay results allLabels !! k = Some v ->
  (exists m, m ∈ results /\ m !! k = Some v) \/ allLabels !! k = Some v.
Proof.
  revert allLabels.
  induction results as [|m results IH]; intros allLabels; [by right|].
  simpl. intros [(m' & ? & ?)|H]%IH.
  - left. exists m'. split; [by apply elem_of_cons; right|done].
  - apply lookup_union_Some_raw in H as [H|[_ H]].
    + left. exists m. split; [by apply elem_of_cons; left|done].
    + by right.
Qed.

Lemma overlay_last_wins results1 m results2 allLabels (k v : string) :
  m !! k = Some v ->
  Forall (fun m' : Labels => m' !! k = None) results2 ->
  overlay (results1 ++ m :: results2) allLabels !! k = Some v.
Proof.
  intros Hm H. rewrite overlay_app. simpl.
  rewrite overlay_absent by done. by apply lookup_union_Some_l.
Qed.

Lemma merge_from_fail pre s e post allLabels :
  Forall (fun l => exists m, Labeler_Labels l = Ok m) pre ->
  Labeler_Labels s = Err e ->
  merge_from (pre ++ s :: post) allLabels
  = (concat (Labeler_invoked <$> pre) ++ Labeler_invoked s,
     Err (ErrorfErr "error generating labels: %v" [] e)).
Proof.
  intros Hpre Hs. revert allLabels.
  induction Hpre as [|l pre [m Hl] _ IH]; intros allLabels; simpl.
  - unfold Labeler_Labels, Labeler_invoked in *.
    destruct (Labeler_call s) as [t r]. simpl in *. by subst r.
  - unfold Labeler_Labels, Labeler_invoked in Hl |- *.
    destruct (Labeler_call l) as [t r]. simpl in *. subst r.
    rewrite IH. by rewrite (assoc_L (++)).
Qed.

Lemma first_failure sources :
  Exists (fun s => exists e, Labeler_Labels s = Err e) sources ->
  exists pre s e post,
    sources = pre ++ s :: post /\
    Forall (fun l => exists m, Labeler_Labels l = Ok m) pre /\
    Labeler_Labels s = Err e.
Proof.
  induction sources as [|l sources IH]; intros H; [by inversion H|].
  destruct (Labeler_Labels l) as [m|e] eqn:Hl.
  - inversion H as [? ? [e He]|? ? Hrest]; subst; [congruence|].
    destruct (IH Hrest) as (pre & s & e & post & -> & Hpre & Hs).
    exists (l :: pre), s, e, post. repeat split; [|done].
    constructor; [by exists m|done].
  - exists [], l, e, sources. by repeat split.
Qed.

(** C2. For sources that all succeed, the merge succeeds; when the key sets
    of the results are pairwise disjoint the merged set is exactly the
    union of all their entries; and of the sources that hold a given key,
    the one latest in the list decides its value, whatever the values. *)
Theorem merge_union_later_wins (sources : list Labeler) (results : list Labels) :
  Forall2 (fun s m => Labeler_Labels s = Ok m) sources results ->
  exists merged : Labels,
    Labeler_Labels (Merge sources) = Ok merged /\
    ((forall i j mi mj, i <> j -> results !! i = Some mi ->
        results !! j = Some mj -> mi ##ₘ mj) ->
     forall k v, merged !! k = Some v <->
                 exists m, m ∈ results /\ m !! k = Some v) /\
    (forall i j mi mj k vi vj, i < j ->
       results !! i = Some mi -> results !! j = Some mj ->
       mi !! k = Some vi -> mj !! k = Some vj ->
       (forall j' mj', j < j' -> results !! j' = Some mj' -> mj' !! k = None) ->
       merged !! k = Some vj).
Proof.
  intros Hok. exists (overlay results ∅). split; [|split].
  - unfold Labeler_Labels, Merge. rewrite Labeler_call_list.
    by apply merge_from_ok.
  - intros Hdisj k v. split.
    + intros [H|H]%overlay_origin; [done|by rewrite lookup_empty in H].
    + intros (m & [j Hj]%list_elem_of_lookup & Hk).
      rewrite <- (take_drop_middle results j m Hj).
      apply overlay_last_wins; [done|].
      apply Forall_forall. intros m' [n Hn]%list_elem_of_lookup.
      rewrite lookup_drop in Hn.
      eapply map_disjoint_Some_l; [|exact Hk].
      apply (Hdisj j (S j + n)); [lia|done|done].
  - intros i j mi mj k vi vj _ _ Hj _ Hk Hlater.
    rewrite <- (take_drop_middle results j mj Hj).
    apply overlay_last_wins; [done|].
    apply Forall_forall. intros m' [n Hn]%list_elem_of_lookup.
    rewrite lookup_drop in Hn. apply (Hlater (S j + n)); [lia|done].
Qed.

(** C3. When some source of the list fails, the merge returns a failure and
    no label set: the failure wraps the error of the first failing source,
    and no source after that one is invoked. *)
Theorem merge_failure_short_circuits (sources : list Labeler) :
  Exists (fun s => exists e, Labeler_Labels s = Err e) sources ->
  exists pre s e post,
    sources = pre ++ s :: post /\
    Forall (fun l => exists m, Labeler_Labels l = Ok m) pre /\
    Labeler_Labels s = Err e /\
    Labeler_Labels (Merge sources)
      = Err (ErrorfErr "error generating labels: %v" [] e) /\
    Labeler_invoked (Merge sources)
      = concat (Labeler_invoked <$> pre) ++ Labeler_invoked s /\
    (forall m, Labeler_Labels (Merge sources) <> Ok m).
Proof.
  intros (pre & s & e & post & -> & Hpre & Hs)%first_failure.
  exists pre, s, e, post.
  assert (Hcall := merge_from_fail pre s e post ∅ Hpre Hs).
  unfold Labeler_Labels at 3 4, Labeler_invoked at 1, Merge.
  rewrite Labeler_call_list, Hcall. simpl. by repeat split.
Qed.

End compositor.

(** ** Label sources *)

Section sources.
Import label spec.

Variable nodeLabelPrefix : string.

Lemma key_ne (a b : string) :
  a <> b -> nodeLabelPrefix +:+ a <> nodeLabelPrefix +:+ b.
Proof. intros Hne H. by apply append_inj_l in H. Qed.

Lemma version_keys (a b c d e f g : string) (k : string) :
  (<[ nodeLabelPrefix +:+ "/ix.driver-version.full" := a ]>
  (<[ nodeLabelPrefix +:+ "/ix.driver-version.major" := b ]>
  (<[ nodeLabelPrefix +:+ "/ix.driver-version.minor" := c ]>
  (<[ nodeLabelPrefix +:+ "/ix.driver-version.revision" := d ]>
  (<[ nodeLabelPrefix +:+ "/cuda.runtime-version.full" := e ]>
  (<[ nodeLabelPrefix +:+ "/cuda.runtime-version.major" := f ]>
  (<[ nodeLabelPrefix +:+ "/cuda.runtime-version.minor" := g ]>
     (∅ : Labels)))))))) !! (nodeLabelPrefix +:+ k)
  = if bool_decide (k = "/ix.driver-version.full") then Some a
    else if bool_decide (k = "/ix.driver-version.major") then Some b
    else if bool_decide (k = "/ix.driver-version.minor") then Some c
    else if bool_decide (k = "/ix.driver-version.revision") then Some d
    else if bool_decide (k = "/cuda.runtime-version.full") then Some e
    else if bool_decide (k = "/cuda.runtime-version.major") then Some f
    else if bool_decide (k = "/cuda.runtime-version.minor") then Some g
    else None.
Proof.
  repeat (case_bool_decide;
          [ subst k; by rewrite lookup_insert_eq
          | rewrite lookup_insert_ne by (apply key_ne; congruence) ]).
  apply lookup_empty.
Qed.

Lemma ixmlVersionLabeler_unfold manager v :
  resource.GetIXDriverVersion manager = Ok v ->
  ixmlVersionLabeler nodeLabelPrefix manager =
  let parts := Split v "." in
  if (Nat.ltb 3 (length parts)) || (Nat.ltb (length parts) 2) then
    Err (Errorf ("error getting driver version: Version " +:+ dquote +:+ "%s"
                 +:+ dquote +:+ " does not match format " +:+ dquote
                 +:+ "X.Y[.Z]" +:+ dquote) [v])
  else
    match resource.GetCudaRuntimeVersion manager with
    | Err err => Err (ErrorfErr "error getting cuda driver version: %v" [] err)
    | Ok (cudaMajor, cudaMinor) =>
        Ok (Labels_labeler
          (<[ nodeLabelPrefix +:+ "/ix.driver-version.full" := v ]>
          (<[ nodeLabelPrefix +:+ "/ix.driver-version.major" :=
                default "" (parts !! 0%nat) ]>
          (<[ nodeLabelPrefix +:+ "/ix.driver-version.minor" :=
                default "" (parts !! 1%nat) ]>
          (<[ nodeLabelPrefix +:+ "/ix.driver-version.revision" :=
                if Nat.ltb 2 (length parts)
                then default "" (parts !! 2%nat) else "" ]>
          (<[ nodeLabelPrefix +:+ "/cuda.runtime-version.full" :=
                Itoa cudaMajor +:+ "." +:+ Itoa cudaMinor ]>
          (<[ nodeLabelPrefix +:+ "/cuda.runtime-version.major" := Itoa cudaMajor ]>
          (<[ nodeLabelPrefix +:+ "/cuda.runtime-version.minor" := Itoa cudaMinor ]>
             ∅))))))))
    end.
Proof.
  intros Hv. unfold ixmlVersionLabeler. rewrite Hv. simpl.
  destruct (_ || _); [done|].
  by destruct (resource.GetCudaRuntimeVersion manager) as [[??]|?].
Qed.

Lemma driver_labels_of_parts manager v c :
  resource.GetIXDriverVersion manager = Ok v ->
  resource.GetCudaRuntimeVersion manager = Ok c ->
  2 <= length (Split v ".") <= 3 ->
  driver_labels nodeLabelPrefix (ixmlVersionLabeler nodeLabelPrefix manager)
  = Some (default "" (Split v "." !! 0%nat), default "" (Split v "." !! 1%nat),
          default "" (Split v "." !! 2%nat)).
Proof.
  intros Hv Hc Hlen. rewrite (ixmlVersionLabeler_unfold _ v Hv). simpl.
  destruct (Nat.ltb_spec 3 (length (Split v "."))); [lia|].
  destruct (Nat.ltb_spec (length (Split v ".")) 2); [lia|].
  rewrite Hc. destruct c as [cudaMajor cudaMinor]. simpl.
  rewrite !version_keys. simpl.
  destruct (Nat.ltb_spec 2 (length (Split v "."))) as [|Hle]; [done|].
  by rewrite (lookup_ge_None_2 _ 2).
Qed.

(** C5, as amended. Once the driver version string is read, the version
    source succeeds exactly when the split on the full stop yields 2 or 3
    components and the runtime version is read too; the components are
    then the major, the minor and, when there is a third, the revision
    (empty otherwise): 3.5 gives 3, 5 and the empty revision, 3.5.2 gives
    3, 5 and 2; with fewer than 2 or more than 3 components, as for 3 and
    for 1.2.3.4, the source fails. *)
Theorem version_source_components (manager : resource.Manager) (v : string) :
  resource.GetIXDriverVersion manager = Ok v ->
  let parts := Split v "." in
  ((exists l, ixmlVersionLabeler nodeLabelPrefix manager = Ok l) <->
   ((length parts = 2 \/ length parts = 3) /\
    exists c, resource.GetCudaRuntimeVersion manager = Ok c)) /\
  (forall l, ixmlVersionLabeler nodeLabelPrefix manager = Ok l ->
     exists major minor,
       parts !! 0%nat = Some major /\ parts !! 1%nat = Some minor /\
       driver_labels nodeLabelPrefix (Ok l)
       = Some (major, minor, default "" (parts !! 2%nat))) /\
  (length parts < 2 \/ 3 < length parts ->
     exists e, ixmlVersionLabeler nodeLabelPrefix manager = Err e) /\
  (forall c, resource.GetCudaRuntimeVersion manager = Ok c ->
     (v = "3.5" ->
      driver_labels nodeLabelPrefix (ixmlVersionLabeler nodeLabelPrefix manager)
      = Some ("3", "5", "")) /\
     (v = "3.5.2" ->
      driver_labels nodeLabelPrefix (ixmlVersionLabeler nodeLabelPrefix manager)
      = Some ("3", "5", "2"))) /\
  (v = "3" \/ v = "1.2.3.4" ->
     exists e, ixmlVersionLabeler nodeLabelPrefix manager = Err e).
Proof.
  intros Hv parts.
  assert (Hfail : length parts < 2 \/ 3 < length parts ->
            exists e, ixmlVersionLabeler nodeLabelPrefix manager = Err e).
  { intros Hlen. rewrite (ixmlVersionLabeler_unfold _ v Hv). simpl.
    fold parts.
    destruct (Nat.ltb_spec 3 (length parts)); [by eexists|].
    destruct (Nat.ltb_spec (length parts) 2); [by eexists|lia]. }
  assert (Hok : forall l, ixmlVersionLabeler nodeLabelPrefix manager = Ok l ->
            2 <= length parts <= 3 /\
            exists c, resource.GetCudaRuntimeVersion manager = Ok c).
  { intros l. rewrite (ixmlVersionLabeler_unfold _ v Hv). simpl. fold parts.
    destruct (Nat.ltb_spec 3 (length parts)); [done|].
    destruct (Nat.ltb_spec (length parts) 2); [done|]. simpl.
    destruct (resource.GetCudaRuntimeVersion manager) as [c|]; [|done].
    intros _. split; [lia|by exists c]. }
  split; [|split; [|split; [|split]]].
  - split.
    + intros [l [Hlen Hc]%Hok]. split; [lia|done].
    + intros [Hlen [c Hc]].
      rewrite (ixmlVersionLabeler_unfold _ v Hv). simpl. fold parts.
      destruct (Nat.ltb_spec 3 (length parts)); [lia|].
      destruct (Nat.ltb_spec (length parts) 2); [lia|]. simpl.
      rewrite Hc. destruct c. by eexists.
  - intros l Hl. destruct (Hok l Hl) as [Hlen [c Hc]].
    pose proof (driver_labels_of_parts manager v c Hv Hc Hlen) as Hd.
    rewrite Hl in Hd. fold parts in Hd.
    destruct (lookup_lt_is_Some_2 parts 0) as [major Hmajor]; [lia|].
    destruct (lookup_lt_is_Some_2 parts 1) as [minor Hminor]; [lia|].
    exists major, minor. by rewrite Hd, Hmajor, Hminor.
  - done.
  - intros c Hc. split; intros ->.
    + by rewrite (driver_labels_of_parts manager "3.5" c Hv Hc);
        [|simpl; lia].
    + by rewrite (driver_labels_of_parts manager "3.5.2" c Hv Hc);
        [|simpl; lia].
  - intros [-> | ->]; apply Hfail; subst parts; simpl; lia.
Qed.

(** *** The machine-type source *)

(** C6, as amended. Whatever the path, the machine-type source does not
    fail and returns exactly one label, whose value is the sanitized
    content of the file when it is read, and the sentinel when the path is
    empty or the read fails (with a warning); sanitizing strips the
    characters outside the class, drops the white space at both ends and
    replaces each remaining run of white space by one hyphen. *)
Theorem machine_type_source (ReadFile : string -> Result string) (path : string) :
  (exists log value,
     newMachineTypeLabeler nodeLabelPrefix ReadFile path
     = (log, Ok (Labels_labeler {[ nodeLabelPrefix +:+ "/gpu.machine" := value ]}))
     /\ size ({[ nodeLabelPrefix +:+ "/gpu.machine" := value ]} : Labels) = 1
     /\ value = (if bool_decide (path = "") then "unknown"
                 else match ReadFile path with
                      | Ok data => sanitise data
                      | Err _ => "unknown"
                      end)
     /\ log = (if bool_decide (path = "") then []
               else match ReadFile path with
                    | Ok _ => []
                    | Err err =>
                        [WarningfErr "Error getting machine type from %v: %v"
                           [path]
                           (ErrorfErr "could not open machine type file: %v"
                              [] err)]
                    end))
  /\ (forall input, sanitise input = sanitise_as_amended input)
  /\ sanitise "My Test   Machine!!" = "My-Test-Machine".
Proof.
  split; [|split; [|reflexivity]].
  - unfold newMachineTypeLabeler, getMachineType.
    case_bool_decide.
    + eexists _, _. split; [reflexivity|]. by rewrite map_size_singleton.
    + destruct (ReadFile path) as [data|err]; simpl.
      * eexists _, _. split; [reflexivity|].
        split; [apply map_size_singleton|]. split; [|done].
        apply sanitise_TrimSpace.
      * eexists _, _. split; [reflexivity|]. by rewrite map_size_singleton.
  - intros input. unfold sanitise, sanitise_as_amended. apply Join_Fields_trim.
Qed.

(** *** The resource aggregator *)

(** C4. When the manager reports no device, the resource aggregator returns
    the empty source without error or warning, and that source yields the
    empty label set; the device labeler around it, once the manager is
    initialised, returns the empty source as well. *)
Theorem aggregator_zero_devices (names_order labels_order : MapOrder Z)
    (manager : resource.Manager) :
  resource.GetDevices manager = Ok [] ->
  (exists l,
     newIXResourceLabeler nodeLabelPrefix names_order labels_order manager
     = ([], Ok l) /\
     Labeler_call l = ([], Ok ∅)) /\
  (forall ReadFile cfg,
     resource.Init manager = None ->
     exists l,
       NewIXDeviceLabeler nodeLabelPrefix ReadFile names_order labels_order
         manager cfg = ([], Ok l) /\
       Labeler_call l = ([], Ok ∅)).
Proof.
  intros H. split.
  - exists empty_labeler. split; [|done].
    unfold newIXResourceLabeler. by rewrite H.
  - intros ReadFile cfg Hinit. exists empty_labeler. split; [|done].
    unfold NewIXDeviceLabeler. by rewrite Hinit, H.
Qed.

Lemma int_of_uint64_small (u : Z) :
  (0 <= u < 2 ^ 63)%Z -> int_of_uint64 u = u.
Proof.
  intros H. unfold int_of_uint64.
  rewrite Z.mod_small; lia.
Qed.

Lemma occurrences_nonneg name readings : (0 <= occurrences name readings)%Z.
Proof.
  induction readings as [|r readings IH]; simpl; [done|].
  case_bool_decide; lia.
Qed.

Lemma countDevices_ok devices readings counts memorys :
  devices_read devices readings ->
  exists counts' memorys',
    countDevices devices counts memorys = Ok (counts', memorys') /\
    (forall name,
       counts' !! name =
       if bool_decide (occurrences name readings = 0%Z) then counts !! name
       else Some (default 0 (counts !! name) + occurrences name readings)%Z) /\
    (forall name,
       memorys' !! name =
       match last_memory name readings with
       | Some memory => Some (Itoa (int_of_uint64 memory))
       | None => memorys !! name
       end).
Proof.
  intros H. revert counts memorys.
  induction H as [|d [rn rm] devices readings [Hn Hm] _ IH];
    intros counts memorys.
  - exists counts, memorys. by repeat split.
  - simpl in *. rewrite Hn, Hm. simpl.
    destruct (IH (<[ rn := (default 0 (counts !! rn) + 1)%Z ]> counts)
                 (<[ rn := Itoa (int_of_uint64 rm) ]> memorys))
      as (counts' & memorys' & -> & Hc & Hmem).
    exists counts', memorys'. split; [done|]. split; intros name.
    + rewrite Hc.
      pose proof (occurrences_nonneg name readings).
      destruct (decide (rn = name)) as [->|Hne].
      * rewrite (bool_decide_eq_true_2 (name = name)) by done.
        rewrite lookup_insert_eq. simpl.
        repeat case_bool_decide; try lia; f_equal; lia.
      * rewrite (bool_decide_eq_false_2 _ Hne).
        rewrite lookup_insert_ne by done.
        replace (0 + occurrences name readings)%Z
          with (occurrences name readings) by lia. done.
    + rewrite Hmem. destruct (last_memory name readings); [done|].
      case_bool_decide as Hname.
      * subst name. by rewrite lookup_insert_eq.
      * by rewrite lookup_insert_ne.
Qed.

Lemma occurrences_zero_iff name readings :
  occurrences name readings = 0%Z <-> name ∉ readings.*1.
Proof.
  induction readings as [|[n m] readings IH]; simpl.
  - split; [intros _; apply not_elem_of_nil|done].
  - pose proof (occurrences_nonneg name readings).
    rewrite not_elem_of_cons. case_bool_decide; [|rewrite <- IH]; split.
    + lia.
    + intros [? _]. congruence.
    + intros. split; [congruence|lia].
    + intros [_ ?]. lia.
Qed.

Lemma sum_counts_perm l1 l2 : l1 ≡ₚ l2 -> sum_counts l1 = sum_counts l2.
Proof.
  unfold sum_counts.
  induction 1 as [|x l1 l2 _ IH|x y l|l1 l2 l3 _ IH1 _ IH2]; simpl; lia.
Qed.

Lemma sum_counts_increment (counts : gmap string Z) name :
  sum_counts (map_to_list (<[ name := (default 0 (counts !! name) + 1)%Z ]> counts))
  = (sum_counts (map_to_list counts) + 1)%Z.
Proof.
  destruct (counts !! name) as [c|] eqn:Hc; simpl.
  - rewrite <- (insert_delete_eq counts name).
    rewrite (sum_counts_perm _ _ (map_to_list_insert _ name (c + 1)%Z
               (lookup_delete_eq counts name))).
    rewrite <- (insert_delete_id counts name c Hc) at 2.
    rewrite (sum_counts_perm _ _ (map_to_list_insert _ name c
               (lookup_delete_eq counts name))).
    simpl. lia.
  - rewrite (sum_counts_perm _ _ (map_to_list_insert _ name (0 + 1)%Z Hc)).
    simpl. lia.
Qed.

Lemma countDevices_sum devices counts memorys counts' memorys' :
  countDevices devices counts memorys = Ok (counts', memorys') ->
  sum_counts (map_to_list counts')
  = (sum_counts (map_to_list counts) + Z.of_nat (length devices))%Z.
Proof.
  revert counts memorys.
  induction devices as [|d devices IH]; intros counts memorys; simpl.
  - intros [= -> ->]. lia.
  - destruct (resource.GetName d) as [name|]; [|done].
    destruct (resource.GetTotalMemoryMB d) as [memory|]; [|done]. simpl.
    intros H%IH. rewrite H, sum_counts_increment. lia.
Qed.

Lemma resourceLabels_lookup memorys name count (k : string) :
  resourceLabels nodeLabelPrefix memorys name count !! (nodeLabelPrefix +:+ k)
  = if bool_decide (k = "/gpu.product") then Some name
    else if bool_decide (k = "/gpu.count") then Some (Itoa count)
    else if bool_decide (k = "/gpu.memory")
         then Some (default "" (memorys !! name))
    else None.
Proof.
  unfold resourceLabels.
  repeat (case_bool_decide;
          [ subst k; by rewrite lookup_insert_eq
          | rewrite lookup_insert_ne by (apply key_ne; congruence) ]).
  apply lookup_empty.
Qed.

Lemma resourceLabels_dom memorys name count :
  dom (resourceLabels nodeLabelPrefix memorys name count)
  = ({[ nodeLabelPrefix +:+ "/gpu.product"; nodeLabelPrefix +:+ "/gpu.count";
        nodeLabelPrefix +:+ "/gpu.memory" ]} : gset string).
Proof.
  unfold resourceLabels. rewrite !dom_insert_L, dom_empty_L.
  by rewrite (right_id_L ∅ (∪)), (assoc_L (∪)).
Qed.

Lemma resourceLabels_size memorys name count :
  size (resourceLabels nodeLabelPrefix memorys name count) = 3.
Proof.
  unfold resourceLabels.
  rewrite !map_size_insert_None, map_size_empty; [done|..].
  - apply lookup_empty.
  - rewrite lookup_insert_ne by (by apply key_ne). apply lookup_empty.
  - rewrite !lookup_insert_ne by (by apply key_ne). apply lookup_empty.
Qed.

Lemma overlay_same_dom (results : list Labels) (m : Labels) :
  Forall (fun m' => dom m' = dom m) results ->
  overlay (results ++ [m]) ∅ = m.
Proof.
  intros H. rewrite overlay_app. simpl. apply map_eq. intros k.
  destruct (m !! k) as [v|] eqn:Hk.
  - by apply lookup_union_Some_l.
  - apply lookup_union_None_2; [done|].
    destruct (overlay results ∅ !! k) as [v|] eqn:Hv; [|done].
    apply overlay_origin in Hv as [(m' & Hin & Hm')|Hv];
      [|by rewrite lookup_empty in Hv].
    rewrite Forall_forall in H. specialize (H m' Hin).
    apply not_elem_of_dom in Hk. rewrite <- H in Hk.
    apply not_elem_of_dom in Hk. congruence.
Qed.

Lemma resourceLabelers_Labels (l : list (string * Z)) memorys name count :
  Labeler_Labels (labelerList
    ((fun '(name, count) =>
        Labels_labeler (resourceLabels nodeLabelPrefix memorys name count))
       <$> (l ++ [(name, count)])))
  = Ok (resourceLabels nodeLabelPrefix memorys name count).
Proof.
  unfold Labeler_Labels. rewrite Labeler_call_list.
  rewrite (merge_from_ok _
    ((fun '(name, count) => resourceLabels nodeLabelPrefix memorys name count)
       <$> (l ++ [(name, count)]))).
  - rewrite fmap_app. simpl. rewrite overlay_same_dom; [done|].
    apply Forall_fmap, Forall_forall. intros [n c] _. simpl.
    by rewrite !resourceLabels_dom.
  - apply Forall2_fmap, Forall_Forall2_diag, Forall_forall.
    by intros [n c] _.
Qed.

Lemma counts_of_readings devices readings counts memorys :
  devices_read devices readings ->
  countDevices devices ∅ ∅ = Ok (counts, memorys) ->
  (forall name, counts !! name =
     if bool_decide (occurrences name readings = 0%Z) then None
     else Some (occurrences name readings)) /\
  (forall name, memorys !! name =
     (fun memory => Itoa (int_of_uint64 memory)) <$> last_memory name readings) /\
  dom counts = list_to_set readings.*1.
Proof.
  intros Hread Hcount.
  destruct (countDevices_ok devices readings ∅ ∅ Hread)
    as (counts' & memorys' & Hcount' & Hc & Hm).
  rewrite Hcount in Hcount'. injection Hcount' as <- <-.
  assert (Hc' : forall name, counts !! name =
            if bool_decide (occurrences name readings = 0%Z) then None
            else Some (occurrences name readings)).
  { intros name. rewrite Hc, lookup_empty. simpl.
    by case_bool_decide. }
  split; [done|]. split.
  - intros name. rewrite Hm, lookup_empty.
    by destruct (last_memory name readings).
  - apply set_eq. intros name.
    rewrite elem_of_dom, elem_of_list_to_set, Hc'.
    case_bool_decide as Hocc.
    + apply occurrences_zero_iff in Hocc. split; [by intros [? ?]|done].
    + split; [|by eexists]. intros _.
      destruct (decide (name ∈ readings.*1)) as [|Hnot]; [done|].
      by apply occurrences_zero_iff in Hnot.
Qed.

Lemma last_memory_is_Some name readings :
  name ∈ readings.*1 -> is_Some (last_memory name readings).
Proof.
  induction readings as [|[n m] readings IH]; simpl.
  - by intros ?%not_elem_of_nil.
  - intros [->|Hin]%elem_of_cons.
    + destruct (last_memory n readings); [by eexists|].
      rewrite bool_decide_eq_true_2 by done. by eexists.
    + destruct (IH Hin) as [memory ->]. by eexists.
Qed.

(** C1, as amended. On a node whose devices, all read without error, report
    two or more distinct product names, the aggregator counts the devices
    per name, the per-name counts summing to the number of devices, builds
    for every distinct name one group of exactly three labels (product =
    the name, count = its device count in decimal, memory = the memory of
    the last device of that name, converted to [int], in decimal), writes
    one warning and succeeds; every group uses the same three keys, so the
    label set returned holds exactly the three labels of the group that
    the traversal of the map visits last. *)
Theorem aggregator_groups_share_keys (names_order labels_order : MapOrder Z)
    (manager : resource.Manager) (devices : list resource.Device)
    (readings : list (string * Z)) :
  resource.GetDevices manager = Ok devices ->
  devices_read devices readings ->
  2 <= size (list_to_set readings.*1 : gset string) ->
  exists counts memorys,
    countDevices devices ∅ ∅ = Ok (counts, memorys) /\
    NoDup (labels_order counts).*1 /\
    (forall name, name ∈ (labels_order counts).*1 <-> name ∈ readings.*1) /\
    (forall name count, (name, count) ∈ labels_order counts ->
       count = occurrences name readings /\
       exists memory,
         last_memory name readings = Some memory /\
         size (resourceLabels nodeLabelPrefix memorys name count) = 3 /\
         emits_group nodeLabelPrefix
           (resourceLabels nodeLabelPrefix memorys name count)
           name count (int_of_uint64 memory) /\
         ((0 <= memory < 2 ^ 63)%Z -> int_of_uint64 memory = memory)) /\
    sum_counts (labels_order counts) = Z.of_nat (length devices) /\
    exists name count,
      last (labels_order counts) = Some (name, count) /\
      newIXResourceLabeler nodeLabelPrefix names_order labels_order manager
      = ([Warningf "Multiple device types detected: %v" (names_order counts).*1],
         Ok (Merge [Labels_labeler
                      (resourceLabels nodeLabelPrefix memorys name count)])) /\
      Labeler_Labels
        (Merge [Labels_labeler (resourceLabels nodeLabelPrefix memorys name count)])
      = Ok (resourceLabels nodeLabelPrefix memorys name count).
Proof.
  intros Hdev Hread Hsize.
  destruct (countDevices_ok devices readings ∅ ∅ Hread)
    as (counts & memorys & Hcount & _).
  destruct (counts_of_readings _ _ _ _ Hread Hcount) as (Hc & Hm & Hdom).
  exists counts, memorys.
  pose proof (range_perm labels_order counts) as Hperm.
  assert (Hin : forall name count,
            (name, count) ∈ labels_order counts <-> counts !! name = Some count).
  { intros. rewrite Hperm. apply elem_of_map_to_list. }
  split; [done|]. split; [|split; [|split; [|split]]].
  - rewrite Hperm. apply NoDup_fst_map_to_list.
  - intros name.
    assert (name ∈ readings.*1 <-> is_Some (counts !! name)) as ->.
    { rewrite <- elem_of_dom, Hdom. by rewrite elem_of_list_to_set. }
    rewrite list_elem_of_fmap. split.
    + intros ([n c] & -> & Hnc). simpl. apply Hin in Hnc. by eexists.
    + intros [c Hnc]. exists (name, c). split; [done|]. by apply Hin.
  - intros name count Hnc%Hin. rewrite Hc in Hnc.
    case_bool_decide as Hocc; [done|]. injection Hnc as <-.
    split; [done|].
    assert (Hname : name ∈ readings.*1).
    { destruct (decide (name ∈ readings.*1)) as [|Hnot]; [done|].
      by apply occurrences_zero_iff in Hnot. }
    destruct (last_memory_is_Some _ _ Hname) as [memory Hmem].
    exists memory. split; [done|]. split; [apply resourceLabels_size|].
    split; [|apply int_of_uint64_small].
    unfold emits_group. rewrite !resourceLabels_lookup. simpl.
    by rewrite Hm, Hmem.
  - rewrite (sum_counts_perm _ _ Hperm).
    rewrite (countDevices_sum _ _ _ _ _ Hcount).
    by rewrite map_to_list_empty.
  - assert (Hsz : 2 <= size counts).
    { by rewrite <- size_dom, Hdom. }
    assert (Hlen : length (labels_order counts) = size counts).
    { rewrite Hperm. apply length_map_to_list. }
    destruct (labels_order counts) as [|g groups _] eqn:Hgroups using rev_ind;
      [simpl in Hlen; lia|].
    destruct g as [name count]. exists name, count.
    split; [apply last_snoc|]. split.
    + unfold newIXResourceLabeler. rewrite Hdev. simpl.
      destruct devices as [|d devices];
        [apply Forall2_nil_inv_l in Hread as ->;
         rewrite fmap_nil, list_to_set_nil, size_empty in Hsize; lia|].
      change (Nat.eqb (length (d :: devices)) 0) with false. cbv iota.
      rewrite Hcount. simpl.
      destruct (Nat.ltb_spec 1 (size counts)); [|lia]. simpl.
      unfold resourceLabelers. rewrite Hgroups.
      by rewrite resourceLabelers_Labels.
    + apply (resourceLabelers_Labels [] memorys name count).
Qed.

End sources.

(** ** The publication sink *)

Section sink.
Import label spec.

Variable nodeFeaturePrefix : string.
Variable NodeFeatureObjNodeNameLabel : string.
Context {Σ : Type}.

Local Abbreviation Output :=
  (NodeFeatureOutputer_Output nodeFeaturePrefix NodeFeatureObjNodeNameLabel).

Lemma NewOutputer_inv nodeConfig (client : NodeFeatureInterface Σ) n :
  NewOutputer nodeConfig client = Ok n ->
  n = {| label.nodeConfig := nodeConfig; nfdClientSet := client |}
  /\ config.Name nodeConfig <> "" /\ config.Namespace nodeConfig <> "".
Proof.
  unfold NewOutputer. repeat case_bool_decide; [done..|].
  by intros [= <-].
Qed.

Lemma updatedNodeFeature_differs nfr nodename (labels : Labels) k v v' :
  SpecLabels (Spec nfr) !! k = Some v -> labels !! k = Some v' -> v <> v' ->
  nfr <> updatedNodeFeature NodeFeatureObjNodeNameLabel nfr nodename labels.
Proof.
  intros Hv Hv' Hne Heq. rewrite Heq in Hv. simpl in Hv. congruence.
Qed.

(** C7. For an outputer built by [NewOutputer]: when the lookup answers
    not-found, one create call carrying the label set is issued and no
    update; when it answers a stored object, an update call is issued
    exactly when the recomputed object differs from the stored one, which
    is the case whenever one label value differs; and when the cluster
    hands back the labels and spec it was given at creation, publishing the
    same label set twice issues one create call and no update call. *)
Theorem output_create_or_update (nodeConfig : config.NodeConfig)
    (client : NodeFeatureInterface Σ) (n : NodeFeatureOutputer Σ)
    (labels : Labels) (calls : list Call) (σ : Σ) :
  NewOutputer nodeConfig client = Ok n ->
  let nodename := config.Name nodeConfig in
  let namespace := config.Namespace nodeConfig in
  let name := Join [nodeFeaturePrefix; nodename] "-" in
  let created := newNodeFeature NodeFeatureObjNodeNameLabel name nodename labels in
  (forall err σ1,
     Get client namespace name σ = (inr err, σ1) -> IsNotFound err = true ->
     exists r,
       Output n labels (calls, σ)
       = (r, (calls ++ [GetCall namespace name; CreateCall namespace created],
              (Create client namespace created σ1).2))) /\
  (forall nfr σ1,
     Get client namespace name σ = (inl nfr, σ1) ->
     let nfrUpdated :=
       updatedNodeFeature NodeFeatureObjNodeNameLabel nfr nodename labels in
     (nfr = nfrUpdated ->
      Output n labels (calls, σ) = (None, (calls ++ [GetCall namespace name], σ1))) /\
     (nfr <> nfrUpdated ->
      exists r,
        Output n labels (calls, σ)
        = (r, (calls ++ [GetCall namespace name; UpdateCall namespace nfrUpdated],
               (Update client namespace nfrUpdated σ1).2)))) /\
  (forall nfr σ1 k v v',
     Get client namespace name σ = (inl nfr, σ1) ->
     SpecLabels (Spec nfr) !! k = Some v -> labels !! k = Some v' -> v <> v' ->
     exists r st issued,
       Output n labels (calls, σ) = (r, (calls ++ issued, st)) /\
       length (filter is_UpdateCall issued) = 1 /\
       length (filter is_CreateCall issued) = 0) /\
  (forall err σ1 obj σ2 stored σ3,
     Get client namespace name σ = (inr err, σ1) -> IsNotFound err = true ->
     Create client namespace created σ1 = (inl obj, σ2) ->
     Get client namespace name σ2 = (inl stored, σ3) ->
     ObjectLabels (Meta stored) = ObjectLabels (Meta created) ->
     Spec stored = Spec created ->
     exists first second,
       Output n labels (calls, σ) = (None, (calls ++ first, σ2)) /\
       Output n labels (calls ++ first, σ2)
       = (None, ((calls ++ first) ++ second, σ3)) /\
       length (filter is_CreateCall (first ++ second)) = 1 /\
       length (filter is_UpdateCall (first ++ second)) = 0).
Proof.
  intros (-> & Hname & _)%NewOutputer_inv nodename namespace name created.
  subst nodename namespace name created.
  assert (Habsent : forall calls σ err σ1,
    Get client (config.Namespace nodeConfig)
      (Join [nodeFeaturePrefix; config.Name nodeConfig] "-") σ = (inr err, σ1) ->
    IsNotFound err = true ->
    Output {| label.nodeConfig := nodeConfig; nfdClientSet := client |} labels
      (calls, σ)
    = (match (Create client (config.Namespace nodeConfig)
                (newNodeFeature NodeFeatureObjNodeNameLabel
                   (Join [nodeFeaturePrefix; config.Name nodeConfig] "-")
                   (config.Name nodeConfig) labels) σ1).1 with
       | inr err =>
           Some (ErrorfErr "failed to create NodeFeature object %q: %w"
                   [Join [nodeFeaturePrefix; config.Name nodeConfig] "-"]
                   (StatusError_error err))
       | inl _ => None
       end,
       (calls ++ [GetCall (config.Namespace nodeConfig)
                    (Join [nodeFeaturePrefix; config.Name nodeConfig] "-");
                  CreateCall (config.Namespace nodeConfig)
                    (newNodeFeature NodeFeatureObjNodeNameLabel
                       (Join [nodeFeaturePrefix; config.Name nodeConfig] "-")
                       (config.Name nodeConfig) labels)],
        (Create client (config.Namespace nodeConfig)
           (newNodeFeature NodeFeatureObjNodeNameLabel
              (Join [nodeFeaturePrefix; config.Name nodeConfig] "-")
              (config.Name nodeConfig) labels) σ1).2))).
  { intros calls0 σ0 err σ1 Hget Hnf.
    unfold NodeFeatureOutputer_Output. cbn [label.nodeConfig nfdClientSet].
    rewrite (bool_decide_eq_false_2 _ Hname), Hget, Hnf.
    rewrite <- (assoc_L (++)). simpl.
    by destruct (Create client _ _ σ1) as [[?|?] ?]. }
  assert (Hpresent : forall calls σ nfr σ1,
    Get client (config.Namespace nodeConfig)
      (Join [nodeFeaturePrefix; config.Name nodeConfig] "-") σ = (inl nfr, σ1) ->
    Output {| label.nodeConfig := nodeConfig; nfdClientSet := client |} labels
      (calls, σ)
    = if bool_decide (nfr = updatedNodeFeature NodeFeatureObjNodeNameLabel nfr
                              (config.Name nodeConfig) labels)
      then (None, (calls ++ [GetCall (config.Namespace nodeConfig)
                     (Join [nodeFeaturePrefix; config.Name nodeConfig] "-")], σ1))
      else
        (match (Update client (config.Namespace nodeConfig)
                  (updatedNodeFeature NodeFeatureObjNodeNameLabel nfr
                     (config.Name nodeConfig) labels) σ1).1 with
         | inr err =>
             Some (ErrorfErr "failed to update NodeFeature object %q: %w"
                     [Name (Meta nfr)] (StatusError_error err))
         | inl _ => None
         end,
         (calls ++ [GetCall (config.Namespace nodeConfig)
                      (Join [nodeFeaturePrefix; config.Name nodeConfig] "-");
                    UpdateCall (config.Namespace nodeConfig)
                      (updatedNodeFeature NodeFeatureObjNodeNameLabel nfr
                         (config.Name nodeConfig) labels)],
          (Update client (config.Namespace nodeConfig)
             (updatedNodeFeature NodeFeatureObjNodeNameLabel nfr
                (config.Name nodeConfig) labels) σ1).2))).
  { intros calls0 σ0 nfr σ1 Hget.
    unfold NodeFeatureOutputer_Output. cbn [label.nodeConfig nfdClientSet].
    rewrite (bool_decide_eq_false_2 _ Hname), Hget.
    unfold Semantic_DeepEqual. case_bool_decide; simpl; [done|].
    rewrite <- (assoc_L (++)). simpl.
    by destruct (Update client _ _ σ1) as [[?|?] ?]. }
  split; [|split; [|split]].
  - intros err σ1 Hget Hnf. rewrite (Habsent _ _ _ _ Hget Hnf). by eexists.
  - intros nfr σ1 Hget. rewrite (Hpresent _ _ _ _ Hget). split; intros H.
    + by rewrite bool_decide_eq_true_2.
    + rewrite bool_decide_eq_false_2 by done. by eexists.
  - intros nfr σ1 k v v' Hget Hv Hv' Hne.
    rewrite (Hpresent _ _ _ _ Hget).
    rewrite bool_decide_eq_false_2
      by (by eapply updatedNodeFeature_differs).
    eexists _, _, [_; _]. split; [reflexivity|]. split; reflexivity.
  - intros err σ1 obj σ2 stored σ3 Hget Hnf Hcreate Hget' Hlabels Hspec.
    eexists [_; _], [_].
    split; [|split].
    + rewrite (Habsent _ _ _ _ Hget Hnf), Hcreate. reflexivity.
    + rewrite (Hpresent _ _ _ _ Hget').
      rewrite bool_decide_eq_true_2; [reflexivity|].
      destruct stored as [[? ? ? ? ?] ?]. simpl in *.
      unfold updatedNodeFeature. simpl. by rewrite Hlabels, Hspec.
    + split; reflexivity.
Qed.

End sink.

(** ** The refresh loop *)

Section loop.
Import label spec main.

Variable nodeLabelPrefix : string.
Context {FS Σ : Type}.
Variable os : OS FS.

Local Abbreviation publish := (@main.publish nodeLabelPrefix FS Σ os).
Local Abbreviation run_from_rerun :=
  (@main.run_from_rerun nodeLabelPrefix FS Σ os).
Local Abbreviation run := (@main.run nodeLabelPrefix FS Σ os).
Local Abbreviation publish_all := (@spec.publish_all FS Σ nodeLabelPrefix os).

(** C9. In a pass in which the manager, once initialised, reports no
    device, the whole device labeler is the empty source: no machine-type
    label, no version label, no resource label.  The label set composed and
    handed to the outputer is the timestamp label alone, or is empty when
    the timestamp is disabled, and the warning for an almost empty label
    set is written. *)
Theorem zero_devices_only_timestamp (d : ixfd Σ) (now : Z) (p : Poll)
    (w : World FS Σ) :
  resource.Init (manager p) = None ->
  resource.GetDevices (manager p) = Ok [] ->
  let cfg := config_of d in
  let timestampLabeler := NewTimestampLabeler nodeLabelPrefix cfg now in
  let labels : Labels :=
    if config.NoTimestamp (config.Flags_of cfg) then ∅
    else {[ nodeLabelPrefix +:+ "/ix.timestamp" := Itoa now ]} in
  NewIXDeviceLabeler nodeLabelPrefix (ReadFile os (fs w))
    (names_order p) (labels_order p) (manager p) cfg = ([], Ok empty_labeler) /\
  NewLabelers nodeLabelPrefix (ReadFile os (fs w))
    (names_order p) (labels_order p) (manager p) cfg = ([], Ok empty_labeler) /\
  Labeler_Labels (Merge [timestampLabeler; empty_labeler]) = Ok labels /\
  size labels <= 1 /\
  (forall k, k <> nodeLabelPrefix +:+ "/ix.timestamp" -> labels !! k = None) /\
  publish d timestampLabeler p w
  = (match (labelOutputer d labels (sink w)).1 with
     | Some err => Err err
     | None => Ok tt
     end,
     {| fs := fs w; sink := (labelOutputer d labels (sink w)).2;
        log := log w ++ [Warning "No labels generated from any source"] |}).
Proof.
  intros Hinit Hdev cfg timestampLabeler labels.
  assert (Hdevice : NewIXDeviceLabeler nodeLabelPrefix (ReadFile os (fs w))
            (names_order p) (labels_order p) (manager p) cfg
          = ([], Ok empty_labeler)).
  { unfold NewIXDeviceLabeler. by rewrite Hinit, Hdev. }
  assert (Hloop : NewLabelers nodeLabelPrefix (ReadFile os (fs w))
            (names_order p) (labels_order p) (manager p) cfg
          = ([], Ok empty_labeler)).
  { unfold NewLabelers. by rewrite Hdevice. }
  assert (Hlabels : Labeler_Labels (Merge [timestampLabeler; empty_labeler])
                    = Ok labels).
  { subst timestampLabeler labels. unfold NewTimestampLabeler.
    unfold Labeler_Labels, Merge. rewrite Labeler_call_list.
    destruct (config.NoTimestamp (config.Flags_of cfg)); simpl.
    - by rewrite !copy_into_union, !(left_id_L ∅ (∪)).
    - by rewrite !copy_into_union, (left_id_L ∅ (∪)), (right_id_L ∅ (∪)). }
  assert (Hsize : size labels <= 1).
  { subst labels. destruct (config.NoTimestamp (config.Flags_of cfg)).
    - rewrite map_size_empty. lia.
    - by rewrite map_size_singleton. }
  split; [done|]. split; [done|]. split; [done|]. split; [done|]. split.
  - intros k Hk. subst labels.
    destruct (config.NoTimestamp (config.Flags_of cfg)).
    + apply lookup_empty.
    + by apply lookup_singleton_ne.
  - unfold main.publish. fold cfg. rewrite Hloop. fold timestampLabeler.
    rewrite Hlabels.
    destruct (Nat.leb_spec (size labels) 1) as [_|]; [|lia].
    unfold write_log. simpl. rewrite (right_id_L [] (++)).
    by destruct (labelOutputer d labels (sink w)) as [[err|] σ].
Qed.


Lemma run_deferred_spec (d : ixfd Σ) (w : World FS Σ) :
  let path := config.OutputFile (config.Flags_of (config_of d)) in
  sink (run_deferred os d w) = sink w /\
  (path = "" -> run_deferred os d w = w) /\
  (path <> "" ->
     fs (run_deferred os d w) = (removeOutputFile os path (fs w)).2 /\
     log (run_deferred os d w)
     = log w ++ match (removeOutputFile os path (fs w)).1 with
                | Some err => [WarningfErr "Error removing output file: %v" [] err]
                | None => []
                end).
Proof.
  unfold run_deferred. simpl. case_bool_decide as Hpath.
  - by repeat split.
  - destruct (removeOutputFile os _ (fs w)) as [[err|] files]; simpl;
      repeat split; try done. by rewrite (right_id_L [] (++)).
Qed.



End loop.

(** ** The properties at concrete inputs *)

Section instances.
Import label spec examples.

Lemma merge_union_later_wins_witness :
  Forall2 (fun s m => Labeler_Labels s = Ok m)
    [static_source; overriding_source]
    [<[ "a" := "1" ]> (<[ "b" := "2" ]> ∅); <[ "b" := "3" ]> (<[ "c" := "4" ]> ∅)]
  /\ exists merged : Labels,
       Labeler_Labels (Merge [static_source; overriding_source]) = Ok merged
       /\ merged !! "b" = Some "3".
Proof.
  assert (H : Forall2 (fun s m => Labeler_Labels s = Ok m)
                [static_source; overriding_source]
                [<[ "a" := "1" ]> (<[ "b" := "2" ]> ∅);
                 <[ "b" := "3" ]> (<[ "c" := "4" ]> ∅)])
    by (repeat constructor).
  split; [exact H|].
  destruct (merge_union_later_wins _ _ H) as (merged & Hm & _ & Hlater).
  exists merged. split; [exact Hm|].
  apply (Hlater 0 1 (<[ "a" := "1" ]> (<[ "b" := "2" ]> ∅))
           (<[ "b" := "3" ]> (<[ "c" := "4" ]> ∅)) "b" "2" "3");
    [lia|reflexivity..|].
  intros [|[|j']] mj' Hj; [lia|lia|]. discriminate.
Defined.

Lemma merge_failure_short_circuits_witness :
  Exists (fun s => exists e, Labeler_Labels s = Err e)
    [static_source; failing_source; later_failing_source]
  /\ exists e, Labeler_Labels
                 (Merge [static_source; failing_source; later_failing_source])
               = Err e.
Proof.
  assert (H : Exists (fun s => exists e, Labeler_Labels s = Err e)
                [static_source; failing_source; later_failing_source]).
  { apply Exists_cons_tl, Exists_cons_hd. by eexists. }
  split; [exact H|].
  destruct (merge_failure_short_circuits _ H)
    as (pre & s & e & post & _ & _ & _ & Hfail & _).
  eexists. exact Hfail.
Defined.

Lemma GetName_total_iff_space_witness :
  ixml.GetName (raw_device "Iluvatar BI-V150S") = ("Iluvatar BI-V150S", ixml.SUCCESS)
  /\ resource.ixmlDevice_GetName (raw_device "Iluvatar BI-V150S")
     = Returns (Ok "BI-V150S").
Proof.
  split; [reflexivity|].
  refine (proj1 (proj2 (GetName_total_iff_space
    (raw_device "Iluvatar BI-V150S") "Iluvatar BI-V150S" eq_refl))
    "Iluvatar" "BI-V150S" "" eq_refl eq_refl eq_refl (or_introl eq_refl)).
Defined.

Lemma version_source_components_witness :
  resource.GetIXDriverVersion (manager_of [] "3.5.2") = Ok "3.5.2"
  /\ driver_labels prefix (ixmlVersionLabeler prefix (manager_of [] "3.5.2"))
     = Some ("3", "5", "2").
Proof.
  split; [reflexivity|].
  refine (proj2 (proj1 (proj2 (proj2 (proj2 (version_source_components prefix
    (manager_of [] "3.5.2") "3.5.2" eq_refl)))) (10, 2)%Z eq_refl) eq_refl).
Defined.

(** C5, as stated, fails: the driver version 3.5 splits into 2 components,
    yet the version source fails when the runtime version cannot be read. *)
Lemma version_source_iff_counterexample :
  ~ ((exists l, ixmlVersionLabeler prefix (manager_without_runtime [] "3.5") = Ok l)
     <-> (length (Split "3.5" ".") = 2 \/ length (Split "3.5" ".") = 3)).
Proof.
  intros [_ H]. destruct H as [l Hl]; [by left|]. discriminate Hl.
Qed.

Lemma aggregator_zero_devices_witness :
  resource.GetDevices (manager_of [] "3.5") = Ok []
  /\ exists l,
       newIXResourceLabeler prefix forward_order backward_order (manager_of [] "3.5")
       = ([], Ok l) /\
       Labeler_call l = ([], Ok ∅).
Proof.
  split; [reflexivity|].
  exact (proj1 (aggregator_zero_devices prefix forward_order backward_order
                  (manager_of [] "3.5") eq_refl)).
Defined.

(** What the aggregator returns on the mixed node: the three labels of the
    BI-V150 group when the map is visited forwards, those of the MR-V100
    group when it is visited backwards. *)
Example aggregator_mixed_output :
  (newIXResourceLabeler prefix forward_order forward_order
     (manager_of mixed_devices "3.5")).2
  = Ok (Merge [Labels_labeler
                 (<[ "iluvatar.com/gpu.product" := "BI-V150" ]>
                 (<[ "iluvatar.com/gpu.count" := "1" ]>
                 (<[ "iluvatar.com/gpu.memory" := "32768" ]> ∅)))])
  /\ (newIXResourceLabeler prefix forward_order backward_order
        (manager_of mixed_devices "3.5")).2
     = Ok (Merge [Labels_labeler
                    (<[ "iluvatar.com/gpu.product" := "MR-V100" ]>
                    (<[ "iluvatar.com/gpu.count" := "1" ]>
                    (<[ "iluvatar.com/gpu.memory" := "16384" ]> ∅)))]).
Proof. split; vm_compute; reflexivity. Qed.

(** C1, as stated, fails: on the mixed node the label set returned does not
    hold the three labels of both names. *)
Lemma aggregator_heterogeneous_counterexample :
  ~ (exists log l labels,
       newIXResourceLabeler prefix forward_order forward_order
         (manager_of mixed_devices "3.5") = (log, Ok l) /\
       Labeler_Labels l = Ok labels /\
       emits_group prefix labels "BI-V150" 1 32768 /\
       emits_group prefix labels "MR-V100" 1 16384).
Proof.
  intros (log & l & labels & Hl & Hlabels & _ & Hproduct & _).
  vm_compute in Hl. injection Hl as _ <-.
  vm_compute in Hlabels. injection Hlabels as <-.
  vm_compute in Hproduct. discriminate Hproduct.
Qed.

Lemma aggregator_groups_share_keys_witness :
  (resource.GetDevices (manager_of mixed_devices "3.5") = Ok mixed_devices
   /\ devices_read mixed_devices [("BI-V150", 32768%Z); ("MR-V100", 16384%Z)]
   /\ 2 <= size (list_to_set [("BI-V150", 32768%Z); ("MR-V100", 16384%Z)].*1
                 : gset string))
  /\ exists counts memorys,
       countDevices mixed_devices ∅ ∅ = Ok (counts, memorys)
       /\ sum_counts (backward_order counts) = 2%Z.
Proof.
  assert (Hread : devices_read mixed_devices
                    [("BI-V150", 32768%Z); ("MR-V100", 16384%Z)])
    by (repeat constructor).
  assert (Hsize : 2 <= size (list_to_set
                    [("BI-V150", 32768%Z); ("MR-V100", 16384%Z)].*1
                    : gset string))
    by (vm_compute; lia).
  split; [by repeat split|].
  destruct (aggregator_groups_share_keys prefix forward_order backward_order
              (manager_of mixed_devices "3.5") mixed_devices
              [("BI-V150", 32768%Z); ("MR-V100", 16384%Z)]
              eq_refl Hread Hsize)
    as (counts & memorys & Hcount & _ & _ & _ & Hsum & _).
  exists counts, memorys. split; [exact Hcount|exact Hsum].
Defined.

(** C6, as stated, fails: a run of white space at either end of the
    stripped text is dropped, not replaced by a hyphen. *)
Lemma sanitise_edge_run_counterexample :
  sanitise "ThinkStation P620 #" = "ThinkStation-P620"
  /\ sanitise_as_stated "ThinkStation P620 #" = "ThinkStation-P620-"
  /\ sanitise "ThinkStation P620 #" <> sanitise_as_stated "ThinkStation P620 #".
Proof. repeat split; [reflexivity..|discriminate]. Qed.

(** The same at the level of the source: the label built from a file that
    holds this text. *)
Example machine_type_edge_run :
  newMachineTypeLabeler prefix (fun _ => Ok "ThinkStation P620 #")
    "/sys/class/dmi/id/product_name"
  = ([], Ok (Labels_labeler {[ "iluvatar.com/gpu.machine" := "ThinkStation-P620" ]})).
Proof. reflexivity. Qed.

Lemma output_create_or_update_witness :
  NewOutputer node store_client = Ok store_outputer
  /\ exists first second σ2 σ3,
       NodeFeatureOutputer_Output feature_prefix node_name_label
         store_outputer one_gpu ([], ∅) = (None, (first, σ2))
       /\ NodeFeatureOutputer_Output feature_prefix node_name_label
            store_outputer one_gpu (first, σ2) = (None, (first ++ second, σ3))
       /\ length (filter is_CreateCall (first ++ second)) = 1
       /\ length (filter is_UpdateCall (first ++ second)) = 0.
Proof.
  split; [reflexivity|].
  destruct (proj2 (proj2 (proj2
    (output_create_or_update feature_prefix node_name_label
       node store_client store_outputer one_gpu [] ∅ eq_refl)))
    {| IsNotFound := true; StatusMessage := "not found" |} ∅
    (in_namespace "node-feature-discovery"
       (newNodeFeature node_name_label "ix-features-for-node-1" "node-1" one_gpu))
    {[ ("node-feature-discovery", "ix-features-for-node-1") :=
         in_namespace "node-feature-discovery"
           (newNodeFeature node_name_label "ix-features-for-node-1" "node-1"
              one_gpu) ]}
    (in_namespace "node-feature-discovery"
       (newNodeFeature node_name_label "ix-features-for-node-1" "node-1" one_gpu))
    {[ ("node-feature-discovery", "ix-features-for-node-1") :=
         in_namespace "node-feature-discovery"
           (newNodeFeature node_name_label "ix-features-for-node-1" "node-1"
              one_gpu) ]})
    as (first & second & H1 & H2 & Hcreate & Hupdate);
    [vm_compute; reflexivity..|].
  exists first, second. eexists _, _.
  split; [exact H1|]. split; [exact H2|]. split; [exact Hcreate|exact Hupdate].
Defined.

(** Publishing on the in-memory cluster: the first call creates the object,
    the second one with the same labels only looks it up, and a third one
    with one label value changed updates it. *)
Example output_three_times :
  let publish := NodeFeatureOutputer_Output feature_prefix node_name_label
                   store_outputer in
  let calls_of st := (fun c => (is_CreateCall c, is_UpdateCall c)) <$> st.2.1 in
  calls_of (publish one_gpu ([], ∅)) = [(false, false); (true, false)]
  /\ calls_of (publish one_gpu ([], (publish one_gpu ([], ∅)).2.2))
     = [(false, false)]
  /\ calls_of (publish two_gpus ([], (publish one_gpu ([], ∅)).2.2))
     = [(false, false); (false, true)].
Proof. repeat split; vm_compute; reflexivity. Qed.

Lemma zero_devices_only_timestamp_witness :
  (resource.Init (main.manager (pass (main.received main.SIGTERM))) = None
   /\ resource.GetDevices (main.manager (pass (main.received main.SIGTERM)))
      = Ok [])
  /\ Labeler_Labels
       (Merge [NewTimestampLabeler prefix (config_with_output "/out") 1700000000;
               empty_labeler])
     = Ok {[ "iluvatar.com/ix.timestamp" := "1700000000" ]}.
Proof.
  split; [by split|].
  exact (proj1 (proj2 (proj2
    (zero_devices_only_timestamp prefix recording_os (daemon "/out")
       1700000000 (pass (main.received main.SIGTERM)) fresh_world
       eq_refl eq_refl)))).
Defined.


(** With an empty output path, which selects the cluster object alone as
    the destination, there is no output file and [run] returns on the
    terminate signal without any call to [os.Remove]. *)
Example run_without_output_file :
  (main.run prefix recording_os (daemon "") 1700000000
     [pass (main.received main.SIGTERM)] fresh_world).1 = Some (false, None)
  /\ ~ removal_attempted (main.fs fresh_world)
         (main.fs (main.run prefix recording_os (daemon "") 1700000000
                     [pass (main.received main.SIGTERM)] fresh_world).2).
Proof.
  split; [vm_compute; reflexivity|].
  intros [path Hpath]. vm_compute in Hpath. discriminate Hpath.
Qed.

(** With a non-empty output path the same run does call [os.Remove]. *)
Example run_removal_attempted :
  removal_attempted (main.fs fresh_world)
    (main.fs (main.run prefix recording_os (daemon "/out") 1700000000
                [pass (main.received main.SIGTERM)] fresh_world).2).
Proof. exists "/out". vm_compute. reflexivity. Qed.

(** On the map file system, a run ended by the interrupt signal removes the
    output file; a second such run finds no file, logs the failed removal
    and still returns without error. *)
Example run_removes_output_file :
  main.run prefix main.files_os (daemon "/out") 1700000000
    [pass (main.received main.SIGINT)] world_with_output
  = (Some (false, None),
     {| main.fs := ∅;
        main.sink := {[ "iluvatar.com/ix.timestamp" := "1700000000" ]};
        main.log := [Warning "No labels generated from any source"] |})
  /\ main.run prefix main.files_os (daemon "/out") 1700000000
       [pass (main.received main.SIGQUIT)]
       {| main.fs := ∅; main.sink := ∅; main.log := [] |}
     = (Some (false, None),
        {| main.fs := ∅;
           main.sink := {[ "iluvatar.com/ix.timestamp" := "1700000000" ]};
           main.log :=
             [Warning "No labels generated from any source";
              WarningfErr "Error removing output file: %v" []
                (ErrorfErr "failed to remove output file: %v" []
                   (ErrNew "no such file or directory"))] |}).
Proof. split; vm_compute; reflexivity. Qed.

End instances.

(** * Further properties of the code *)

(** ** Decimal conversions *)

Section decimal.

Example Atoi_examples :
  Atoi "10020" = Ok 10020%Z /\ Atoi "+7" = Ok 7%Z /\ Atoi "-7" = Ok (-7)%Z
  /\ Atoi "-9223372036854775808" = Ok (- 2 ^ 63)%Z
  /\ Atoi "9223372036854775808"
     = Err (NumError "9223372036854775808" "value out of range")
  /\ Atoi "" = Err (NumError "" "invalid syntax")
  /\ Atoi "-" = Err (NumError "-" "invalid syntax")
  /\ Atoi "12x" = Err (NumError "12x" "invalid syntax")
  /\ Atoi "99999999999999999999x"
     = Err (NumError "99999999999999999999x" "value out of range").
Proof. repeat split; vm_compute; reflexivity. Qed.

Lemma Atoi_unsigned c r :
  c <> "+"%char -> c <> "-"%char ->
  Atoi (String c r)
  = match NilEmpty.uint_of_string (String c r) with
    | None =>
        Err (NumError (String c r)
               (if Z.leb (2 ^ 64) (decimal_value (leading_digits (String c r)))
                then "value out of range" else "invalid syntax"))
    | Some u =>
        if Z.leb (2 ^ 63) (Z.of_uint u)
        then Err (NumError (String c r) "value out of range")
        else Ok (Z.of_uint u)
    end.
Proof.
  intros Hplus Hminus. unfold Atoi.
  destruct (Ascii.eqb_spec c "+"); [done|].
  destruct (Ascii.eqb_spec c "-"); [done|]. done.
Qed.

Lemma Atoi_negative c r :
  Atoi (String "-" (String c r))
  = match NilEmpty.uint_of_string (String c r) with
    | None =>
        Err (NumError (String "-" (String c r))
               (if Z.leb (2 ^ 64) (decimal_value (leading_digits (String c r)))
                then "value out of range" else "invalid syntax"))
    | Some u =>
        if Z.ltb (2 ^ 63) (Z.of_uint u)
        then Err (NumError (String "-" (String c r)) "value out of range")
        else Ok (- Z.of_uint u)%Z
    end.
Proof. reflexivity. Qed.

Lemma string_of_uint_cons d :
  d <> Decimal.Nil ->
  exists c r, NilEmpty.string_of_uint d = String c r
              /\ c <> "+"%char /\ c <> "-"%char.
Proof. destruct d; [done|..]; intros _; simpl; by eexists _, _. Qed.

Lemma Atoi_Itoa (z : Z) : (- 2 ^ 63 <= z < 2 ^ 63)%Z -> Atoi (Itoa z) = Ok z.
Proof.
  intros Hz. pose proof (DecimalZ.of_to z) as Hof.
  unfold Itoa.
  assert (Hnil : forall d, Z.to_int z = Decimal.Pos d \/ Z.to_int z = Decimal.Neg d ->
                           d <> Decimal.Nil).
  { intros d Hd ->. destruct z; simpl in Hd; destruct Hd as [Hd|Hd];
      try discriminate; injection Hd as Hd;
      by apply DecimalPos.Unsigned.to_uint_nonnil in Hd. }
  destruct (Z.to_int z) as [d|d] eqn:Hd; simpl in Hof.
  - specialize (Hnil d (or_introl eq_refl)).
    simpl. unfold NilZero.string_of_uint.
    replace (match d with Decimal.Nil => "0" | _ => NilEmpty.string_of_uint d end)
      with (NilEmpty.string_of_uint d) by by destruct d.
    destruct (string_of_uint_cons d Hnil) as (c & r & Hs & Hp & Hm).
    rewrite Hs, Atoi_unsigned, <- Hs, NilEmpty.usu, Hof by done.
    destruct (Z.leb_spec (2 ^ 63) z); [lia|done].
  - specialize (Hnil d (or_intror eq_refl)).
    simpl. unfold NilZero.string_of_uint.
    replace (match d with Decimal.Nil => "0" | _ => NilEmpty.string_of_uint d end)
      with (NilEmpty.string_of_uint d) by by destruct d.
    destruct (string_of_uint_cons d Hnil) as (c & r & Hs & _).
    rewrite Hs, Atoi_negative, <- Hs, NilEmpty.usu.
    destruct (Z.ltb_spec (2 ^ 63) (Z.of_uint d)); [lia|]. by rewrite Hof.
Qed.

End decimal.

(** ** The manager over the vendor library *)

Section manager.

Lemma GetDevices_from_ok lib idx n devices :
  (forall i, idx <= i < idx + n ->
     ixml.is_SUCCESS (ixml.DeviceGetHandleByIndex lib i).2 = true) ->
  resource.GetDevices_from lib idx n devices
  = Ok (devices
        ++ ((fun i => (ixml.DeviceGetHandleByIndex lib i).1) <$> seq idx n)).
Proof.
  revert idx devices. induction n as [|n IH]; intros idx devices Hok; simpl.
  - by rewrite (right_id_L [] (++)).
  - specialize (Hok idx ltac:(lia)) as Hidx.
    destruct (ixml.DeviceGetHandleByIndex lib idx) as [devRef ret] eqn:Hh.
    simpl in Hidx. rewrite Hidx. simpl.
    rewrite IH by (intros; apply Hok; lia).
    by rewrite <- (assoc_L (++)).
Qed.

Lemma GetDevices_from_fail lib idx n devices k :
  k < n ->
  (forall i, idx <= i < idx + k ->
     ixml.is_SUCCESS (ixml.DeviceGetHandleByIndex lib i).2 = true) ->
  ixml.is_SUCCESS (ixml.DeviceGetHandleByIndex lib (idx + k)).2 = false ->
  resource.GetDevices_from lib idx n devices
  = Err (Errorf "failed to get device by index %d: %v"
           [Itoa (Z.of_nat (idx + k));
            ixml.Return_text (ixml.DeviceGetHandleByIndex lib (idx + k)).2]).
Proof.
  revert idx n devices. induction k as [|k IH]; intros idx n devices Hk Hok Hfail.
  - rewrite Nat.add_0_r in *. destruct n as [|n]; [lia|]. simpl.
    destruct (ixml.DeviceGetHandleByIndex lib idx) as [devRef ret].
    simpl in *. by rewrite Hfail.
  - destruct n as [|n]; [lia|]. simpl.
    specialize (Hok idx ltac:(lia)) as Hidx.
    destruct (ixml.DeviceGetHandleByIndex lib idx) as [devRef ret] eqn:Hh.
    simpl in Hidx. rewrite Hidx. simpl.
    replace (idx + S k) with (S idx + k) in * by lia.
    apply IH; [lia| |done]. intros i Hi. apply Hok. lia.
Qed.

(** X1. Once the device count is read, [GetDevices] returns exactly the
    handles of the indices below the count, in index order, when every
    handle is obtained; otherwise it fails with the error of the lowest
    index whose handle is refused, and returns no device. *)
Theorem GetDevices_handles_in_order (lib : ixml.Library) (count : nat) :
  ixml.DeviceGetCount lib = (count, ixml.SUCCESS) ->
  (forall devices,
     resource.ixmlLib_GetDevices lib = Ok devices <->
     (forall i, i < count ->
        ixml.is_SUCCESS (ixml.DeviceGetHandleByIndex lib i).2 = true) /\
     devices = (fun i => (ixml.DeviceGetHandleByIndex lib i).1) <$> seq 0 count) /\
  (forall i,
     i < count ->
     (forall j, j < i ->
        ixml.is_SUCCESS (ixml.DeviceGetHandleByIndex lib j).2 = true) ->
     ixml.is_SUCCESS (ixml.DeviceGetHandleByIndex lib i).2 = false ->
     resource.ixmlLib_GetDevices lib
     = Err (Errorf "failed to get device by index %d: %v"
              [Itoa (Z.of_nat i);
               ixml.Return_text (ixml.DeviceGetHandleByIndex lib i).2])).
Proof.
  intros Hcount. unfold resource.ixmlLib_GetDevices. rewrite Hcount. simpl.
  assert (Hfail : forall i,
    i < count ->
    (forall j, j < i ->
       ixml.is_SUCCESS (ixml.DeviceGetHandleByIndex lib j).2 = true) ->
    ixml.is_SUCCESS (ixml.DeviceGetHandleByIndex lib i).2 = false ->
    resource.GetDevices_from lib 0 count []
    = Err (Errorf "failed to get device by index %d: %v"
             [Itoa (Z.of_nat i);
              ixml.Return_text (ixml.DeviceGetHandleByIndex lib i).2])).
  { intros i Hi Hbefore Hrefused.
    apply (GetDevices_from_fail lib 0 count [] i Hi); [|done].
    intros j Hj. apply Hbefore. lia. }
  split; [|done].
  intros devices. split.
  - intros Hres.
    assert (Hall : forall i, i < count ->
              ixml.is_SUCCESS (ixml.DeviceGetHandleByIndex lib i).2 = true).
    { intros i. induction (lt_wf i) as [i _ IHi]. intros Hi.
      destruct (ixml.is_SUCCESS (ixml.DeviceGetHandleByIndex lib i).2) eqn:Hs;
        [done|].
      rewrite (Hfail i Hi) in Hres; [done| |done].
      intros j Hj. apply IHi; [done|lia]. }
    split; [done|].
    rewrite GetDevices_from_ok in Hres by (intros; apply Hall; lia).
    by injection Hres as <-.
  - intros [Hall ->]. by rewrite GetDevices_from_ok by (intros; apply Hall; lia).
Qed.

(** X2. The runtime version is decoded as major = value / 1000 and
    minor = (value mod 1000) / 10: a vendor string that is the decimal of
    1000 * M + 10 * m with m below 100 gives back (M, m), the minor is
    always below 100, the last digit is dropped, a string that is no
    integer is a failure, and a negative integer is not refused but wraps
    around as an unsigned number. *)
Theorem GetCudaRuntimeVersion_decodes (lib : ixml.Library) (v : string) :
  ixml.SystemGetCudaDriverVersion lib = (v, ixml.SUCCESS) ->
  (forall M m : Z,
     (0 <= M)%Z -> (0 <= m < 100)%Z -> (1000 * M + 10 * m < 2 ^ 63)%Z ->
     v = Itoa (1000 * M + 10 * m) ->
     resource.ixmlLib_GetCudaRuntimeVersion lib = Ok (M, m)) /\
  (forall vi, Atoi v = Ok vi -> (0 <= vi)%Z ->
     exists major minor,
       resource.ixmlLib_GetCudaRuntimeVersion lib = Ok (major, minor) /\
       (0 <= major)%Z /\ (0 <= minor < 100)%Z /\
       (vi = 1000 * major + 10 * minor + vi mod 10)%Z) /\
  (forall vi, Atoi v = Ok vi -> (vi < 0)%Z ->
     resource.ixmlLib_GetCudaRuntimeVersion lib
     = Ok (((vi + 2 ^ 64) / 1000)%Z, ((vi + 2 ^ 64) mod 1000 / 10)%Z)) /\
  (forall err, Atoi v = Err err ->
     resource.ixmlLib_GetCudaRuntimeVersion lib
     = Err (ErrorfErr "failed to convert cuda runtime version: %v" [] err)).
Proof.
  intros Hv. unfold resource.ixmlLib_GetCudaRuntimeVersion. rewrite Hv. simpl.
  assert (Hnonneg : forall vi, Atoi v = Ok vi -> (0 <= vi)%Z ->
    (vi < 2 ^ 64)%Z ->
    (wrap "failed to convert cuda runtime version: %v" (Atoi v)
       ≫= fun vi => Ok ((uint_of_int vi / 1000)%Z,
                         (uint_of_int vi mod 1000 / 10)%Z))
    = Ok ((vi / 1000)%Z, (vi mod 1000 / 10)%Z)).
  { intros vi -> H0 H1. simpl. unfold uint_of_int.
    by rewrite Z.mod_small by lia. }
  assert (Hrange : forall vi, Atoi v = Ok vi -> (- 2 ^ 63 <= vi < 2 ^ 63)%Z).
  { intros vi. unfold Atoi.
    destruct v as [|c r]; [done|].
    destruct (Ascii.eqb c "+"), (Ascii.eqb c "-");
      repeat match goal with
        | |- context [match ?s with EmptyString => _ | String _ _ => _ end] =>
            destruct s; [done|]
        | |- context [match NilEmpty.uint_of_string ?s with _ => _ end] =>
            let Hu := fresh "Hu" in
            destruct (NilEmpty.uint_of_string s) as [u|] eqn:Hu; [|done]
        end;
      cbv zeta;
      assert (0 <= Z.of_uint u)%Z
        by (unfold Z.of_uint; apply N2Z.is_nonneg);
      repeat match goal with
        | |- context [Z.leb ?a ?b] => destruct (Z.leb_spec a b)
        | |- context [Z.ltb ?a ?b] => destruct (Z.ltb_spec a b)
        end; intros [= <-]; lia. }
  split; [|split; [|split]].
  - intros M m HM Hm Hlt ->.
    rewrite (Hnonneg (1000 * M + 10 * m)%Z); [|apply Atoi_Itoa; lia|lia|lia].
    f_equal. f_equal; Z.div_mod_to_equations; lia.
  - intros vi Hvi H0. pose proof (Hrange vi Hvi).
    rewrite (Hnonneg vi) by (done || lia).
    eexists _, _. split; [done|].
    repeat split; Z.div_mod_to_equations; lia.
  - intros vi Hvi Hneg. pose proof (Hrange vi Hvi). rewrite Hvi. simpl.
    unfold uint_of_int.
    replace (vi mod 2 ^ 64)%Z with (vi + 2 ^ 64)%Z; [done|].
    rewrite <- (Z.mod_add vi 1 (2 ^ 64)) by lia.
    rewrite Z.mod_small; lia.
  - intros err ->. done.
Qed.

End manager.

(** ** The resource aggregator, further *)

Section aggregator.
Import label spec props.

Variable nodeLabelPrefix : string.

Lemma countDevices_nonempty devices counts memorys :
  devices <> [] ->
  countDevices devices ∅ ∅ = Ok (counts, memorys) ->
  counts <> ∅.
Proof.
  intros Hne Hcount ->. apply countDevices_sum in Hcount.
  rewrite map_to_list_empty in Hcount. simpl in Hcount.
  destruct devices; [done|]. simpl in Hcount. lia.
Qed.

Lemma newIXResourceLabeler_ok (names_order labels_order : MapOrder Z)
    manager devices counts memorys :
  resource.GetDevices manager = Ok devices ->
  devices <> [] ->
  countDevices devices ∅ ∅ = Ok (counts, memorys) ->
  exists name count,
    last (labels_order counts) = Some (name, count) /\
    counts !! name = Some count /\
    newIXResourceLabeler nodeLabelPrefix names_order labels_order manager
    = ((if Nat.ltb 1 (size counts)
        then [Warningf "Multiple device types detected: %v"
                (names_order counts).*1]
        else []),
       Ok (Merge [Labels_labeler
                    (resourceLabels nodeLabelPrefix memorys name count)])).
Proof.
  intros Hdev Hne Hcount.
  pose proof (countDevices_nonempty _ _ _ Hne Hcount) as Hcounts.
  pose proof (range_perm labels_order counts) as Hperm.
  destruct (labels_order counts) as [|[name count] groups _] eqn:Hgroups
    using rev_ind.
  { symmetry in Hperm. apply Permutation_nil_r in Hperm.
    by apply map_to_list_empty_iff in Hperm. }
  exists name, count. split; [apply last_snoc|]. split.
  { apply elem_of_map_to_list. rewrite <- Hperm.
    apply elem_of_app. right. by apply list_elem_of_singleton. }
  unfold newIXResourceLabeler. rewrite Hdev. simpl.
  destruct devices as [|d devices]; [done|].
  change (Nat.eqb (length (d :: devices)) 0) with false. cbv iota.
  rewrite Hcount. simpl.
  unfold resourceLabelers. rewrite Hgroups.
  destruct (Nat.ltb 1 (size counts)); simpl;
    by rewrite resourceLabelers_Labels.
Qed.

Lemma countDevices_fail pre d post counts memorys readings :
  devices_read pre readings ->
  (exists e, resource.GetName d = Err e) \/
  (exists name e, resource.GetName d = Ok name /\
                  resource.GetTotalMemoryMB d = Err e) ->
  countDevices (pre ++ d :: post) counts memorys
  = match resource.GetName d with
    | Err e => Err (ErrorfErr "error getting device name: %v" [] e)
    | Ok _ =>
        match resource.GetTotalMemoryMB d with
        | Err e => Err (ErrorfErr "error getting device memory: %v" [] e)
        | Ok _ => Ok (counts, memorys)
        end
    end.
Proof.
  intros Hpre Hd. revert counts memorys.
  induction Hpre as [|p r pre readings [Hn Hm] _ IH]; intros counts memorys.
  - simpl. destruct Hd as [[e ->]|(name & e & -> & ->)]; done.
  - simpl. rewrite Hn, Hm. simpl. rewrite IH.
    destruct Hd as [[e ->]|(name & e & -> & ->)]; done.
Qed.

Lemma countDevices_cases devices counts memorys :
  (exists readings counted,
     devices_read devices readings /\
     countDevices devices counts memorys = Ok counted) \/
  (exists e,
     first_read_failure devices e /\
     countDevices devices counts memorys = Err e).
Proof.
  revert counts memorys.
  induction devices as [|d devices IH]; intros counts memorys.
  { left. exists [], (counts, memorys). split; [constructor|done]. }
  cbn [countDevices].
  destruct (resource.GetName d) as [name|err] eqn:Hname.
  2: { right. eexists. split; [|done].
       exists [], d, devices, []. split; [done|]. split; [constructor|].
       left. by exists err. }
  destruct (resource.GetTotalMemoryMB d) as [memory|err] eqn:Hmemory.
  2: { right. eexists. split; [|done].
       exists [], d, devices, []. split; [done|]. split; [constructor|].
       right. by exists name, err. }
  simpl.
  destruct (IH (<[name:=(default 0 (counts !! name) + 1)%Z]> counts)
               (<[name:=Itoa (int_of_uint64 memory)]> memorys))
    as [(readings & counted & Hread & ->)|(e & Hfail & ->)].
  - left. exists ((name, memory) :: readings), counted.
    split; [by constructor|done].
  - right. exists e. split; [|done].
    destruct Hfail as (pre & d' & post & readings & -> & Hpre & Hd').
    exists (d :: pre), d', post, ((name, memory) :: readings).
    split; [done|]. split; [by constructor|done].
Qed.

Lemma countDevices_Ok_iff devices counts memorys :
  (exists counted, countDevices devices counts memorys = Ok counted) <->
  (exists readings, devices_read devices readings).
Proof.
  split.
  - intros [counted Hcount].
    destruct (countDevices_cases devices counts memorys)
      as [(readings & _ & Hread & _)|(e & _ & He)]; [by exists readings|].
    congruence.
  - intros [readings Hread].
    destruct (countDevices_ok devices readings counts memorys Hread)
      as (counts' & memorys' & Hcount & _).
    by eexists.
Qed.

Lemma countDevices_Err_iff devices counts memorys e :
  countDevices devices counts memorys = Err e <-> first_read_failure devices e.
Proof.
  split.
  - intros Hcount.
    destruct (countDevices_cases devices counts memorys)
      as [(? & ? & _ & Hok)|(e' & Hfail & He')]; [congruence|].
    by replace e with e' by congruence.
  - intros (pre & d & post & readings & -> & Hpre & Hd).
    rewrite (countDevices_fail pre d post counts memorys readings Hpre).
    + by destruct Hd as [(err & -> & ->)|(name & err & -> & -> & ->)].
    + destruct Hd as [(err & Hn & _)|(name & err & Hn & Hm & _)];
        [left; by eexists|right; by eexists _, _].
Qed.

(** X3. On a node whose devices all report the same product name, the
    aggregator writes no warning and returns exactly the three labels of
    that name: the name, the number of devices, and the memory of the last
    device in the list (converted to [int]), whatever the traversal
    orders. *)
Theorem aggregator_homogeneous (names_order labels_order : MapOrder Z)
    (manager : resource.Manager) (devices : list resource.Device)
    (readings : list (string * Z)) (name : string) (memory : Z) :
  resource.GetDevices manager = Ok devices ->
  devices_read devices readings ->
  Forall (fun r => r.1 = name) readings ->
  last readings.*2 = Some memory ->
  newIXResourceLabeler nodeLabelPrefix names_order labels_order manager
  = ([], Ok (Merge [Labels_labeler
       (<[ nodeLabelPrefix +:+ "/gpu.product" := name ]>
       (<[ nodeLabelPrefix +:+ "/gpu.count" := Itoa (Z.of_nat (length devices)) ]>
       (<[ nodeLabelPrefix +:+ "/gpu.memory" := Itoa (int_of_uint64 memory) ]>
          ∅)))])).
Proof.
  intros Hdev Hread Hsame Hlast.
  assert (Hne : devices <> []).
  { intros ->. apply Forall2_nil_inv_l in Hread as ->. done. }
  destruct (countDevices_ok devices readings ∅ ∅ Hread)
    as (counts & memorys & Hcount & _).
  destruct (counts_of_readings _ _ _ _ Hread Hcount) as (Hc & Hm & Hdom).
  assert (Hocc : occurrences name readings = Z.of_nat (length readings)).
  { clear -Hsame. induction Hsame as [|r readings Hr _ IH]; simpl; [done|].
    rewrite bool_decide_eq_true_2 by done. lia. }
  assert (Hlen : length readings = length devices).
  { symmetry. by eapply Forall2_length. }
  assert (Hmem : last_memory name readings = Some memory).
  { clear -Hsame Hlast. induction Hsame as [|r readings Hr _ IH]; [done|].
    simpl. destruct readings as [|r' readings].
    - simpl in *. rewrite bool_decide_eq_true_2 by done. congruence.
    - change (last (r' :: readings).*2 = Some memory) in Hlast.
      by rewrite (IH Hlast). }
  assert (Hcounts : counts = {[ name := Z.of_nat (length devices) ]}).
  { apply map_eq. intros n. rewrite Hc.
    destruct (decide (n = name)) as [->|Hn].
    - rewrite lookup_singleton_eq, Hocc, Hlen.
      case_bool_decide; [|done]. destruct devices; [done|]. simpl in *. lia.
    - rewrite lookup_singleton_ne by done.
      rewrite bool_decide_eq_true_2; [done|].
      apply occurrences_zero_iff. intros ([n' m] & -> & Hin)%list_elem_of_fmap.
      rewrite Forall_forall in Hsame. by apply Hsame in Hin. }
  destruct (newIXResourceLabeler_ok names_order labels_order manager devices
              counts memorys Hdev Hne Hcount)
    as (n & c & _ & Hnc & ->).
  rewrite Hcounts in Hnc |- *.
  apply lookup_singleton_Some in Hnc as [<- <-].
  rewrite map_size_singleton. simpl.
  unfold resourceLabels. by rewrite Hm, Hmem.
Qed.

(** X4. The aggregator stops at the first device, in list order, one of
    whose reads fails: it returns that read's error, wrapped for the name
    or for the memory (the name is read first), writes no warning and
    returns no labels, whatever the devices after it answer. *)
Theorem aggregator_first_failure (names_order labels_order : MapOrder Z)
    (manager : resource.Manager) (pre post : list resource.Device)
    (d : resource.Device) (readings : list (string * Z)) :
  resource.GetDevices manager = Ok (pre ++ d :: post) ->
  devices_read pre readings ->
  (forall e, resource.GetName d = Err e ->
     newIXResourceLabeler nodeLabelPrefix names_order labels_order manager
     = ([], Err (ErrorfErr "error getting device name: %v" [] e))) /\
  (forall name e,
     resource.GetName d = Ok name -> resource.GetTotalMemoryMB d = Err e ->
     newIXResourceLabeler nodeLabelPrefix names_order labels_order manager
     = ([], Err (ErrorfErr "error getting device memory: %v" [] e))).
Proof.
  intros Hdev Hpre.
  assert (Hlen : Nat.eqb (length (pre ++ d :: post)) 0 = false).
  { rewrite length_app. simpl. apply Nat.eqb_neq. lia. }
  split.
  - intros e He. unfold newIXResourceLabeler. rewrite Hdev. simpl.
    rewrite Hlen.
    rewrite (countDevices_fail pre d post ∅ ∅ readings Hpre)
      by (left; by eexists).
    by rewrite He.
  - intros name e Hn He. unfold newIXResourceLabeler. rewrite Hdev. simpl.
    rewrite Hlen.
    rewrite (countDevices_fail pre d post ∅ ∅ readings Hpre)
      by (right; by eexists _, _).
    by rewrite Hn, He.
Qed.

End aggregator.

(** ** The version source and the device labeler *)

Section device_labeler.
Import label spec props.

Variable nodeLabelPrefix : string.

Lemma Split_cons s sep : exists x xs, Split s sep = x :: xs.
Proof.
  destruct s as [|c s]; simpl; [by eexists _, _|].
  destruct (Ascii.eqb c sep); [by eexists _, _|].
  destruct (Split s sep); by eexists _, _.
Qed.

Lemma Join_Split s sep : Join (Split s sep) (String sep "") = s.
Proof.
  induction s as [|c s IH]; [done|]. cbn [Split].
  destruct (Split_cons s sep) as (x & xs & Hs). rewrite Hs in IH |- *.
  destruct (Ascii.eqb_spec c sep) as [->|Hc].
  - change (Join ("" :: x :: xs) (String sep ""))
      with ("" +:+ String sep "" +:+ Join (x :: xs) (String sep "")).
    by rewrite append_nil, append_cons, append_nil, IH.
  - by rewrite Join_cons_char, IH.
Qed.

Lemma Split_no_sep_inside s sep :
  Forall (fun x => count_byte sep x = 0) (Split s sep).
Proof.
  induction s as [|c s IH]; simpl; [by repeat constructor|].
  destruct (Ascii.eqb c sep) eqn:Hc; [by constructor|].
  destruct (Split s sep) as [|x xs]; [constructor; [|done]|].
  - simpl. by rewrite Hc.
  - inversion IH; subst. constructor; [|done]. simpl. rewrite Hc. done.
Qed.

Ltac fresh_key :=
  rewrite ?lookup_insert_ne by (apply key_ne; discriminate);
  apply lookup_empty.

(** X5. When the version source succeeds it yields exactly seven labels,
    and the full driver version can be rebuilt from the component labels:
    it is major.minor with an empty revision label, or
    major.minor.revision, and no component contains a full stop; the full
    runtime version is the runtime major, a full stop and the runtime
    minor. *)
Theorem version_labels_rebuild_full (manager : resource.Manager) (v : string)
    (l : Labeler) :
  resource.GetIXDriverVersion manager = Ok v ->
  ixmlVersionLabeler nodeLabelPrefix manager = Ok l ->
  exists (labels : Labels) major minor revision cudaMajor cudaMinor,
    l = Labels_labeler labels /\
    size labels = 7 /\
    labels !! (nodeLabelPrefix +:+ "/ix.driver-version.full") = Some v /\
    labels !! (nodeLabelPrefix +:+ "/ix.driver-version.major") = Some major /\
    labels !! (nodeLabelPrefix +:+ "/ix.driver-version.minor") = Some minor /\
    labels !! (nodeLabelPrefix +:+ "/ix.driver-version.revision") = Some revision /\
    labels !! (nodeLabelPrefix +:+ "/cuda.runtime-version.major") = Some cudaMajor /\
    labels !! (nodeLabelPrefix +:+ "/cuda.runtime-version.minor") = Some cudaMinor /\
    labels !! (nodeLabelPrefix +:+ "/cuda.runtime-version.full")
      = Some (cudaMajor +:+ "." +:+ cudaMinor) /\
    count_byte "." major = 0 /\ count_byte "." minor = 0 /\
    count_byte "." revision = 0 /\
    ((revision = "" /\ v = major +:+ "." +:+ minor) \/
     v = major +:+ "." +:+ minor +:+ "." +:+ revision).
Proof.
  intros Hv. rewrite (ixmlVersionLabeler_unfold nodeLabelPrefix manager v Hv).
  cbv zeta.
  pose proof (Join_Split v ".") as Hjoin.
  pose proof (Split_no_sep_inside v ".") as Hdots.
  destruct (Nat.ltb_spec 3 (length (Split v "."))); [done|].
  destruct (Nat.ltb_spec (length (Split v ".")) 2); [done|]. simpl.
  destruct (resource.GetCudaRuntimeVersion manager) as [[cmaj cmin]|]; [|done].
  intros [= <-].
  destruct (Split v ".") as [|major [|minor [|revision [|? ?]]]];
    simpl in *; try lia.
  - eexists _, major, minor, "", (Itoa cmaj), (Itoa cmin).
    split; [done|].
    split; [rewrite !map_size_insert_None by fresh_key; by rewrite map_size_empty|].
    rewrite !version_keys. simpl.
    inversion Hdots as [|? ? ? Hrest]; subst. inversion Hrest; subst.
    repeat split; try done. by left.
  - eexists _, major, minor, revision, (Itoa cmaj), (Itoa cmin).
    split; [done|].
    split; [rewrite !map_size_insert_None by fresh_key; by rewrite map_size_empty|].
    rewrite !version_keys. simpl.
    inversion Hdots as [|? ? ? Hrest]; subst.
    inversion Hrest as [|? ? ? Hrest']; subst. inversion Hrest'; subst.
    repeat split; try done. by right.
Qed.

Lemma ixmlVersionLabeler_inv (manager : resource.Manager) (l : Labeler) :
  ixmlVersionLabeler nodeLabelPrefix manager = Ok l ->
  exists a b c d e f g,
    l = Labels_labeler
      (<[ nodeLabelPrefix +:+ "/ix.driver-version.full" := a ]>
      (<[ nodeLabelPrefix +:+ "/ix.driver-version.major" := b ]>
      (<[ nodeLabelPrefix +:+ "/ix.driver-version.minor" := c ]>
      (<[ nodeLabelPrefix +:+ "/ix.driver-version.revision" := d ]>
      (<[ nodeLabelPrefix +:+ "/cuda.runtime-version.full" := e ]>
      (<[ nodeLabelPrefix +:+ "/cuda.runtime-version.major" := f ]>
      (<[ nodeLabelPrefix +:+ "/cuda.runtime-version.minor" := g ]>
         ∅))))))).
Proof.
  unfold ixmlVersionLabeler.
  destruct (resource.GetIXDriverVersion manager) as [v|]; [|done]. simpl.
  destruct (_ || _); [done|].
  destruct (resource.GetCudaRuntimeVersion manager) as [[cmaj cmin]|]; [|done].
  simpl. intros [= <-]. by eexists _, _, _, _, _, _, _.
Qed.

Lemma newIXResourceLabeler_err (names_order labels_order : MapOrder Z)
    manager devices e :
  resource.GetDevices manager = Ok devices ->
  devices <> [] ->
  countDevices devices ∅ ∅ = Err e ->
  newIXResourceLabeler nodeLabelPrefix names_order labels_order manager
  = ([], Err e).
Proof.
  intros Hdev Hne Hcount. unfold newIXResourceLabeler. rewrite Hdev. simpl.
  destruct devices as [|d devices]; [done|].
  change (Nat.eqb (length (d :: devices)) 0) with false. cbv iota.
  by rewrite Hcount.
Qed.

Lemma Merge_single_Labels (m : Labels) :
  Labeler_Labels (Merge [Labels_labeler m]) = Ok m.
Proof.
  unfold Labeler_Labels, Merge. rewrite Labeler_call_list.
  rewrite (merge_from_ok _ [m]) by (by repeat constructor).
  simpl. by rewrite (right_id_L ∅ (∪)).
Qed.

Ltac distinct_keys :=
  apply map_disjoint_dom;
  rewrite ?resourceLabels_dom, ?dom_insert_L, ?dom_singleton_L, ?dom_empty_L;
  intros k Hk1 Hk2;
  rewrite ?elem_of_union, ?elem_of_singleton in Hk1;
  rewrite ?elem_of_union, ?elem_of_singleton in Hk2;
  destruct_or!; try (by apply not_elem_of_empty in Hk1);
  try (by apply not_elem_of_empty in Hk2);
  subst k; apply append_inj_l in Hk2; discriminate.

Lemma version_format_check (v : string) :
  Nat.ltb 3 (length (Split v ".")) || Nat.ltb (length (Split v ".")) 2
  = negb (bool_decide (1 <= count_byte "." v <= 2)).
Proof.
  rewrite Split_length.
  destruct (Nat.ltb_spec 3 (S (count_byte "." v))),
           (Nat.ltb_spec (S (count_byte "." v)) 2);
    case_bool_decide; simpl; lia.
Qed.

Lemma ixmlVersionLabeler_Ok_iff (manager : resource.Manager) :
  (exists l, ixmlVersionLabeler nodeLabelPrefix manager = Ok l) <->
  version_reads manager.
Proof.
  unfold version_reads.
  destruct (resource.GetIXDriverVersion manager) as [v|err] eqn:Hv.
  2: { unfold ixmlVersionLabeler. rewrite Hv. simpl.
       split; [by intros [? ?]|by intros (? & ? & ? & ? & _)]. }
  rewrite (ixmlVersionLabeler_unfold nodeLabelPrefix manager v Hv). cbv zeta.
  rewrite version_format_check.
  case_bool_decide as Hformat; simpl.
  2: { split; [by intros [? ?]|].
       intros (? & ? & ? & [= <-] & ? & _). done. }
  destruct (resource.GetCudaRuntimeVersion manager) as [[cmaj cmin]|err].
  - split; [|by eexists]. intros _. by exists v, cmaj, cmin.
  - split; [by intros [? ?]|by intros (? & ? & ? & _ & _ & ?)].
Qed.

Lemma ixmlVersionLabeler_Err_iff (manager : resource.Manager) (e : error) :
  ixmlVersionLabeler nodeLabelPrefix manager = Err e <->
  version_read_failure manager e.
Proof.
  unfold version_read_failure.
  destruct (resource.GetIXDriverVersion manager) as [v|err] eqn:Hv.
  2: { unfold ixmlVersionLabeler. rewrite Hv. simpl. split.
       - intros [= <-]. left. by exists err.
       - intros [(? & [= <-] & ->)|[(? & ? & _)|(? & ? & ? & _)]]; done. }
  rewrite (ixmlVersionLabeler_unfold nodeLabelPrefix manager v Hv). cbv zeta.
  rewrite version_format_check.
  case_bool_decide as Hformat; simpl.
  2: { split.
       - intros [= <-]. right. left. by exists v.
       - intros [(? & ? & _)|[(? & [= <-] & _ & ->)|(? & ? & [= <-] & ? & _)]];
           done. }
  destruct (resource.GetCudaRuntimeVersion manager) as [[cmaj cmin]|err].
  - split; [done|].
    intros [(? & ? & _)|[(? & [= <-] & ? & _)|(? & ? & _ & _ & ? & _)]]; done.
  - split.
    + intros [= <-]. right. right. by exists v, err.
    + intros [(? & ? & _)|[(? & [= <-] & ? & _)|(? & ? & _ & _ & [= <-] & ->)]];
        done.
Qed.


Lemma NewLabelers_builds (ReadFile : string -> Result string)
    (names_order labels_order : MapOrder Z) (manager : resource.Manager)
    (cfg : config.Config) :
  (exists log l,
     NewLabelers nodeLabelPrefix ReadFile names_order labels_order manager cfg
     = (log, Ok l)) <->
  (resource.Init manager = None /\
   exists devices,
     resource.GetDevices manager = Ok devices /\
     (devices = [] \/
      ((exists versionLabeler,
          ixmlVersionLabeler nodeLabelPrefix manager = Ok versionLabeler) /\
       (exists counted, countDevices devices ∅ ∅ = Ok counted)))).
Proof.
  unfold NewLabelers, NewIXDeviceLabeler, wrapL.
  destruct (resource.Init manager) as [e|].
  { simpl. split; [by intros (? & ? & ?)|by intros [? _]]. }
  destruct (resource.GetDevices manager) as [devices|e] eqn:Hdev; simpl.
  2: { split; [by intros (? & ? & ?)|by intros [_ (? & ? & _)]]. }
  destruct devices as [|dev devices].
  { simpl. split; [|by eexists _, _].
    intros _. split; [done|]. eexists. split; [done|]. by left. }
  change (Nat.eqb (length (dev :: devices)) 0) with false. cbv iota.
  unfold newMachineTypeLabeler.
  destruct (match getMachineType ReadFile _ with Ok _ => _ | Err _ => _ end)
    as [mlog machineType].
  simpl.
  destruct (ixmlVersionLabeler nodeLabelPrefix manager) as [vl|e] eqn:Hver;
    simpl.
  2: { split; [by intros (? & ? & ?)|].
       intros [_ (? & [= <-] & [?|[[? ?] _]])]; done. }
  destruct (countDevices (dev :: devices) ∅ ∅) as [[counts memorys]|e]
    eqn:Hcount.
  - destruct (newIXResourceLabeler_ok nodeLabelPrefix names_order labels_order
                manager (dev :: devices) counts memorys Hdev ltac:(done) Hcount)
      as (name & count & _ & _ & ->).
    simpl. split; [|by eexists _, _].
    intros _. split; [done|]. eexists. split; [done|]. right.
    split; by eexists.
  - rewrite (newIXResourceLabeler_err names_order labels_order manager
               (dev :: devices) e Hdev ltac:(done) Hcount).
    simpl. split; [by intros (? & ? & ?)|].
    intros [_ (? & [= <-] & [?|[_ [? ?]]])]; [done|congruence].
Qed.


(** X7. Whether the labelers can be built depends on the answers of the
    resource manager alone (the manager answering alike at both of the
    [GetDevices] calls of the pass): construction succeeds exactly when
    the manager initialises and lists its devices, and either there is no
    device, or the driver version read answers a version of two or three
    components, the runtime version read answers, and every device
    answers its name read and its memory read.  The machine-type file and
    the configuration have no part in it. *)
Theorem NewLabelers_succeeds_iff (ReadFile : string -> Result string)
    (names_order labels_order : MapOrder Z) (manager : resource.Manager)
    (cfg : config.Config) :
  (exists log l,
     NewLabelers nodeLabelPrefix ReadFile names_order labels_order manager cfg
     = (log, Ok l)) <->
  (resource.Init manager = None /\
   exists devices,
     resource.GetDevices manager = Ok devices /\
     (devices = [] \/
      ((exists (v : string) (cudaMajor cudaMinor : Z),
          resource.GetIXDriverVersion manager = Ok v /\
          1 <= count_byte "." v <= 2 /\
          resource.GetCudaRuntimeVersion manager = Ok (cudaMajor, cudaMinor)) /\
       (exists readings : list (string * Z),
          Forall2 (fun d r => resource.GetName d = Ok r.1 /\
                              resource.GetTotalMemoryMB d = Ok r.2)
            devices readings)))).
Proof.
  rewrite NewLabelers_builds. split.
  - intros [Hinit (devices & Hdev & [->|[Hver Hcount]])].
    + split; [done|]. exists []. split; [done|]. by left.
    + split; [done|]. exists devices. split; [done|]. right. split.
      * by apply ixmlVersionLabeler_Ok_iff.
      * by apply (countDevices_Ok_iff devices ∅ ∅).
  - intros [Hinit (devices & Hdev & [->|[Hver Hread]])].
    + split; [done|]. exists []. split; [done|]. by left.
    + split; [done|]. exists devices. split; [done|]. right. split.
      * by apply ixmlVersionLabeler_Ok_iff.
      * by apply (countDevices_Ok_iff devices ∅ ∅).
Qed.

Lemma NewLabelers_size ReadFile names_order labels_order manager cfg lines l :
  NewLabelers nodeLabelPrefix ReadFile names_order labels_order manager cfg
  = (lines, Ok l) ->
  exists devices (m : Labels),
    resource.GetDevices manager = Ok devices /\
    Labeler_Labels l = Ok m /\
    size m = if Nat.eqb (length devices) 0 then 0 else 11.
Proof.
  unfold NewLabelers, NewIXDeviceLabeler, wrapL.
  destruct (resource.Init manager); [done|].
  destruct (resource.GetDevices manager) as [devices|] eqn:Hdev; [|done]. simpl.
  destruct devices as [|dev devices].
  { simpl. intros [= _ <-]. by exists [], ∅. }
  change (Nat.eqb (length (dev :: devices)) 0) with false. cbv iota.
  unfold newMachineTypeLabeler.
  destruct (match getMachineType ReadFile _ with Ok _ => _ | Err _ => _ end)
    as [mlog machineType].
  simpl.
  destruct (ixmlVersionLabeler nodeLabelPrefix manager) as [vl|] eqn:Hver;
    [|done].
  destruct (ixmlVersionLabeler_inv manager vl Hver)
    as (a & b & c & d & e & f & g & ->).
  simpl.
  destruct (countDevices (dev :: devices) ∅ ∅) as [[counts memorys]|err]
    eqn:Hcount.
  2: { by rewrite (newIXResourceLabeler_err names_order
                     labels_order manager (dev :: devices) err Hdev
                     ltac:(done) Hcount). }
  destruct (newIXResourceLabeler_ok nodeLabelPrefix names_order labels_order
              manager (dev :: devices) counts memorys Hdev ltac:(done) Hcount)
    as (name & count & _ & _ & ->).
  simpl. intros [= _ <-].
  set (machine := ({[ nodeLabelPrefix +:+ "/gpu.machine" := sanitise machineType ]} : Labels)).
  set (version := <[ nodeLabelPrefix +:+ "/ix.driver-version.full" := a ]> _).
  set (resources := resourceLabels nodeLabelPrefix memorys name count).
  assert (Hmv : machine ##ₘ version) by (subst machine version; distinct_keys).
  assert (Hmr : machine ##ₘ resources) by (subst machine resources; distinct_keys).
  assert (Hvr : version ##ₘ resources) by (subst version resources; distinct_keys).
  assert (Hsm : size machine = 1) by apply map_size_singleton.
  assert (Hsv : size version = 7).
  { subst version.
    rewrite !map_size_insert_None by fresh_key. by rewrite map_size_empty. }
  assert (Hsr : size resources = 3) by apply resourceLabels_size.
  exists (dev :: devices), (resources ∪ version ∪ machine). split; [done|].
  split.
  { unfold Labeler_Labels, Merge. rewrite Labeler_call_list.
    rewrite (merge_from_ok _ [machine; version; resources])
      by (repeat constructor; apply Merge_single_Labels).
    simpl. by rewrite (right_id_L ∅ (∪)), (assoc_L (∪)). }
  rewrite !map_size_disj_union; [simpl; lia|done|].
  apply map_disjoint_union_l. split; by symmetry.
Qed.

End device_labeler.

(** ** Nested merges *)

Section merge_algebra.
Import label spec.

Lemma merge_from_acc (labelers : list Labeler) (allLabels : Labels) :
  merge_from labelers allLabels
  = ((merge_from labelers ∅).1,
     match (merge_from labelers ∅).2 with
     | Ok m => Ok (m ∪ allLabels)
     | Err err => Err err
     end).
Proof.
  revert allLabels. induction labelers as [|s rest IH]; intros allLabels.
  { simpl. by rewrite (left_id_L ∅ (∪)). }
  cbn [merge_from]. destruct (Labeler_call s) as [t [m|err]]; [|done].
  rewrite (IH (copy_into m allLabels)), (IH (copy_into m ∅)).
  destruct (merge_from rest ∅) as [t' [m'|err]]; simpl; [|done].
  rewrite !copy_into_union, (right_id_L ∅ (∪)).
  by rewrite (assoc_L (∪)).
Qed.

Lemma merge_from_app (a b : list Labeler) (allLabels : Labels) :
  merge_from (a ++ b) allLabels
  = match merge_from a allLabels with
    | (t, Ok m) => let '(t', r) := merge_from b m in (t ++ t', r)
    | (t, Err err) => (t, Err err)
    end.
Proof.
  revert allLabels. induction a as [|s a IH]; intros allLabels.
  { simpl. by destruct (merge_from b allLabels). }
  cbn [app merge_from]. destruct (Labeler_call s) as [t [m|err]]; [|done].
  rewrite IH. destruct (merge_from a (copy_into m allLabels)) as [t' [m'|err]];
    [|done].
  destruct (merge_from b m') as [t'' r]. by rewrite (assoc_L (++)).
Qed.

(** X8. A merge nested in a list of sources can be flattened: putting the
    sources of the inner merge in its place invokes the same sources in
    the same order and yields the same label set, and either list fails
    exactly when the other does. *)
Theorem Merge_flattens (pre inner post : list Labeler) :
  Labeler_invoked (Merge (pre ++ Merge inner :: post))
  = Labeler_invoked (Merge (pre ++ inner ++ post)) /\
  forall labels : Labels,
    Labeler_Labels (Merge (pre ++ Merge inner :: post)) = Ok labels <->
    Labeler_Labels (Merge (pre ++ inner ++ post)) = Ok labels.
Proof.
  unfold Labeler_invoked, Labeler_Labels, Merge.
  rewrite !Labeler_call_list, !merge_from_app.
  destruct (merge_from pre ∅) as [t [m0|err]]; [|done].
  cbn [merge_from]. rewrite Labeler_call_list, merge_from_app.
  rewrite (merge_from_acc inner m0).
  destruct (merge_from inner ∅) as [ti [mi|err]]; simpl; [|done].
  rewrite copy_into_union.
  by destruct (merge_from post (mi ∪ m0)).
Qed.

End merge_algebra.

(** ** Sanitised machine types *)

Section sanitised.
Import label spec props.

Lemma RemoveOutside_all keep s : all_bytes keep (RemoveOutside keep s) = true.
Proof.
  induction s as [|c s IH]; [done|]. simpl.
  destruct (keep c) eqn:Hc; [|done]. simpl. by rewrite Hc.
Qed.

Lemma RemoveOutside_id keep s :
  all_bytes keep s = true -> RemoveOutside keep s = s.
Proof.
  induction s as [|c s IH]; [done|]. simpl.
  intros [Hc Hs]%andb_prop. by rewrite Hc, IH.
Qed.

Lemma Fields_words keep s :
  all_bytes keep s = true ->
  Forall (fun w => all_bytes (fun c => keep c && negb (asciiSpace c)) w = true)
    (Fields s).
Proof.
  induction s as [|c s IH]; [constructor|].
  cbn [all_bytes]. intros [Hc Hs]%andb_prop. specialize (IH Hs).
  destruct (asciiSpace c) eqn:Hsp; [by rewrite Fields_cons_space|].
  rewrite Fields_cons_word by done.
  assert (Hw : all_bytes (fun c => keep c && negb (asciiSpace c))
                 (String c "") = true).
  { simpl. by rewrite Hc, Hsp. }
  destruct s as [|c' s]; [by repeat constructor|].
  destruct (asciiSpace c') eqn:Hsp'.
  - by constructor.
  - destruct (Fields (String c' s)) as [|x xs]; [by repeat constructor|].
    inversion IH; subst. constructor; [|done].
    simpl. by rewrite Hc, Hsp.
Qed.

Lemma Join_words (P : ascii -> bool) (ws : list string) :
  P "-"%char = true ->
  Forall (fun w => all_bytes P w = true) ws ->
  all_bytes P (Join ws "-") = true.
Proof.
  intros Hh. induction 1 as [|w ws Hw _ IH]; [done|].
  destruct ws as [|w' ws]; [done|].
  change (Join (w :: w' :: ws) "-") with (w +:+ "-" +:+ Join (w' :: ws) "-").
  induction w as [|c w IHw].
  - rewrite append_nil, append_cons, append_nil. cbn [all_bytes].
    by rewrite Hh, IH.
  - rewrite append_cons. cbn [all_bytes] in *.
    apply andb_prop in Hw as [Hc Hw]. by rewrite Hc, IHw.
Qed.

Lemma Fields_one_word s :
  all_bytes (fun c => negb (asciiSpace c)) s = true ->
  Fields s = match s with EmptyString => [] | _ => [s] end.
Proof.
  induction s as [|c s IH]; [done|].
  cbn [all_bytes]. intros [Hc Hs]%andb_prop. apply negb_true_iff in Hc.
  rewrite Fields_cons_word by done. rewrite (IH Hs).
  destruct s as [|c' s]; [done|].
  simpl in Hs. apply andb_prop in Hs as [Hc' _]. apply negb_true_iff in Hc'.
  by rewrite Hc'.
Qed.

Lemma all_bytes_and (P Q : ascii -> bool) s :
  all_bytes (fun c => P c && Q c) s = true ->
  all_bytes P s = true /\ all_bytes Q s = true.
Proof.
  induction s as [|c s IH]; [done|]. simpl.
  intros [[Hp Hq]%andb_prop [Hs Hs']%IH]%andb_prop.
  by rewrite Hp, Hq, Hs, Hs'.
Qed.

(** X9. A sanitised machine type is made of letters, digits, hyphens,
    underscores and full stops only, and these strings are exactly the
    ones that sanitising leaves as they are; sanitising twice therefore
    gives what sanitising once gives. *)
Theorem sanitise_fixed_points :
  (forall input, all_bytes label_byte (sanitise input) = true) /\
  (forall input, sanitise input = input <-> all_bytes label_byte input = true) /\
  (forall input, sanitise (sanitise input) = sanitise input).
Proof.
  assert (Hall : forall input, all_bytes label_byte (sanitise input) = true).
  { intros input. unfold sanitise. apply Join_words; [done|].
    apply Fields_words, RemoveOutside_all. }
  assert (Hfix : forall input,
            all_bytes label_byte input = true -> sanitise input = input).
  { intros input [Hclass Hword]%all_bytes_and. unfold sanitise.
    rewrite RemoveOutside_id by done. rewrite Fields_one_word by done.
    by destruct input. }
  split; [done|]. split.
  - intros input. split; [|apply Hfix]. intros <-. apply Hall.
  - intros input. apply Hfix, Hall.
Qed.

End sanitised.

(** ** The calls of the publication sink *)

Section publication.
Import label spec props.

Variable nodeFeaturePrefix : string.
Variable NodeFeatureObjNodeNameLabel : string.

Local Abbreviation Output :=
  (NodeFeatureOutputer_Output nodeFeaturePrefix NodeFeatureObjNodeNameLabel).

(** X10. Whatever the cluster answers, one call of [Output] issues no call
    at all when the node name is empty, and otherwise first one read of
    the object named after the node and then at most one write; every
    call is issued in the configured namespace, and an object written
    carries exactly the label set, no features, and the node name as its
    only object label.  The calls issued before are kept. *)
Theorem Output_call_discipline {Σ : Type} (n : NodeFeatureOutputer Σ)
    (labels : Labels) (calls : list Call) (σ : Σ) :
  let nodename := config.Name (nodeConfig n) in
  let namespace := config.Namespace (nodeConfig n) in
  exists new : list Call,
    (Output n labels (calls, σ)).2.1 = calls ++ new /\
    (new = [] <-> nodename = "") /\
    (nodename = "" -> (Output n labels (calls, σ)).2.2 = σ
                      /\ (Output n labels (calls, σ)).1 <> None) /\
    (nodename <> "" ->
       exists tail,
         new = GetCall namespace (Join [nodeFeaturePrefix; nodename] "-") :: tail /\
         (tail = [] \/
          exists c obj, tail = [c] /\ written c = Some obj /\
                        call_namespace c = namespace /\
                        publishes NodeFeatureObjNodeNameLabel nodename labels obj)).
Proof.
  intros nodename namespace. unfold NodeFeatureOutputer_Output.
  fold nodename namespace.
  case_bool_decide as Hname.
  { exists []. simpl. rewrite app_nil_r. by repeat split. }
  set (name := Join [nodeFeaturePrefix; nodename] "-").
  destruct (Get (nfdClientSet n) namespace name σ) as [[nfr|err] σ1].
  - destruct (negb (Semantic_DeepEqual _ _)).
    + destruct (Update _ _ _ _) as [[?|?] σ2];
        (eexists [_; _]; split; [by rewrite <- (assoc_L (++))|];
         split; [done|]; split; [done|]; intros _;
         eexists; split; [done|]; right; by eexists _, _).
    + eexists [_]. split; [done|]. split; [done|]. split; [done|]. intros _.
      eexists. split; [done|]. by left.
  - destruct (IsNotFound err).
    + destruct (Create _ _ _ _) as [[?|?] σ2];
        (eexists [_; _]; split; [by rewrite <- (assoc_L (++))|];
         split; [done|]; split; [done|]; intros _;
         eexists; split; [done|]; right; by eexists _, _).
    + eexists [_]. split; [done|]. split; [done|]. split; [done|]. intros _.
      eexists. split; [done|]. by left.
Qed.

(** X11. On a cluster that stores what it is given, where the object
    stored under the node's key, if any, bears that name, [Output] with a
    non-empty node name succeeds; afterwards the object stored under that
    key carries the label set, every other object is as before, and
    publishing the same label set again reads the object and writes
    nothing. *)
Theorem Output_on_store (n : NodeFeatureOutputer Store) (labels : Labels)
    (calls : list Call) (σ : Store) :
  let nodename := config.Name (nodeConfig n) in
  let namespace := config.Namespace (nodeConfig n) in
  let name := Join [nodeFeaturePrefix; nodename] "-" in
  nfdClientSet n = store_client ->
  nodename <> "" ->
  (forall obj, σ !! (namespace, name) = Some obj -> Name (Meta obj) = name) ->
  exists calls' σ' obj,
    Output n labels (calls, σ) = (None, (calls', σ')) /\
    σ' !! (namespace, name) = Some obj /\
    Name (Meta obj) = name /\
    publishes NodeFeatureObjNodeNameLabel nodename labels obj /\
    (forall key, key <> (namespace, name) -> σ' !! key = σ !! key) /\
    Output n labels (calls', σ')
    = (None, (calls' ++ [GetCall namespace name], σ')).
Proof.
  intros nodename namespace name Hclient Hname Hkey.
  assert (Hagain : forall calls' (σ' : Store) obj,
            σ' !! (namespace, name) = Some obj ->
            publishes NodeFeatureObjNodeNameLabel nodename labels obj ->
            Output n labels (calls', σ')
            = (None, (calls' ++ [GetCall namespace name], σ'))).
  { intros calls' σ' [[? ? ? ? ?] [? ?]] Hobj (Hl & Hf & Ho). simpl in *. subst.
    unfold NodeFeatureOutputer_Output. fold nodename namespace name.
    rewrite bool_decide_eq_false_2 by done.
    rewrite Hclient. simpl. rewrite Hobj.
    unfold Semantic_DeepEqual, updatedNodeFeature. simpl.
    by rewrite bool_decide_eq_true_2. }
  unfold NodeFeatureOutputer_Output at 1. fold nodename namespace name.
  rewrite bool_decide_eq_false_2 by done.
  rewrite Hclient. simpl.
  destruct (σ !! (namespace, name)) as [nfr|] eqn:Hget.
  - specialize (Hkey nfr eq_refl).
    destruct (Semantic_DeepEqual nfr _) eqn:Heq; simpl.
    + apply bool_decide_eq_true in Heq.
      eexists _, σ, nfr. split; [done|]. split; [done|]. split; [done|].
      assert (Hp : publishes NodeFeatureObjNodeNameLabel nodename labels nfr).
      { rewrite Heq. by repeat split. }
      split; [done|]. split; [done|]. by apply (Hagain _ σ nfr).
    + eexists _, _, _. split; [by rewrite Hkey, Hget; simpl; rewrite ?Hkey|].
      split; [apply lookup_insert_eq|]. split; [exact Hkey|].
      split; [by repeat split|].
      split; [by intros key Hne; unfold Store; rewrite lookup_insert_ne|].
      eapply Hagain; [apply lookup_insert_eq|by repeat split].
  - simpl. eexists _, _, _. split; [by rewrite Hget; simpl|].
    split; [apply lookup_insert_eq|]. split; [done|].
    split; [by repeat split|].
    split; [by intros key Hne; unfold Store; rewrite lookup_insert_ne|].
    eapply Hagain; [apply lookup_insert_eq|by repeat split].
Qed.

End publication.

(** ** The configuration read from the command line *)

Section configuration.
Import config.

Lemma UpdateFromCLIFlags_concat f c flags :
  UpdateFromCLIFlags f c flags = foldl (update_for_name c) f (concat flags).
Proof.
  unfold UpdateFromCLIFlags. revert f.
  induction flags as [|flag flags IH]; intros f; [done|].
  simpl. by rewrite foldl_app, IH.
Qed.

Lemma bool_decide_snoc (k n : string) (names : list string) :
  bool_decide (k ∈ names ++ [n])
  = bool_decide (k ∈ names) || bool_decide (k = n).
Proof.
  apply eq_true_iff_eq.
  rewrite orb_true_iff, !bool_decide_eq_true, elem_of_app, list_elem_of_singleton.
  done.
Qed.

(** X12. [NewConfig] fills a field of the configuration exactly when a
    flag of the list it is given bears the long name of that field, and
    then with what the command-line context answers for that long name,
    whether or not the flag was set on the command line; the other names
    of a flag, such as the aliases of the output file, are not read. *)
Theorem NewConfig_reads_long_names (c : Context) (flags : list (list string)) :
  let field {T : Type} (value : Context -> string -> T) (name : string) :=
    if bool_decide (name ∈ concat flags) then Some (value c name) else None in
  NewConfig c flags
  = {| pNoTimestamp := field Bool_of "no-timestamp";
       pSleepInterval := field Duration_of "sleep-interval";
       pOutputFile := field String_of "output-file";
       pMachineTypeFile := field String_of "machine-type-file" |}.
Proof.
  cbv zeta. unfold NewConfig. rewrite UpdateFromCLIFlags_concat.
  induction (concat flags) as [|n names IH] using rev_ind; [done|].
  rewrite foldl_app. cbn [foldl]. rewrite IH. clear IH.
  rewrite !bool_decide_snoc. unfold update_for_name, updateFromCLIFlag.
  repeat case_bool_decide; subst; try discriminate; try congruence; cbn [orb];
    rewrite ?orb_true_r, ?orb_false_r; cbn [pNoTimestamp pSleepInterval
      pOutputFile pMachineTypeFile];
    try (destruct (IsSet c _)); reflexivity.
Qed.

End configuration.

(** ** What the refresh loop returns, and why *)

Section decisions.
Import label spec props main.

Variable nodeLabelPrefix : string.
Context {FS Σ : Type}.
Variable os : OS FS.

Local Abbreviation publish := (@main.publish nodeLabelPrefix FS Σ os).
Local Abbreviation run_from_rerun :=
  (@main.run_from_rerun nodeLabelPrefix FS Σ os).
Local Abbreviation run := (@main.run nodeLabelPrefix FS Σ os).
Local Abbreviation publish_all := (@spec.publish_all FS Σ nodeLabelPrefix os).

Lemma ends_with_signal_cons p script s :
  idle p = rerunTimeout -> ends_with_signal script s ->
  ends_with_signal (p :: script) s.
Proof.
  intros Hp (pre & q & post & -> & Hpre & Hq).
  exists (p :: pre), q, post. split; [done|]. split; [by constructor|done].
Qed.

Lemma run_from_rerun_origin d timestampLabeler script w :
  match (run_from_rerun d timestampLabeler script w).1 with
  | Some (restart, None) =>
      exists s, ends_with_signal script s /\ restart = bool_decide (s = SIGHUP)
  | Some (restart, Some err) =>
      restart = false /\
      exists pre p post w1 w2,
        script = pre ++ p :: post /\
        Forall (fun q => idle q = rerunTimeout) pre /\
        publish_all d timestampLabeler pre w = (Ok tt, w1) /\
        publish d timestampLabeler p w1 = (Err err, w2)
  | None => Forall (fun q => idle q = rerunTimeout) script
  end.
Proof.
  revert w. induction script as [|p script IH]; intros w; [by constructor|].
  cbn [main.run_from_rerun spec.publish_all].
  destruct (publish d timestampLabeler p w) as [[[]|err] w1] eqn:Hp.
  2: { simpl. split; [done|]. by exists [], p, script, w, w1. }
  destruct (idle p) as [|s] eqn:Hidle.
  - specialize (IH w1).
    destruct (run_from_rerun d timestampLabeler script w1) as [[[restart [err|]]|] w2];
      simpl in *.
    + destruct IH as (-> & pre & q & post & w3 & w4 & -> & Hpre & Hall & Hq).
      split; [done|]. exists (p :: pre), q, post, w3, w4.
      split; [done|]. split; [by constructor|]. split; [|done].
      simpl. by rewrite Hp.
    + destruct IH as (s & Hs & ->). exists s. split; [|done].
      by apply ends_with_signal_cons.
    + by constructor.
  - assert (Hs : ends_with_signal (p :: script) s)
      by (by exists [], p, script).
    case_bool_decide as Hhup; simpl; exists s;
      (split; [done|]); symmetry;
      [by apply bool_decide_eq_true_2|by apply bool_decide_eq_false_2].
Qed.

(** X13. What [run] returns tells how it ended.  It asks for a restart
    only when a hang-up signal arrived after waits that all timed out; it
    returns without error and without restart only when some other signal
    arrived in that way; it returns an error, never with a restart, only
    when building or publishing the labels failed in a pass reached
    through waits that timed out, all passes before it having published;
    and it is still running at the end of the script only when every wait
    of the script timed out. *)
Theorem run_decision_origin (d : ixfd Σ) (now : Z) (script : list Poll)
    (w : World FS Σ) :
  let timestampLabeler :=
    NewTimestampLabeler nodeLabelPrefix (config_of d) now in
  match (run d now script w).1 with
  | Some (restart, None) =>
      exists s, ends_with_signal script s /\ restart = bool_decide (s = SIGHUP)
  | Some (restart, Some err) =>
      restart = false /\
      exists pre p post w1 w2,
        script = pre ++ p :: post /\
        Forall (fun q => idle q = rerunTimeout) pre /\
        publish_all d timestampLabeler pre w = (Ok tt, w1) /\
        publish d timestampLabeler p w1 = (Err err, w2)
  | None => Forall (fun q => idle q = rerunTimeout) script
  end.
Proof.
  intros timestampLabeler.
  pose proof (run_from_rerun_origin d timestampLabeler script w) as H.
  unfold main.run. fold timestampLabeler.
  by destruct (run_from_rerun d timestampLabeler script w) as [[?|] ?].
Qed.

End decisions.

(** ** The outer loop *)

Section restarts.
Import label spec props main.

Variable nodeLabelPrefix : string.
Variable nodeFeaturePrefix : string.
Variable NodeFeatureObjNodeNameLabel : string.
Context {FS Σ : Type}.
Variable os : OS FS.

Local Abbreviation start :=
  (@main.start nodeLabelPrefix nodeFeaturePrefix NodeFeatureObjNodeNameLabel
     FS Σ os).

Lemma run_signal_origin (d : ixfd (list Call * Σ)) now script w restart w' :
  main.run nodeLabelPrefix os d now script w = (Some (restart, None), w') ->
  exists s, ends_with_signal script s /\ restart = bool_decide (s = SIGHUP).
Proof.
  intros Hrun.
  pose proof (run_from_rerun_origin nodeLabelPrefix os d
                (NewTimestampLabeler nodeLabelPrefix (config_of d) now)
                script w) as H.
  unfold main.run in Hrun.
  destruct (main.run_from_rerun _ _ _ _ _ _) as [[[r [e|]]|] w1];
    simpl in *; by simplify_eq.
Qed.

(** X14. [start] returns nil only on a signal other than the hang-up
    signal: the turns of its loop before the last each ended with a
    hang-up signal, which made it load the configuration again, the last
    ended with another signal, and the node name and the namespace are
    not empty. *)
Theorem start_returns_nil_on_signal (nodeConfig : config.NodeConfig)
    (epochs : list (Epoch Σ)) (w w' : World FS (list Call * Σ)) :
  start nodeConfig epochs w = (Some None, w') ->
  config.Name nodeConfig <> "" /\ config.Namespace nodeConfig <> "" /\
  exists before e after s,
    epochs = before ++ e :: after /\
    Forall (fun e' => ends_with_signal (passes e') SIGHUP) before /\
    ends_with_signal (passes e) s /\ s <> SIGHUP.
Proof.
  revert w. induction epochs as [|e epochs IH]; intros w; [done|].
  cbn [main.start].
  destruct (loadConfig e) as [cfg|]; [|done].
  destruct (MarshalIndent e); [done|].
  destruct (NewClientSets e) as [clientSets|]; [|done].
  destruct (NewOutputer nodeConfig clientSets) as [n|] eqn:Hn; [|done].
  assert (Hnode : config.Name nodeConfig <> ""
                  /\ config.Namespace nodeConfig <> "").
  { unfold NewOutputer in Hn. by repeat case_bool_decide. }
  destruct (main.run _ _ _ _ _ _) as [[[restart [err|]]|] w1] eqn:Hrun;
    [done| |done].
  apply run_signal_origin in Hrun as (s & Hs & ->).
  case_bool_decide as Hhup.
  - subst s. intros (_ & _ & before & e' & after & s & -> & Hbefore & He' & Hs')%IH.
    split; [tauto|]. split; [tauto|].
    exists (e :: before), e', after, s.
    split; [done|]. split; [by constructor|done].
  - intros _. split; [tauto|]. split; [tauto|].
    by exists [], e, epochs, s.
Qed.

End restarts.

(** ** The timestamp of one run *)

Section timestamp.
Import label spec props main.

Variable nodeLabelPrefix : string.
Variable nodeFeaturePrefix : string.
Variable NodeFeatureObjNodeNameLabel : string.
Context {FS Σ : Type}.
Variable os : OS FS.

Local Abbreviation Output :=
  (@NodeFeatureOutputer_Output nodeFeaturePrefix NodeFeatureObjNodeNameLabel Σ).

Lemma NewLabelers_names ReadFile names_order labels_order manager cfg log l :
  NewLabelers nodeLabelPrefix ReadFile names_order labels_order manager cfg
  = (log, Ok l) ->
  exists m : Labels,
    Labeler_Labels l = Ok m /\
    forall k, k ∉ device_label_names -> m !! (nodeLabelPrefix +:+ k) = None.
Proof.
  unfold NewLabelers, NewIXDeviceLabeler, wrapL.
  destruct (resource.Init manager); [done|].
  destruct (resource.GetDevices manager) as [devices|] eqn:Hdev; [|done]. simpl.
  destruct devices as [|dev devices].
  { simpl. intros [= _ <-]. by exists ∅. }
  change (Nat.eqb (length (dev :: devices)) 0) with false. cbv iota.
  unfold newMachineTypeLabeler.
  destruct (match getMachineType ReadFile _ with Ok _ => _ | Err _ => _ end)
    as [mlog machineType].
  simpl.
  destruct (ixmlVersionLabeler nodeLabelPrefix manager) as [vl|] eqn:Hver;
    [|done].
  destruct (ixmlVersionLabeler_inv nodeLabelPrefix manager vl Hver)
    as (a & b & c & d & e & f & g & ->).
  simpl.
  destruct (countDevices (dev :: devices) ∅ ∅) as [[counts memorys]|err]
    eqn:Hcount.
  2: { by rewrite (newIXResourceLabeler_err nodeLabelPrefix names_order
                     labels_order manager (dev :: devices) err Hdev
                     ltac:(done) Hcount). }
  destruct (newIXResourceLabeler_ok nodeLabelPrefix names_order labels_order
              manager (dev :: devices) counts memorys Hdev ltac:(done) Hcount)
    as (name & count & _ & _ & ->).
  simpl. intros [= _ <-].
  eexists. split.
  { unfold Labeler_Labels, Merge. rewrite Labeler_call_list.
    by rewrite (merge_from_ok _
         [_; _; resourceLabels nodeLabelPrefix memorys name count])
      by (repeat constructor; apply Merge_single_Labels). }
  intros k Hk. unfold device_label_names in Hk.
  rewrite !not_elem_of_cons in Hk. destruct_and!.
  simpl. rewrite !lookup_union_None.
  rewrite resourceLabels_lookup, version_keys.
  rewrite !bool_decide_eq_false_2 by done.
  rewrite lookup_singleton_ne by (by apply key_ne).
  by rewrite lookup_empty.
Qed.

Lemma Output_writes (n : NodeFeatureOutputer Σ) (labels : Labels)
    (calls : list Call) (σ : Σ) :
  exists new : list Call,
    (Output n labels (calls, σ)).2.1 = calls ++ new /\
    forall c obj, c ∈ new -> written c = Some obj ->
                  SpecLabels (Spec obj) = labels.
Proof.
  unfold NodeFeatureOutputer_Output.
  case_bool_decide.
  { exists []. simpl. rewrite app_nil_r. split; [done|].
    by intros c obj ?%elem_of_nil. }
  destruct (Get _ _ _ _) as [[nfr|err] σ1].
  - destruct (negb (Semantic_DeepEqual _ _)).
    + destruct (Update _ _ _ _) as [[?|?] σ2];
        (eexists [_; _]; split; [by rewrite <- (assoc_L (++))|];
         intros c obj Hc Hw; rewrite !elem_of_cons in Hc;
         destruct Hc as [->|[->|?%elem_of_nil]]; [done| |done];
         by injection Hw as <-).
    + eexists [_]. split; [done|].
      by intros c obj ->%list_elem_of_singleton.
  - destruct (IsNotFound err).
    + destruct (Create _ _ _ _) as [[?|?] σ2];
        (eexists [_; _]; split; [by rewrite <- (assoc_L (++))|];
         intros c obj Hc Hw; rewrite !elem_of_cons in Hc;
         destruct Hc as [->|[->|?%elem_of_nil]]; [done| |done];
         by injection Hw as <-).
    + eexists [_]. split; [done|].
      by intros c obj ->%list_elem_of_singleton.
Qed.

Lemma publish_writes (n : NodeFeatureOutputer Σ) (cfg : config.Config)
    (now : Z) (p : Poll) (w : World FS (list Call * Σ)) :
  let d := {| config_of := cfg; labelOutputer := Output n |} in
  let timestampLabeler := NewTimestampLabeler nodeLabelPrefix cfg now in
  exists new : list Call,
    (sink (main.publish nodeLabelPrefix os d timestampLabeler p w).2).1
    = (sink w).1 ++ new /\
    forall c obj, c ∈ new -> written c = Some obj ->
      SpecLabels (Spec obj) !! (nodeLabelPrefix +:+ "/ix.timestamp")
      = if config.NoTimestamp (config.Flags_of cfg) then None
        else Some (Itoa now).
Proof.
  intros d timestampLabeler.
  assert (Hnone : exists new : list Call,
            (sink w).1 = (sink w).1 ++ new /\
            forall c obj, c ∈ new -> written c = Some obj ->
              SpecLabels (Spec obj) !! (nodeLabelPrefix +:+ "/ix.timestamp")
              = if config.NoTimestamp (config.Flags_of cfg) then None
                else Some (Itoa now)).
  { exists []. rewrite app_nil_r. split; [done|].
    by intros c obj ?%elem_of_nil. }
  unfold main.publish.
  destruct (NewLabelers _ _ _ _ _ _) as [lines [loopLabelers|err]] eqn:Hloop;
    [|done].
  apply NewLabelers_names in Hloop as (m & Hm & Hkeys).
  assert (Hlabels : Labeler_Labels (Merge [timestampLabeler; loopLabelers])
            = Ok (m ∪ (if config.NoTimestamp (config.Flags_of cfg) then ∅
                       else {[ nodeLabelPrefix +:+ "/ix.timestamp" := Itoa now ]}))).
  { unfold Labeler_Labels, Merge. rewrite Labeler_call_list.
    rewrite (merge_from_ok _
      [if config.NoTimestamp (config.Flags_of cfg) then ∅
       else {[ nodeLabelPrefix +:+ "/ix.timestamp" := Itoa now ]}; m]).
    - simpl. by rewrite (right_id_L ∅ (∪)).
    - constructor; [|by repeat constructor].
      subst timestampLabeler. unfold NewTimestampLabeler. simpl.
      by destruct (config.NoTimestamp (config.Flags_of cfg)). }
  rewrite Hlabels.
  set (labels := m ∪ _).
  assert (Hts : labels !! (nodeLabelPrefix +:+ "/ix.timestamp")
                = if config.NoTimestamp (config.Flags_of cfg) then None
                  else Some (Itoa now)).
  { subst labels. rewrite lookup_union_r.
    - destruct (config.NoTimestamp (config.Flags_of cfg));
        [apply lookup_empty|apply lookup_singleton_eq].
    - apply Hkeys. unfold device_label_names.
      rewrite !not_elem_of_cons. repeat split; try discriminate.
      apply not_elem_of_nil. }
  destruct (Output_writes n labels (sink w).1 (sink w).2)
    as (new & Hnew & Hwritten).
  rewrite <- surjective_pairing in Hnew.
  exists new. split.
  - destruct (Nat.leb (size labels) 1); simpl;
      by destruct (Output n labels (sink w)) as [[err|] [calls σ]].
  - intros c obj Hc Hw. by rewrite (Hwritten c obj Hc Hw).
Qed.

(** X15. The timestamp label is that of the start of the run, not of the
    pass: every object written to the cluster during one [run], in
    whichever pass and whatever the device labeler contributes, carries
    the timestamp label with the time read when the run began, or no
    timestamp label at all when the timestamp is disabled.  The calls
    issued before the run are kept. *)
Theorem run_timestamp_fixed (n : NodeFeatureOutputer Σ) (cfg : config.Config)
    (now : Z) (script : list Poll) (w : World FS (list Call * Σ)) :
  let d := {| config_of := cfg; labelOutputer := Output n |} in
  exists new : list Call,
    (sink (main.run nodeLabelPrefix os d now script w).2).1
    = (sink w).1 ++ new /\
    forall c obj, c ∈ new -> written c = Some obj ->
      SpecLabels (Spec obj) !! (nodeLabelPrefix +:+ "/ix.timestamp")
      = if config.NoTimestamp (config.Flags_of cfg) then None
        else Some (Itoa now).
Proof.
  intros d.
  set (timestampLabeler := NewTimestampLabeler nodeLabelPrefix cfg now).
  assert (Hloop : exists new : list Call,
            (sink (main.run_from_rerun nodeLabelPrefix os d timestampLabeler
                     script w).2).1 = (sink w).1 ++ new /\
            forall c obj, c ∈ new -> written c = Some obj ->
              SpecLabels (Spec obj) !! (nodeLabelPrefix +:+ "/ix.timestamp")
              = if config.NoTimestamp (config.Flags_of cfg) then None
                else Some (Itoa now)).
  { revert w. induction script as [|p script IH]; intros w.
    { exists []. simpl. rewrite app_nil_r. split; [done|].
      by intros c obj ?%elem_of_nil. }
    cbn [main.run_from_rerun].
    destruct (publish_writes n cfg now p w) as (new & Hnew & Hwritten).
    fold d timestampLabeler in Hnew.
    destruct (main.publish nodeLabelPrefix os d timestampLabeler p w)
      as [[[]|err] w1]; simpl in Hnew; [|by exists new].
    destruct (idle p) as [|s].
    - destruct (IH w1) as (new' & Hnew' & Hwritten').
      exists (new ++ new'). rewrite Hnew', Hnew, (assoc_L (++)).
      split; [done|]. intros c obj [Hc|Hc]%elem_of_app; eauto.
    - case_bool_decide; by exists new. }
  destruct Hloop as (new & Hnew & Hwritten). exists new. split; [|done].
  unfold main.run. change (config_of d) with cfg. fold timestampLabeler.
  destruct (main.run_from_rerun nodeLabelPrefix os d timestampLabeler script w)
    as [[decision|] w1]; simpl in *; [|done].
  by rewrite (proj1 (run_deferred_spec os d w1)).
Qed.

End timestamp.

(** ** Where a failure of the labelers comes from *)

Section failures.
Import label spec props.

Variable nodeLabelPrefix : string.

Lemma NewLabelers_fails (ReadFile : string -> Result string)
    (names_order labels_order : MapOrder Z) (manager : resource.Manager)
    (cfg : config.Config) (err : error) :
  (NewLabelers nodeLabelPrefix ReadFile names_order labels_order manager cfg).2
  = Err err <->
  exists stage e,
    err = ErrorfErr "error creating labeler: %v" [] (ErrorfErr stage [] e) /\
    ((stage = "failed to initialize resource manager: %v" /\
      resource.Init manager = Some e) \/
     (resource.Init manager = None /\
      ((stage = "error getting devices: %v" /\
        resource.GetDevices manager = Err e) \/
       exists devices,
         resource.GetDevices manager = Ok devices /\ devices <> [] /\
         ((stage = "failed to construct version labeler: %v" /\
           ixmlVersionLabeler nodeLabelPrefix manager = Err e) \/
          (stage = "error creating resource labeler: %v" /\
           (exists versionLabeler,
              ixmlVersionLabeler nodeLabelPrefix manager = Ok versionLabeler) /\
           countDevices devices ∅ ∅ = Err e))))).
Proof.
  unfold NewLabelers, NewIXDeviceLabeler, wrapL.
  destruct (resource.Init manager) as [e0|].
  { simpl. split.
    - intros [= <-]. eexists _, _. split; [done|]. by left.
    - intros (stage & e & -> & [[-> [= ->]]|[? _]]); done. }
  destruct (resource.GetDevices manager) as [devices|e0] eqn:Hdev; simpl.
  2: { split.
       - intros [= <-]. eexists _, _. split; [done|]. right. split; [done|].
         by left.
       - intros (stage & e & -> & [[_ ?]|[_ [[-> [= ->]]|(? & ? & _)]]]); done. }
  destruct devices as [|dev devices].
  { simpl. split; [done|].
    intros (stage & e & -> & [[_ ?]|[_ [[_ ?]|(? & [= <-] & ? & _)]]]); done. }
  change (Nat.eqb (length (dev :: devices)) 0) with false. cbv iota.
  unfold newMachineTypeLabeler.
  destruct (match getMachineType ReadFile _ with Ok _ => _ | Err _ => _ end)
    as [mlog machineType].
  simpl.
  destruct (ixmlVersionLabeler nodeLabelPrefix manager) as [vl|e0] eqn:Hver;
    simpl.
  2: { split.
       - intros [= <-]. eexists _, _. split; [done|]. right. split; [done|].
         right. eexists. split; [done|]. split; [done|]. by left.
       - intros (stage & e & -> &
           [[_ ?]|[_ [[_ ?]|(? & [= <-] & _ & [[-> [= ->]]|(_ & [? ?] & _)])]]]);
           done. }
  destruct (countDevices (dev :: devices) ∅ ∅) as [[counts memorys]|e0]
    eqn:Hcount.
  - destruct (newIXResourceLabeler_ok nodeLabelPrefix names_order labels_order
                manager (dev :: devices) counts memorys Hdev ltac:(done) Hcount)
      as (name & count & _ & _ & ->).
    simpl. split; [done|].
    intros (stage & e & -> &
      [[_ ?]|[_ [[_ ?]|(? & [= <-] & _ & [[_ ?]|(_ & _ & ?)])]]]);
      congruence.
  - rewrite (newIXResourceLabeler_err nodeLabelPrefix names_order labels_order
               manager (dev :: devices) e0 Hdev ltac:(done) Hcount).
    simpl. split.
    + intros [= <-]. eexists _, _. split; [done|]. right. split; [done|].
      right. eexists. split; [done|]. split; [done|]. right.
      split; [done|]. split; [by eexists|done].
    + intros (stage & e & -> &
        [[_ ?]|[_ [[_ ?]|(? & [= <-] & _ & [[_ ?]|(-> & _ & ?)])]]]);
        congruence.
Qed.

(** X16. [NewLabelers] fails in four ways only, tried in this order (the
    manager answering alike at both of the [GetDevices] calls of the
    pass): the manager does not initialise; the devices cannot be listed;
    there is a device and a read of the version source does not answer or
    the driver version has not two or three components; there is a
    device, the version reads are in order, and some device does not
    answer its name read or its memory read, every device before it in
    the list answering both.  The error names the stage and wraps the
    error of the first read that failed; the machine-type source is never
    the cause of a failure. *)
Theorem NewLabelers_error_origin (ReadFile : string -> Result string)
    (names_order labels_order : MapOrder Z) (manager : resource.Manager)
    (cfg : config.Config) (err : error) :
  (NewLabelers nodeLabelPrefix ReadFile names_order labels_order manager cfg).2
  = Err err <->
  exists stage e,
    err = ErrorfErr "error creating labeler: %v" [] (ErrorfErr stage [] e) /\
    ((stage = "failed to initialize resource manager: %v" /\
      resource.Init manager = Some e) \/
     (resource.Init manager = None /\
      ((stage = "error getting devices: %v" /\
        resource.GetDevices manager = Err e) \/
       exists devices,
         resource.GetDevices manager = Ok devices /\ devices <> [] /\
         ((stage = "failed to construct version labeler: %v" /\
           version_read_failure manager e) \/
          (stage = "error creating resource labeler: %v" /\
           version_reads manager /\
           first_read_failure devices e))))).
Proof.
  rewrite NewLabelers_fails. split.
  - intros (stage & e & -> & [?|[Hinit [?|(devices & Hdev & Hne & Hstage)]]]);
      exists stage, e; (split; [done|]); [by left|by right; split; [|left]|].
    right. split; [done|]. right. exists devices. split; [done|].
    split; [done|].
    destruct Hstage as [[-> Hver]|(-> & Hver & Hcount)].
    + left. split; [done|]. by apply (ixmlVersionLabeler_Err_iff nodeLabelPrefix).
    + right. split; [done|]. split.
      * by apply (ixmlVersionLabeler_Ok_iff nodeLabelPrefix).
      * by apply (countDevices_Err_iff devices ∅ ∅).
  - intros (stage & e & -> & [?|[Hinit [?|(devices & Hdev & Hne & Hstage)]]]);
      exists stage, e; (split; [done|]); [by left|by right; split; [|left]|].
    right. split; [done|]. right. exists devices. split; [done|].
    split; [done|].
    destruct Hstage as [[-> Hver]|(-> & Hver & Hcount)].
    + left. split; [done|]. by apply (ixmlVersionLabeler_Err_iff nodeLabelPrefix).
    + right. split; [done|]. split.
      * by apply (ixmlVersionLabeler_Ok_iff nodeLabelPrefix).
      * by apply (countDevices_Err_iff devices ∅ ∅).
Qed.

End failures.

(** ** The file system across a run *)

Section files.
Import label spec props main.

Variable nodeLabelPrefix : string.
Context {Σ : Type}.

Lemma publish_fs {FS : Type} (os : OS FS) (d : ixfd Σ) timestampLabeler p
    (w : World FS Σ) :
  fs (main.publish nodeLabelPrefix os d timestampLabeler p w).2 = fs w.
Proof.
  unfold main.publish.
  destruct (NewLabelers _ _ _ _ _ _) as [lines [l|]]; [|done].
  destruct (Labeler_Labels _) as [labels|]; [|done].
  destruct (Nat.leb _ _); simpl;
    by destruct (labelOutputer d labels _) as [[?|] ?].
Qed.

Lemma run_from_rerun_fs {FS : Type} (os : OS FS) (d : ixfd Σ) timestampLabeler
    script (w : World FS Σ) :
  fs (main.run_from_rerun nodeLabelPrefix os d timestampLabeler script w).2
  = fs w.
Proof.
  revert w. induction script as [|p script IH]; intros w; [done|].
  cbn [main.run_from_rerun].
  pose proof (publish_fs os d timestampLabeler p w) as Hp.
  destruct (main.publish _ _ _ _ _ _) as [[[]|err] w1]; simpl in Hp; [|done].
  destruct (idle p); [by rewrite IH|]. by case_bool_decide.
Qed.

(** X17. On a file system that is a map from paths to contents, [run]
    changes no file while it is running; when it returns with a
    non-empty output path configured, the output file is gone, whether
    it existed or not, and every other file is as before. *)
Theorem run_removes_only_output_file (d : ixfd Σ) (now : Z)
    (script : list Poll) (w : World Files Σ) :
  let path := config.OutputFile (config.Flags_of (config_of d)) in
  fs (main.run nodeLabelPrefix files_os d now script w).2
  = match (main.run nodeLabelPrefix files_os d now script w).1 with
    | Some _ => if bool_decide (path = "") then fs w else delete path (fs w)
    | None => fs w
    end.
Proof.
  intros path. unfold main.run.
  pose proof (run_from_rerun_fs files_os d
                (NewTimestampLabeler nodeLabelPrefix (config_of d) now)
                script w) as Hfs.
  destruct (main.run_from_rerun _ _ _ _ _ _) as [[decision|] w1];
    simpl in *; [|done].
  unfold run_deferred. fold path. case_bool_decide; [done|].
  unfold removeOutputFile. simpl. rewrite Hfs.
  destruct (fs w !! path) eqn:Hpath; simpl; [done|].
  symmetry. by apply delete_id.
Qed.

End files.

(** ** The warning for an almost empty label set *)

Section warning.
Import label spec props main.

Variable nodeLabelPrefix : string.
Context {FS Σ : Type}.
Variable os : OS FS.

(** X18. In a pass in which the labelers are built (the manager answering
    alike at both of the [GetDevices] calls of the pass), the label set
    composed for the outputer holds the eleven device labels when the
    manager lists a device and none of them when it lists none, plus the
    timestamp label unless the timestamp is disabled; the warning that no
    labels were generated is therefore written exactly when the manager
    lists no device.  The warnings of the labelers come first, and nothing
    else is written to the log. *)
Theorem warning_iff_no_device (d : ixfd Σ) (now : Z) (p : Poll)
    (w : World FS Σ) (lines : list LogLine) (loopLabelers : Labeler) :
  let timestampLabeler :=
    NewTimestampLabeler nodeLabelPrefix (config_of d) now in
  NewLabelers nodeLabelPrefix (ReadFile os (fs w)) (names_order p)
    (labels_order p) (manager p) (config_of d) = (lines, Ok loopLabelers) ->
  exists (devices : list resource.Device) (labels : Labels),
    resource.GetDevices (manager p) = Ok devices /\
    Labeler_Labels (Merge [timestampLabeler; loopLabelers]) = Ok labels /\
    size labels
    = (if Nat.eqb (length devices) 0 then 0 else 11)
      + (if config.NoTimestamp (config.Flags_of (config_of d)) then 0 else 1) /\
    log (main.publish nodeLabelPrefix os d timestampLabeler p w).2
    = log w ++ lines ++
      (if Nat.eqb (length devices) 0
       then [Warning "No labels generated from any source"] else []).
Proof.
  intros timestampLabeler Hloop. unfold main.publish. rewrite Hloop.
  destruct (NewLabelers_names nodeLabelPrefix _ _ _ _ _ _ _ Hloop)
    as (m' & Hm' & Hkeys).
  apply NewLabelers_size in Hloop as (devices & m & Hdev & Hm & Hsize).
  assert (m' = m) as -> by congruence. clear Hm'.
  set (timestamp := if config.NoTimestamp (config.Flags_of (config_of d))
                    then (∅ : Labels)
                    else {[ nodeLabelPrefix +:+ "/ix.timestamp" := Itoa now ]}).
  assert (Hlabels : Labeler_Labels (Merge [timestampLabeler; loopLabelers])
            = Ok (m ∪ timestamp)).
  { unfold Labeler_Labels, Merge. rewrite Labeler_call_list.
    rewrite (merge_from_ok _ [timestamp; m]).
    - simpl. by rewrite (right_id_L ∅ (∪)).
    - constructor; [|by repeat constructor].
      subst timestamp timestampLabeler. unfold NewTimestampLabeler.
      by destruct (config.NoTimestamp (config.Flags_of (config_of d))). }
  rewrite Hlabels.
  assert (Hts : size timestamp
                = if config.NoTimestamp (config.Flags_of (config_of d))
                  then 0 else 1).
  { subst timestamp.
    destruct (config.NoTimestamp (config.Flags_of (config_of d)));
      [apply map_size_empty|apply map_size_singleton]. }
  assert (Hdisjoint : m ##ₘ timestamp).
  { subst timestamp.
    destruct (config.NoTimestamp (config.Flags_of (config_of d)));
      [apply map_disjoint_empty_r|].
    apply map_disjoint_singleton_r. apply Hkeys.
    unfold device_label_names. rewrite !not_elem_of_cons.
    repeat split; try discriminate. apply not_elem_of_nil. }
  assert (Hunion : size (m ∪ timestamp)
            = (if Nat.eqb (length devices) 0 then 0 else 11)
              + (if config.NoTimestamp (config.Flags_of (config_of d))
                 then 0 else 1)).
  { by rewrite map_size_disj_union, Hsize, Hts. }
  exists devices, (m ∪ timestamp).
  split; [done|]. split; [done|]. split; [done|].
  destruct (Nat.eqb (length devices) 0).
  - destruct (Nat.leb_spec (size (m ∪ timestamp)) 1) as [_|Hgt].
    2: { destruct (config.NoTimestamp (config.Flags_of (config_of d)));
           simpl in Hunion; lia. }
    simpl. rewrite <- (assoc_L (++)).
    by destruct (labelOutputer d (m ∪ timestamp) (sink w)) as [[?|] ?].
  - destruct (Nat.leb_spec (size (m ∪ timestamp)) 1) as [Hle|_]; [lia|].
    simpl. rewrite (right_id_L [] (++)).
    by destruct (labelOutputer d (m ∪ timestamp) (sink w)) as [[?|] ?].
Qed.

End warning.

(** ** The further properties at concrete inputs *)

Section further_instances.
Import label spec props examples samples.

Lemma GetDevices_handles_in_order_witness :
  ixml.DeviceGetCount library = (2, ixml.SUCCESS)
  /\ resource.ixmlLib_GetDevices library
     = Ok [raw_device "Iluvatar BI-V150"; raw_device "Iluvatar MR-V100"].
Proof.
  split; [reflexivity|].
  apply (proj1 (GetDevices_handles_in_order library 2 eq_refl)).
  split; [|reflexivity]. intros i _. reflexivity.
Defined.

Lemma GetCudaRuntimeVersion_decodes_witness :
  ixml.SystemGetCudaDriverVersion library = ("10020", ixml.SUCCESS)
  /\ resource.ixmlLib_GetCudaRuntimeVersion library = Ok (10, 2)%Z.
Proof.
  split; [reflexivity|].
  apply (proj1 (GetCudaRuntimeVersion_decodes library "10020" eq_refl));
    [lia|lia|lia|reflexivity].
Defined.

Lemma aggregator_homogeneous_witness :
  resource.GetDevices (manager_of twin_devices "4.2.0") = Ok twin_devices
  /\ devices_read twin_devices [("BI-V150", 32768%Z); ("BI-V150", 32768%Z)]
  /\ newIXResourceLabeler prefix forward_order backward_order
       (manager_of twin_devices "4.2.0")
     = ([], Ok (Merge [Labels_labeler
          (<[ prefix +:+ "/gpu.product" := "BI-V150" ]>
          (<[ prefix +:+ "/gpu.count" := Itoa (Z.of_nat (length twin_devices)) ]>
          (<[ prefix +:+ "/gpu.memory" := Itoa (int_of_uint64 32768) ]> ∅)))])).
Proof.
  assert (Hread : devices_read twin_devices
                    [("BI-V150", 32768%Z); ("BI-V150", 32768%Z)])
    by (repeat constructor).
  split; [reflexivity|]. split; [exact Hread|].
  apply (aggregator_homogeneous prefix forward_order backward_order
           (manager_of twin_devices "4.2.0") twin_devices
           [("BI-V150", 32768%Z); ("BI-V150", 32768%Z)] "BI-V150" 32768
           eq_refl Hread);
    [repeat constructor|reflexivity].
Defined.

Lemma aggregator_first_failure_witness :
  devices_read [device "BI-V150" 32768] [("BI-V150", 32768%Z)]
  /\ newIXResourceLabeler prefix forward_order forward_order
       (manager_of ([device "BI-V150" 32768]
                    ++ lost_device :: [device "MR-V100" 16384]) "4.2.0")
     = ([], Err (ErrorfErr "error getting device name: %v" []
                   (ErrNew "device lost"))).
Proof.
  assert (Hread : devices_read [device "BI-V150" 32768] [("BI-V150", 32768%Z)])
    by (repeat constructor).
  split; [exact Hread|].
  apply (proj1 (aggregator_first_failure prefix forward_order forward_order
           (manager_of ([device "BI-V150" 32768]
                        ++ lost_device :: [device "MR-V100" 16384]) "4.2.0")
           [device "BI-V150" 32768] [device "MR-V100" 16384] lost_device
           [("BI-V150", 32768%Z)] eq_refl Hread)).
  reflexivity.
Defined.

Lemma version_labels_rebuild_full_witness :
  ixmlVersionLabeler prefix (manager_of [] "4.2.0")
  = Ok (Labels_labeler version_labels)
  /\ exists major minor revision : string,
       version_labels !! (prefix +:+ "/ix.driver-version.major") = Some major
       /\ version_labels !! (prefix +:+ "/ix.driver-version.minor") = Some minor
       /\ version_labels !! (prefix +:+ "/ix.driver-version.revision")
          = Some revision
       /\ ((revision = "" /\ "4.2.0" = major +:+ "." +:+ minor)
           \/ "4.2.0" = major +:+ "." +:+ minor +:+ "." +:+ revision).
Proof.
  assert (Hl : ixmlVersionLabeler prefix (manager_of [] "4.2.0")
               = Ok (Labels_labeler version_labels)) by reflexivity.
  split; [exact Hl|].
  destruct (version_labels_rebuild_full prefix (manager_of [] "4.2.0") "4.2.0"
              (Labels_labeler version_labels) eq_refl Hl)
    as (labels & major & minor & revision & cmaj & cmin & [= <-] & _ & _
        & Hmajor & Hminor & Hrevision & _ & _ & _ & _ & _ & _ & Hfull).
  exists major, minor, revision.
  split; [exact Hmajor|]. split; [exact Hminor|]. split; [exact Hrevision|].
  exact Hfull.
Defined.


Lemma Output_on_store_witness :
  nfdClientSet store_outputer = store_client
  /\ exists calls' σ' obj,
       NodeFeatureOutputer_Output feature_prefix node_name_label
         store_outputer one_gpu ([], ∅) = (None, (calls', σ'))
       /\ σ' !! ("node-feature-discovery", "ix-features-for-node-1") = Some obj
       /\ SpecLabels (Spec obj) = one_gpu.
Proof.
  split; [reflexivity|].
  destruct (Output_on_store feature_prefix node_name_label store_outputer
              one_gpu [] ∅ eq_refl ltac:(discriminate)
              ltac:(intros obj Hobj; discriminate Hobj))
    as (calls' & σ' & obj & Hout & Hobj & _ & (Hlabels & _) & _).
  exists calls', σ', obj. split; [exact Hout|]. split; [exact Hobj|exact Hlabels].
Defined.

Lemma start_returns_nil_on_signal_witness :
  (main.start prefix feature_prefix node_name_label main.files_os node
     [epoch (main.received main.SIGHUP); epoch (main.received main.SIGTERM)]
     first_world).1 = Some None
  /\ exists before e after s,
       [epoch (main.received main.SIGHUP); epoch (main.received main.SIGTERM)]
       = before ++ e :: after
       /\ length before = 1
       /\ props.ends_with_signal (main.passes e) s /\ s <> main.SIGHUP.
Proof.
  split; [vm_compute; reflexivity|].
  destruct (start_returns_nil_on_signal prefix feature_prefix node_name_label
              main.files_os node
              [epoch (main.received main.SIGHUP);
               epoch (main.received main.SIGTERM)]
              first_world
              (main.start prefix feature_prefix node_name_label main.files_os
                 node
                 [epoch (main.received main.SIGHUP);
                  epoch (main.received main.SIGTERM)]
                 first_world).2
              ltac:(vm_compute; reflexivity))
    as (_ & _ & before & e & after & s & Heq & Hbefore & He & Hs).
  exists before, e, after, s. split; [exact Heq|].
  split; [|split; [exact He|exact Hs]].
  destruct before as [|e1 [|e2 before]].
  - injection Heq as <- _. destruct He as (pre & q & post & Hp & Hpre & Hq).
    destruct pre as [|? [|? ?]]; [|discriminate Hp..].
    injection Hp as <- _. injection Hq as <-. destruct Hs. reflexivity.
  - reflexivity.
  - destruct before; discriminate Heq.
Defined.

Lemma warning_iff_no_device_witness :
  NewLabelers prefix (main.ReadFile recording_os (main.fs fresh_world))
    forward_order forward_order (manager_of [] "3.5")
    (config_with_output "/out") = ([], Ok empty_labeler)
  /\ exists labels : Labels,
       Labeler_Labels
         (Merge [NewTimestampLabeler prefix (config_with_output "/out")
                   1700000000; empty_labeler]) = Ok labels
       /\ size labels = 1
       /\ main.log (main.publish prefix recording_os (daemon "/out")
                      (NewTimestampLabeler prefix (config_with_output "/out")
                         1700000000)
                      (pass (main.received main.SIGTERM)) fresh_world).2
          = [Warning "No labels generated from any source"].
Proof.
  split; [reflexivity|].
  destruct (warning_iff_no_device prefix recording_os (daemon "/out")
              1700000000 (pass (main.received main.SIGTERM)) fresh_world []
              empty_labeler eq_refl)
    as (devices & labels & Hdev & Hlabels & Hsize & Hlog).
  injection Hdev as <-.
  exists labels. split; [exact Hlabels|]. split; [exact Hsize|exact Hlog].
Defined.

(** A run that ends on an error, the manager not initialising, removes the
    output file as well before it returns. *)
Example run_error_removes_output_file :
  main.run prefix main.files_os (daemon "/out") 1700000000 [failing_pass]
    world_with_output
  = (Some (false,
           Some (ErrorfErr "error creating labeler: %v" []
                   (ErrorfErr "failed to initialize resource manager: %v" []
                      (ErrNew "driver not loaded")))),
     {| main.fs := ∅; main.sink := ∅; main.log := [] |}).
Proof. vm_compute. reflexivity. Qed.

End further_instances.
